(** * Fixed-width import generator: a shallow embedding of the encoding core

    The development follows the JavaScript sources of the repository:
    - [MonarchImporter.js]       order/job importer (first revision in the file),
    - [CustomerListImporter.js]  customer-list importer,
    - the WIP importer           ([WIPImporter], spreadsheet rows),
    - [CustomerApiService]       the customer directory, seen through its results.

    JavaScript strings are lists of characters, numbers are the integers the
    sources produce and consume (counters, numeric spreadsheet cells), objects
    are association lists in [Object.entries] order, and code that can throw
    returns a [Result]. *)

From Stdlib Require Import List ZArith Lia Ascii String Bool Arith DecimalString.
From Stdlib Require Permutation Sorted.
Import ListNotations.
Open Scope Z_scope.

(** ** Strings

    A string is its sequence of characters, each a code point below 256
    (the Latin-1 range, which holds every text literal of the sources). *)

Definition str := list ascii.

Definition L (s : string) : str := list_ascii_of_string s.
Arguments L s%_string.

Definition space : ascii := " "%char.

(** [' '.repeat(n)] *)
Definition spaces (n : nat) : str := repeat space n.

(** [s.substring(0, n)] for a literal [n >= 0]. *)
Definition substring0 (n : nat) (s : str) : str := firstn n s.

(** [s.padEnd(n, ' ')] *)
Definition padEnd (n : nat) (s : str) : str := s ++ spaces (n - List.length s).

(** [s.padStart(n, c)] for a one-character filler. *)
Definition padStart (n : nat) (c : ascii) (s : str) : str :=
  repeat c (n - List.length s) ++ s.

Definition str_eqb (a b : str) : bool :=
  if list_eq_dec ascii_dec a b then true else false.

(** Decimal rendering of an integer, as [Number.prototype.toString] prints
    the integers that occur in the sources. *)
Definition decimal (z : Z) : str := L (NilZero.string_of_int (Z.to_int z)).

(** ** JavaScript values that reach the encoders *)

Inductive JsVal : Type :=
| VUndefined
| VNull
| VBool (b : bool)
| VNum (n : Z)
| VStr (s : str).

(** Truthiness, as tested by [if (v)], [!v] and [v || d]. *)
Definition truthy (v : JsVal) : bool :=
  match v with
  | VUndefined | VNull => false
  | VBool b => b
  | VNum n => negb (n =? 0)
  | VStr s => match s with [] => false | _ => true end
  end.

(** [String(v)], the text a template literal inserts.  A number is an
    integer that JavaScript prints in plain decimal (magnitude below 10^21),
    as are the counters and the numeric cells of the sources. *)
Definition jsString (v : JsVal) : str :=
  match v with
  | VUndefined => L "undefined"
  | VNull => L "null"
  | VBool true => L "true"
  | VBool false => L "false"
  | VNum n => decimal n
  | VStr s => s
  end.

Definition nullish (v : JsVal) : bool :=
  match v with VUndefined | VNull => true | _ => false end.

(** [v.toString()]: a [TypeError] on [undefined] and [null]. *)
Definition toString (v : JsVal) : option str :=
  if nullish v then None else Some (jsString v).

(** [a || b] *)
Definition jsOr (a b : JsVal) : JsVal := if truthy a then a else b.

Definition isUndefined (v : JsVal) : bool :=
  match v with VUndefined => true | _ => false end.

(** ** Exceptions *)

Inductive Exn : Type :=
| TypeError (detail : str)      (* raised by the runtime; the text is the engine's *)
| Error (message : str)         (* [new Error(message)] *)
| ThrownObject.                 (* a thrown object without a [message] (an event) *)

(** The text of [`${error.message}`]. *)
Definition exnMessage (e : Exn) : str :=
  match e with
  | TypeError d => d
  | Error m => m
  | ThrownObject => L "undefined"
  end.

Inductive Result (A : Type) : Type :=
| Ok (a : A)
| Throw (e : Exn).
Arguments Ok {A} a.
Arguments Throw {A} e.

Definition bind {A B} (r : Result A) (k : A -> Result B) : Result B :=
  match r with Ok a => k a | Throw e => Throw e end.

Definition tryCatch {A} (body : Result A) (handler : Exn -> Result A) : Result A :=
  match body with Ok a => Ok a | Throw e => handler e end.

Notation "x <- c ;; k" := (bind c (fun x => k))
  (at level 61, c at next level, right associativity).

(** ** Field definitions and record instances *)

Record FieldDef : Type := mkField { value : JsVal; pos : Z; len : Z }.

(** One output record: the object literal of the mapping functions, as the
    list [Object.entries] enumerates (keys in insertion order). *)
Definition RecordInstance := list (str * FieldDef).

(** A layout: field name, 1-based position, length. *)
Definition Layout := list (str * Z * Z).

Definition layoutOf (r : RecordInstance) : Layout :=
  map (fun e => (fst e, pos (snd e), len (snd e))) r.

(** ** The positional encoder *)

(** [line[i] = c] on an array used as a character buffer.  An index outside
    the array is guarded by [pos + i < line.length]; a negative index only
    adds a property that [join] does not see. *)
Fixpoint upd (n : nat) (c : ascii) (l : list ascii) : list ascii :=
  match l, n with
  | [], _ => []
  | _ :: t, O => c :: t
  | x :: t, S n' => x :: upd n' c t
  end.

Definition setChar (line : list ascii) (i : Z) (c : ascii) : list ascii :=
  if (0 <=? i) && (i <? Z.of_nat (List.length line))
  then upd (Z.to_nat i) c line else line.

(** [for (i = 0; i < n; i++) if (p + i < line.length) line[p + i] = value[i]],
    over the [n] characters [cs] that the loop reads. *)
Fixpoint placeFrom (line : list ascii) (p : Z) (cs : str) : list ascii :=
  match cs with
  | [] => line
  | c :: cs' => placeFrom (setChar line p c) (p + 1) cs'
  end.

(** The loop bound [Math.min(len, value.length)]. *)
Definition written (ln : Z) (s : str) : nat :=
  Z.to_nat (Z.min ln (Z.of_nat (List.length s))).

Definition place (line : list ascii) (p0 ln : Z) (s : str) : list ascii :=
  placeFrom line p0 (firstn (written ln s) s).

(** [new Array(n).join(' ')]: [n] empty slots joined by [n - 1] separators. *)
Definition arrayJoinSpaces (n : nat) : str := spaces (n - 1).

(** [new Array(n).fill(' ')] *)
Definition arrayFillSpaces (n : nat) : list ascii := repeat space n.

(** The job and WIP encoders start from [new Array(560 + 1).join(' ').split('')]. *)
Definition jobBlankLine : list ascii := arrayJoinSpaces (560 + 1).

(** The customer encoder starts from [new Array(758).fill(' ')]. *)
Definition customerBlankLine : list ascii := arrayFillSpaces 758.

(** Body of the job encoder's [for ... of Object.entries(job)]:
    [if (def.value) { value = def.value.toString(); ... }]. *)
Definition jobStep (line : list ascii) (e : str * FieldDef) : list ascii :=
  let d := snd e in
  if truthy (value d) then place line (pos d - 1) (len d) (jsString (value d))
  else line.

Definition encodeJobLine (job : RecordInstance) : list ascii :=
  fold_left jobStep job jobBlankLine.

Definition newline : ascii := "010"%char.

(** [MonarchImporter.generateFixedWidthFile(jobs)] *)
Definition generateFixedWidthFile (jobs : list RecordInstance) : str :=
  List.concat (map (fun job => encodeJobLine job ++ [newline]) jobs).

(** The WIP encoder skips the entry named [_metadata] before it looks at the
    value. *)
Definition metadataKey : str := L "_metadata".

Definition wipStep (line : list ascii) (e : str * FieldDef) : list ascii :=
  if str_eqb (fst e) metadataKey then line else jobStep line e.

Definition encodeWipLine (job : RecordInstance) : list ascii :=
  fold_left wipStep job jobBlankLine.

(** [WIPImporter.generateFixedWidthFile(jobs)] *)
Definition wipGenerateFixedWidthFile (jobs : list RecordInstance) : str :=
  List.concat (map (fun job => encodeWipLine job ++ [newline]) jobs).

(** [null.toString()] *)
Definition nullError : Exn :=
  TypeError (L "Cannot read properties of null (reading 'toString')").

(** Body of the customer encoder's loop:
    [if (def.value !== undefined) { value = def.value.toString(); ... }]. *)
Definition customerStep (line : list ascii) (e : str * FieldDef)
  : Result (list ascii) :=
  let d := snd e in
  if isUndefined (value d) then Ok line
  else match toString (value d) with
       | Some s => Ok (place line (pos d - 1) (len d) s)
       | None => Throw nullError
       end.

Fixpoint customerLoop (line : list ascii) (r : RecordInstance)
  : Result (list ascii) :=
  match r with
  | [] => Ok line
  | e :: r' => line' <- customerStep line e ;; customerLoop line' r'
  end.

Definition encodeCustomerLine (customer : RecordInstance) : Result (list ascii) :=
  customerLoop customerBlankLine customer.

(** The [forEach] of [generateCustomerImportFile] over the mapped customers. *)
Fixpoint encodeCustomers (customers : list RecordInstance) : Result str :=
  match customers with
  | [] => Ok []
  | c :: cs =>
      line <- encodeCustomerLine c ;;
      rest <- encodeCustomers cs ;;
      Ok (line ++ [newline] ++ rest)
  end.

(** ** More string operations of the sources *)

(** White space removed by [trim()], among 8-bit characters. *)
Definition isWhite (c : ascii) : bool :=
  let n := nat_of_ascii c in
  ((9 <=? n) && (n <=? 13) || (n =? 32) || (n =? 160))%nat.

Fixpoint trimStart (s : str) : str :=
  match s with
  | [] => []
  | c :: s' => if isWhite c then trimStart s' else s
  end.

(** [s.trim()] *)
Definition trim (s : str) : str := rev (trimStart (rev (trimStart s))).

(** [\d] *)
Definition isDigit (c : ascii) : bool :=
  let n := nat_of_ascii c in ((48 <=? n) && (n <=? 57))%nat.

(** [toLowerCase()], character by character: the capitals A-Z and the
    Latin-1 capitals (codes 192 to 222, the multiplication sign 215 apart) are
    32 below their small letters. *)
Definition lowerChar (c : ascii) : ascii :=
  let n := nat_of_ascii c in
  if ((65 <=? n) && (n <=? 90)
      || (192 <=? n) && (n <=? 222) && negb (n =? 215))%nat
  then ascii_of_nat (n + 32) else c.

Definition toLowerCase (s : str) : str := map lowerChar s.

Fixpoint startsWith (p s : str) : bool :=
  match p, s with
  | [], _ => true
  | _ :: _, [] => false
  | a :: p', b :: s' => if ascii_dec a b then startsWith p' s' else false
  end.

(** [s.includes(sep)] *)
Fixpoint includes (sep s : str) : bool :=
  startsWith sep s || match s with [] => false | _ :: s' => includes sep s' end.

(** [s.split(sep)] for a non-empty separator; [fuel] bounds the scan and the
    length of [s] is enough. *)
Fixpoint splitGo (fuel : nat) (sep cur s : str) : list str :=
  match fuel with
  | O => [rev cur ++ s]
  | S fuel' =>
      match s with
      | [] => [rev cur]
      | c :: s' =>
          if startsWith sep s
          then rev cur :: splitGo fuel' sep [] (skipn (List.length sep) s)
          else splitGo fuel' sep (c :: cur) s'
      end
  end.

Definition split (sep s : str) : list str := splitGo (S (List.length s)) sep [] s.

(** [s.replace(/^0+/, match => ' '.repeat(match.length))] *)
Fixpoint blankLeadingZeros (s : str) : str :=
  match s with
  | c :: s' => if ascii_dec c "0"%char then space :: blankLeadingZeros s' else s
  | [] => []
  end.

(** The double-quote character (code 34). *)
Definition dquote : ascii := ascii_of_nat 34.

(** [s.replace(/QUOTE/g, QUOTE QUOTE)]: every double quote is doubled. *)
Fixpoint doubleQuotes (s : str) : str :=
  match s with
  | [] => []
  | c :: s' => if ascii_dec c dquote then dquote :: dquote :: doubleQuotes s'
               else c :: doubleQuotes s'
  end.

(** The escaped field: the text with its quotes doubled, between two quotes. *)
Definition csvQuote (s : str) : str := dquote :: doubleQuotes s ++ [dquote].

(** [parts.join(sep)] *)
Fixpoint join (sep : str) (parts : list str) : str :=
  match parts with
  | [] => []
  | [x] => x
  | x :: rest => x ++ sep ++ join sep rest
  end.

(** ** The wire layouts, as the object literals give them *)

(** Job, sub-job and WIP records ([mapOrdersToMonarch], [mapToMonarchFormat]). *)
Definition jobLayout : Layout :=
  [ (L "job_id", 1, 8); (L "sub_job_id", 9, 4); (L "job_description", 13, 254);
    (L "job_type", 267, 19); (L "item_id", 286, 15); (L "cust_ordered_by", 301, 8);
    (L "cust_billed_to", 309, 8); (L "sales_class_id", 317, 8);
    (L "po_number", 325, 20); (L "date_promised", 345, 10); (L "ship_date", 355, 10);
    (L "qty_ordered", 365, 11); (L "priority", 376, 10); (L "contact_name", 386, 30);
    (L "expense_code", 416, 24); (L "shop_floor_active", 440, 1);
    (L "form_number", 441, 20); (L "quotation_amount", 461, 15);
    (L "unit_of_measure_id", 476, 4); (L "unit_price", 480, 16);
    (L "job_title", 496, 50); (L "forest_type_id", 546, 15) ].

(** Customer records ([mapCustomerListToMonarch]). *)
Definition customerLayout : Layout :=
  [ (L "Cust-code", 1, 8); (L "Cust-name", 9, 40); (L "Address-1", 49, 40);
    (L "Address-2", 89, 40); (L "Address-3", 129, 40); (L "City", 169, 40);
    (L "State", 209, 3); (L "Zip", 212, 10); (L "Country", 222, 40);
    (L "Phone", 262, 20); (L "FAX", 282, 20); (L "E-Mail-Address", 302, 80);
    (L "AR-Tax-Code", 382, 10); (L "Terms-Code", 392, 20);
    (L "Sales-agent-id", 412, 8); (L "CSR-ID", 420, 3); (L "territory-id", 423, 12);
    (L "Cust-ID-Bill-to", 435, 8); (L "Group-ID", 443, 12); (L "Priority", 455, 10);
    (L "Estimate-Markup-Pct", 465, 6); (L "Overs-Allowed", 471, 5);
    (L "Date-First-Order", 476, 10); (L "PO-Required", 486, 1); (L "AR-Stmt", 487, 1);
    (L "AR-Stmt-Dunning-Msg", 488, 1); (L "Inter-company", 489, 1);
    (L "System-ID-Inter-company", 490, 12); (L "Bank", 502, 20);
    (L "Bank-acct-num", 522, 20); (L "Sales-tax-exempt", 542, 20);
    (L "Credit-Limit", 562, 14); (L "Shipment-Method-ID", 576, 8);
    (L "Tax-Number", 584, 20); (L "Addl-Tax-Number", 604, 20);
    (L "Industry-Code", 624, 8); (L "Locale-ID", 632, 6);
    (L "Prograph-Customer-Type", 638, 1); (L "Prograph-Shipper", 639, 1);
    (L "Prograph-Paper-Owner", 640, 1); (L "Prograph-Advertiser", 641, 1);
    (L "Prograph-Advertising-Agency", 642, 1); (L "Allow-PSF-Access", 643, 1);
    (L "PSF-Auto-Accept-Orders", 644, 1); (L "PrinterSite-Exchange", 645, 1);
    (L "Available-in-PrintStream", 646, 1); (L "PS-Fulfillment", 647, 8);
    (L "PS-Franchise-Number", 655, 30); (L "PS-Store-Number", 685, 30);
    (L "PS-Credit-Hold", 715, 1); (L "AR-Stmt-Finance-Chrg", 716, 1);
    (L "Allow-OPS", 717, 1); (L "iQuote-Customer-ID", 718, 15);
    (L "ARStatementDelivery", 733, 7); (L "BatchCloseInvDelivery", 740, 7);
    (L "PointOfTitleTransfer", 747, 11) ].

(** A record instance binds one value to every field of its layout, in the
    layout's order. *)
Fixpoint bindLayout (lay : Layout) (vals : list JsVal) : RecordInstance :=
  match lay, vals with
  | (name, p, l) :: lay', v :: vals' => (name, mkField v p l) :: bindLayout lay' vals'
  | _, _ => []
  end.

(** Every field starts where the previous one ends. *)
Fixpoint contiguousFrom (start : Z) (lay : Layout) : bool :=
  match lay with
  | [] => true
  | (_, p, l) :: lay' => (p =? start) && (0 <? l) && contiguousFrom (p + l) lay'
  end.

(** First byte after the last field. *)
Definition layoutEnd (lay : Layout) : Z :=
  fold_left (fun acc f => Z.max acc (snd (fst f) + snd f)) lay 1.

Definition noOverlap (a b : str * Z * Z) : bool :=
  (snd (fst a) + snd a <=? snd (fst b)) || (snd (fst b) + snd b <=? snd (fst a)).

Fixpoint pairwiseDisjoint (lay : Layout) : bool :=
  match lay with
  | [] => true
  | f :: lay' => forallb (noOverlap f) lay' && pairwiseDisjoint lay'
  end.

(** All fields lie inside a line of [n] characters. *)
Definition fitsIn (n : Z) (lay : Layout) : bool :=
  forallb (fun f => (1 <=? snd (fst f)) && (0 <=? snd f)
                    && (snd (fst f) - 1 + snd f <=? n)) lay.

(** [line.slice(pos - 1, pos - 1 + len)], the byte range of a field. *)
Definition byteRange (line : list ascii) (p l : Z) : list ascii :=
  firstn (Z.to_nat l) (skipn (Z.to_nat (p - 1)) line).

(** ** Objects *)

(** An object used as a map: its own properties, in insertion order. *)
Definition JsObject (V : Type) := list (str * V).

(** The names every object literal inherits from [Object.prototype].  Reading
    one of them on an object that has no own property of that name gives a
    function (for [__proto__], the prototype object): a truthy value that is
    no array; assigning a primitive to [__proto__] creates no property. *)
Definition inheritedNames : list str :=
  [ L "constructor"; L "__defineGetter__"; L "__defineSetter__"; L "hasOwnProperty";
    L "__lookupGetter__"; L "__lookupSetter__"; L "isPrototypeOf";
    L "propertyIsEnumerable"; L "toString"; L "valueOf"; L "__proto__";
    L "toLocaleString" ].

Definition inheritedName (k : str) : bool := existsb (str_eqb k) inheritedNames.

(** The own property [k], if there is one. *)
Fixpoint getProp {V} (o : JsObject V) (k : str) : option V :=
  match o with
  | [] => None
  | (k', v) :: o' => if str_eqb k' k then Some v else getProp o' k
  end.

(** [o[k] = v]: an existing key keeps its place, a new key goes last. *)
Fixpoint setProp {V} (o : JsObject V) (k : str) (v : V) : JsObject V :=
  match o with
  | [] => [(k, v)]
  | (k', v') :: o' =>
      if str_eqb k' k then (k, v) :: o' else (k', v') :: setProp o' k v
  end.

Definition indexValue (k : str) : Z :=
  fold_left (fun acc c => acc * 10 + (Z.of_nat (nat_of_ascii c) - 48)) k 0.

(** Keys that are array indices: canonical decimal numerals below 2^32 - 1. *)
Definition isArrayIndex (k : str) : bool :=
  match k with
  | [] => false
  | c :: rest =>
      forallb isDigit k
      && (negb (Ascii.eqb c "0"%char) || match rest with [] => true | _ => false end)
      && (List.length k <=? 10)%nat
      && (indexValue k <=? 4294967294)
  end.

Fixpoint insertByIndex {V} (e : str * V) (l : JsObject V) : JsObject V :=
  match l with
  | [] => [e]
  | x :: l' =>
      if indexValue (fst e) <? indexValue (fst x) then e :: l
      else x :: insertByIndex e l'
  end.

(** [Object.entries(o)]: array-index keys in ascending numeric order, then the
    other keys in insertion order. *)
Definition ownEntries {V} (o : JsObject V) : JsObject V :=
  fold_right insertByIndex [] (filter (fun e => isArrayIndex (fst e)) o)
  ++ filter (fun e => negb (isArrayIndex (fst e))) o.

(** ** What the host environment computes

    Dates and floating-point formatting are the browser's; the model takes
    them as given functions. *)
Class Host : Type := {
  (** [this.formatDate(new Date(s))] of the order importer *)
  dateOfString : str -> str;
  (** [parseFloat(s).toFixed(d).toString()] *)
  fixed : nat -> str -> str;
  (** the WIP [formatDate] on a truthy cell: serial number, date or text *)
  wipDate : JsVal -> str;
  (** [parseFloat(s)] then [toFixed(2)]; [None] when the number is [NaN] *)
  parseFixed2 : str -> option str;
  (** [this.formatDate(new Date())] *)
  today : str
}.

(** ** Rows of a parsed CSV file

    [Papa.parse] with [header: true] and the [trim] transform: every cell is a
    string, a missing column reads [undefined]. *)
Definition CsvRow := JsObject str.

(** [row[k] || d] *)
Definition cellOr (row : CsvRow) (k : str) (d : str) : str :=
  match getProp row k with
  | Some (c :: s) => c :: s
  | _ => d
  end.

(** [row[k] ? f(row[k]) : d] *)
Definition cellThen (row : CsvRow) (k : str) (f : str -> str) (d : str) : str :=
  match getProp row k with
  | Some (c :: s) => f (c :: s)
  | _ => d
  end.

(** ** Description clean-up ([cleanProductDescription]) *)

Definition cleanProductDescription (description : str) : str :=
  match description with
  | [] => []
  | _ =>
      if str_eqb (toLowerCase (trim description)) (L "shipping") then description
      else if includes (L " : ") description then
        let parts := split (L " : ") description in
        let prefix := trim (nth 0 parts []) in
        let second := nth 1 parts [] in
        if includes (L " - Sample") second then
          prefix ++ L " : " ++ trim (nth 0 (split (L " - Sample") second) [])
        else if includes (L " - ") second then
          prefix ++ L " : " ++ trim (nth 0 (split (L " - ") second) [])
        else description
      else description
  end.

(** ** Job identifiers *)

(** Order path:
    [invoiceNumber.toString().padEnd(8, ' ').substring(0, 8)], then leading
    zeros turned into spaces. *)
Definition orderJobId (invoiceNumber : str) : str :=
  blankLeadingZeros (substring0 8 (padEnd 8 invoiceNumber)).

(** WIP path: [('N' + orderId).padEnd(8, ' ').substring(0, 8)]. *)
Definition wipJobId (orderId : str) : str :=
  substring0 8 (padEnd 8 (L "N" ++ orderId)).

(** [i.toString().padEnd(4, ' ').substring(0, 4)] *)
Definition subJobId (i : nat) : str :=
  substring0 4 (padEnd 4 (decimal (Z.of_nat i))).

(** ** The customer directory *)

Inductive ApiItem : Type :=
| ItemNull                          (* a [null] element *)
| ItemWith (customer_id : JsVal).   (* an element and its [customer_id] *)

Inductive ApiValue : Type :=
| NotArray                          (* [null], an object, a number, ... *)
| ArrayOf (items : list ApiItem).

(** [await searchCustomers(query)]: resolves to the decoded JSON or rejects. *)
Definition ApiOutcome := Result ApiValue.

(** The service answers the [n]-th call of a run for a query. *)
Definition Api := nat -> str -> ApiOutcome.

Definition notFoundReason : str := L "Customer not found in Monarch database".

Definition apiErrorReason (message : str) : str := L "API Error: " ++ message.

(** The [try { ... } catch] of the resolver, up to the decision. *)
Inductive Lookup : Type :=
| Found (customer_id : JsVal)
| Rejected (reason : str).

Definition lookupCustomer (o : ApiOutcome) : Lookup :=
  match o with
  | Throw e => Rejected (apiErrorReason (exnMessage e))
  | Ok NotArray => Rejected notFoundReason
  | Ok (ArrayOf []) => Rejected notFoundReason
  | Ok (ArrayOf (ItemNull :: _)) =>
      Rejected (apiErrorReason
                  (L "Cannot read properties of null (reading 'customer_id')"))
  | Ok (ArrayOf (ItemWith cid :: _)) => Found cid
  end.

(** [monarchCustomerId.toString().substring(0, 8)], outside the [try]. *)
Definition customerId8 (cid : JsVal) : Result str :=
  match toString cid with
  | Some s => Ok (substring0 8 s)
  | None => Throw (TypeError (L "Cannot read properties of " ++ jsString cid
                              ++ L " (reading 'toString')"))
  end.

(** ** Job records *)

(** The object literal pushed for a main job, a sub-job and a WIP job. *)
Definition jobRecord (jobId subJob description custId poNumber dueDate shipDate
                      qty contact quotation unitPrice title : str) : RecordInstance :=
  [ (L "job_id", mkField (VStr jobId) 1 8);
    (L "sub_job_id", mkField (VStr subJob) 9 4);
    (L "job_description", mkField (VStr description) 13 254);
    (L "job_type", mkField (VStr (L "Production")) 267 19);
    (L "item_id", mkField (VStr []) 286 15);
    (L "cust_ordered_by", mkField (VStr custId) 301 8);
    (L "cust_billed_to", mkField (VStr custId) 309 8);
    (L "sales_class_id", mkField (VStr (L "113")) 317 8);
    (L "po_number", mkField (VStr poNumber) 325 20);
    (L "date_promised", mkField (VStr dueDate) 345 10);
    (L "ship_date", mkField (VStr shipDate) 355 10);
    (L "qty_ordered", mkField (VStr qty) 365 11);
    (L "priority", mkField (VStr []) 376 10);
    (L "contact_name", mkField (VStr contact) 386 30);
    (L "expense_code", mkField (VStr []) 416 24);
    (L "shop_floor_active", mkField (VStr (L "0")) 440 1);
    (L "form_number", mkField (VStr []) 441 20);
    (L "quotation_amount", mkField (VStr quotation) 461 15);
    (L "unit_of_measure_id", mkField (VStr (L "Each")) 476 4);
    (L "unit_price", mkField (VStr unitPrice) 480 16);
    (L "job_title", mkField (VStr title) 496 50);
    (L "forest_type_id", mkField (VStr []) 546 15) ].

Definition fieldValue (r : RecordInstance) (name : str) : JsVal :=
  match getProp r name with Some d => value d | None => VUndefined end.

(** ** The order mapping ([MonarchImporter.mapOrdersToMonarch]) *)

Record RejectedOrder : Type := mkRejected {
  invoiceNumber : str;
  customerName : str;
  productName : str;
  poNumber : str;
  dueDate : str;
  amount : str;
  reason : str
}.

Definition invoiceOf (order : CsvRow) : str := cellOr order (L "Invoice Number") [].

Definition pushError : Exn :=
  TypeError (L "ordersByInvoice[invoiceNumber].push is not a function").

(** The body of [this.orderData.forEach(order => ...)]:
    [if (!ordersByInvoice[k]) ordersByInvoice[k] = []] and then
    [ordersByInvoice[k].push(order)].  The object starts as [{}]: under a name
    it inherits, [ordersByInvoice[k]] is truthy without being an array, so no
    array is created and [push] is not a function. *)
Definition pushOrder (groups : JsObject (list CsvRow)) (order : CsvRow)
  : Result (JsObject (list CsvRow)) :=
  let k := invoiceOf order in
  match getProp groups k with
  | Some orders => Ok (setProp groups k (orders ++ [order]))
  | None =>
      if inheritedName k then Throw pushError
      else Ok (setProp groups k [order])
  end.

Fixpoint pushOrders (groups : JsObject (list CsvRow)) (orderData : list CsvRow)
  : Result (JsObject (list CsvRow)) :=
  match orderData with
  | [] => Ok groups
  | order :: orderData' =>
      groups' <- pushOrder groups order ;;
      pushOrders groups' orderData'
  end.

(** The object [ordersByInvoice] after the grouping loop. *)
Definition ordersByInvoice (orderData : list CsvRow)
  : Result (JsObject (list CsvRow)) :=
  pushOrders [] orderData.

(** What a push that does not throw leaves in the object, and the object
    after a run of such pushes. *)
Definition appendOrder (groups : JsObject (list CsvRow)) (order : CsvRow)
  : JsObject (list CsvRow) :=
  let k := invoiceOf order in
  match getProp groups k with
  | Some orders => setProp groups k (orders ++ [order])
  | None => setProp groups k [order]
  end.

Definition appendOrders (orderData : list CsvRow) : JsObject (list CsvRow) :=
  fold_left appendOrder orderData [].

(** Contact name from the customer file, matched on ['Customer ID']. *)
Definition contactNameOf (customerData : list CsvRow) (customerName : str) : str :=
  match find (fun c => match getProp c (L "Customer ID") with
                       | Some s => str_eqb s customerName
                       | None => false
                       end) customerData with
  | Some c => trim (cellOr c (L "Bill to Contact First Name") [] ++ L " "
                    ++ cellOr c (L "Bill to Contact Last Name") [])
  | None => []
  end.

Section OrderMapping.
Context {host : Host}.

Definition mainJobOf (jobId custId poNumber dueDate shipDate contact : str)
           (order : CsvRow) : RecordInstance :=
  let productName := cleanProductDescription (cellOr order (L "Line: Product Name") []) in
  jobRecord jobId (L "    ")
    (substring0 254 productName) custId (substring0 20 poNumber) dueDate shipDate
    (cellThen order (L "Line: Quantity") (fixed 0) (L "0"))
    (substring0 30 contact)
    (cellThen order (L "Line: Amount") (fixed 2) (L "0.00"))
    (cellThen order (L "Line: Unit price") (fixed 2) (L "0.00"))
    (substring0 50 productName).

Definition subJobOf (jobId custId poNumber dueDate shipDate contact : str)
           (i : nat) (order : CsvRow) : RecordInstance :=
  let productName := cleanProductDescription (cellOr order (L "Line: Product Name") []) in
  jobRecord jobId (subJobId i)
    (substring0 254 productName) custId (substring0 20 poNumber) dueDate shipDate
    (cellThen order (L "Line: Quantity") (fixed 0) (L "0"))
    (substring0 30 contact)
    (cellThen order (L "Line: Amount") (fixed 2) (L "0.00"))
    (cellThen order (L "Line: Unit price") (fixed 2) (L "0.00"))
    (substring0 50 productName).

(** The sub-job loop [for (let i = 1; i < orders.length; i++)], over the
    orders after the first. *)
Fixpoint subJobsFrom (jobId custId poNumber dueDate shipDate contact : str)
         (i : nat) (rest : list CsvRow) : list RecordInstance :=
  match rest with
  | [] => []
  | order :: rest' =>
      subJobOf jobId custId poNumber dueDate shipDate contact i order
      :: subJobsFrom jobId custId poNumber dueDate shipDate contact (S i) rest'
  end.

Inductive GroupOutcome : Type :=
| GroupJobs (main : RecordInstance) (subs : list RecordInstance)
| GroupRejected (r : RejectedOrder).

(** One iteration of [for (const [invoiceNumber, orders] of Object.entries(...))]
    on a non-empty group; [search] is the directory call of this iteration. *)
Definition processGroup (search : str -> ApiOutcome) (customerData : list CsvRow)
           (invoice : str) (firstOrder : CsvRow) (rest : list CsvRow)
  : Result GroupOutcome :=
  let jobId := orderJobId invoice in
  let due := cellThen firstOrder (L "Due date") dateOfString [] in
  let ship := cellThen firstOrder (L "Shipping date") dateOfString [] in
  let po := cellOr firstOrder (L "Custom Field 1-po#") [] in
  let name := cellOr firstOrder (L "Customer Name") [] in
  match lookupCustomer (search name) with
  | Rejected why =>
      Ok (GroupRejected
            (mkRejected invoice name (cellOr firstOrder (L "Line: Product Name") [])
                        po due (cellOr firstOrder (L "Line: Amount") []) why))
  | Found cid =>
      custId <- customerId8 cid ;;
      let contact := contactNameOf customerData name in
      Ok (GroupJobs (mainJobOf jobId custId po due ship contact firstOrder)
                    (subJobsFrom jobId custId po due ship contact 1 rest))
  end.

Record MapResult : Type := mkMapResult {
  mainJobs : list RecordInstance;
  subJobs : list RecordInstance;
  rejectedOrders : list RejectedOrder
}.

Definition addOutcome (acc : MapResult) (o : GroupOutcome) : MapResult :=
  match o with
  | GroupJobs main subs =>
      mkMapResult (mainJobs acc ++ [main]) (subJobs acc ++ subs) (rejectedOrders acc)
  | GroupRejected r =>
      mkMapResult (mainJobs acc) (subJobs acc) (rejectedOrders acc ++ [r])
  end.

(** The loop over the groups; [n] counts the directory calls made so far. *)
Fixpoint mapGroups (api : Api) (customerData : list CsvRow) (n : nat)
         (entries : JsObject (list CsvRow)) (acc : MapResult) : Result MapResult :=
  match entries with
  | [] => Ok acc
  | (_, []) :: entries' => mapGroups api customerData n entries' acc
  | (invoice, firstOrder :: rest) :: entries' =>
      o <- processGroup (api n) customerData invoice firstOrder rest ;;
      mapGroups api customerData (S n) entries' (addOutcome acc o)
  end.

Definition mapOrdersToMonarch (api : Api) (customerData orderData : list CsvRow)
  : Result MapResult :=
  groups <- ordersByInvoice orderData ;;
  mapGroups api customerData 0 (ownEntries groups) (mkMapResult [] [] []).
End OrderMapping.

(** ** The rejection report of the order importer ([generateRejectionFile]) *)

Definition comma : str := L ",".

Definition rejectionHeaders : list str :=
  [ L "Invoice Number"; L "Customer Name"; L "Product"; L "PO Number";
    L "Due Date"; L "Amount"; L "Rejection Reason" ].

(** The [row] array of one rejected order: four fields are escaped, the
    invoice number, the due date and the amount are taken as they are. *)
Definition rejectionFields (o : RejectedOrder) : list str :=
  [ invoiceNumber o; csvQuote (customerName o); csvQuote (productName o);
    csvQuote (poNumber o); dueDate o; amount o; csvQuote (reason o) ].

Definition rejectionRow (o : RejectedOrder) : str := join comma (rejectionFields o).

Definition generateRejectionFile (rejected : list RejectedOrder) : str :=
  match rejected with
  | [] => L "No rejected orders."
  | _ =>
      join comma rejectionHeaders ++ [newline]
      ++ List.concat (map (fun o => rejectionRow o ++ [newline]) rejected)
  end.

(** ** Results of the orchestrators

    [{ success: true, message, ...extras }] or [{ success: false, message }]. *)
Inductive ImportResult (S : Type) : Type :=
| Succeeded (message : str) (extras : S)
| Failed (message : str).
Arguments Succeeded {S} message extras.
Arguments Failed {S} message.

(** The browser services an orchestrator calls inside its [try]. *)
Record Browser : Type := {
  (** [this.downloadTextFile(content, filename)] *)
  downloadTextFile : str -> str -> Result unit;
  (** [localStorage.setItem(key, content)] *)
  setItem : str -> str -> Result unit
}.

Section OrderImporter.
Context {host : Host}.




End OrderImporter.

(** ** The WIP importer *)

(** A spreadsheet row: header name to cell; cells are text or numbers. *)
Definition WipRow := JsObject JsVal.

(** [row[name]] *)
Definition prop (row : WipRow) (name : str) : JsVal :=
  match getProp row name with Some v => v | None => VUndefined end.

(** [v !== undefined && v !== ''] *)
Definition hasValue (v : JsVal) : bool :=
  match v with
  | VUndefined => false
  | VStr [] => false
  | _ => true
  end.

(** The inner loop of [findColumn] over [Object.keys(row)]. *)
Fixpoint findByKey (name : str) (entries : JsObject JsVal) : option JsVal :=
  match entries with
  | [] => None
  | (key, v) :: entries' =>
      if str_eqb (trim (toLowerCase key)) (trim (toLowerCase name)) && hasValue v
      then Some v else findByKey name entries'
  end.

(** [findColumn(row, possibleNames)] *)
Fixpoint findColumn (row : WipRow) (possibleNames : list str) : JsVal :=
  match possibleNames with
  | [] => VStr []
  | name :: names =>
      if hasValue (prop row name) then prop row name
      else match findByKey name (ownEntries row) with
           | Some v => v
           | None => findColumn row names
           end
  end.

(** [/^\d{4,7}$/.test(s)] *)
Definition orderIdPattern (s : str) : bool :=
  (4 <=? List.length s)%nat && (List.length s <=? 7)%nat && forallb isDigit s.

(** [isValidOrderId(orderId)] *)
Definition isValidOrderId (orderId : JsVal) : bool :=
  if negb (truthy orderId) then false
  else orderIdPattern (trim (jsString orderId)).

Definition orderIdColumns : list str :=
  [ L "Order ID"; L "OrderID"; L "Order Id"; L "order id"; L "ORDER ID"; L "Job ID";
    L "JobID"; L "Job Number"; L "Order Number"; L "Order #" ].

Definition customerNameColumns : list str :=
  [ L "Customer Name"; L "CustomerName"; L "Customer"; L "customer name";
    L "CUSTOMER NAME"; L "Client Name"; L "Client" ].

Definition salespersonColumns : list str :=
  [ L "Salesperson"; L "Sales Person"; L "Sales Rep"; L "SalesRep"; L "salesperson";
    L "SALESPERSON"; L "Rep" ].

Definition csrColumns : list str :=
  [ L "CSR"; L "csr"; L "Customer Service Rep"; L "Service Rep" ].

Definition projectNameColumns : list str :=
  [ L "Project Name"; L "ProjectName"; L "Project"; L "project name";
    L "PROJECT NAME"; L "Job Name"; L "Description"; L "Job Description" ].

Definition orderDateColumns : list str :=
  [ L "Order Date"; L "OrderDate"; L "order date"; L "ORDER DATE"; L "Date Ordered";
    L "Created Date" ].

Definition dueDateColumns : list str :=
  [ L "Due Date"; L "DueDate"; L "due date"; L "DUE DATE"; L "Date Due"; L "Deadline" ].

Definition orderValueColumns : list str :=
  [ L "Order Value"; L "OrderValue"; L "order value"; L "ORDER VALUE"; L "Value";
    L "Amount"; L "Total"; L "Price" ].

Record SkippedRow : Type := mkSkipped {
  rowNumber : nat;
  skippedOrderId : JsVal;
  skippedCustomerName : JsVal;
  skippedReason : str
}.

Record FilterState : Type := mkFilter {
  filteredData : list WipRow;
  skippedRows : list SkippedRow
}.

(** The body of [this.wipData.forEach((row, index) => ...)]. *)
Definition filterStep (st : FilterState) (index : nat) (row : WipRow) : FilterState :=
  let orderId := findColumn row orderIdColumns in
  let customer := findColumn row customerNameColumns in
  if isValidOrderId orderId then
    mkFilter (filteredData st
              ++ [setProp (setProp row (L "_orderId") orderId) (L "_customerName") customer])
             (skippedRows st)
  else
    mkFilter (filteredData st)
             (skippedRows st
              ++ [mkSkipped (index + 2)
                    (jsOr orderId (VStr (L "(empty)")))
                    (jsOr customer (VStr []))
                    (if truthy orderId
                     then L "Invalid Order ID format: " ++ jsString orderId
                     else L "Missing Order ID")]).

Fixpoint filterFrom (index : nat) (rows : list WipRow) (st : FilterState) : FilterState :=
  match rows with
  | [] => st
  | row :: rows' => filterFrom (S index) rows' (filterStep st index row)
  end.

(** [filterValidOrders()] *)
Definition filterValidOrders (wipData : list WipRow) : FilterState :=
  filterFrom 0 wipData (mkFilter [] []).

(** [s.replace(/[$,]/g, '')] *)
Definition stripCurrency (s : str) : str :=
  filter (fun c => negb (Ascii.eqb c "$"%char || Ascii.eqb c ","%char)) s.

(** [projectName.substring(0, n)]: only strings have the method; reading it
    on [null] or [undefined] is an error of its own. *)
Definition jsSubstring0 (n : nat) (v : JsVal) : Result str :=
  match v with
  | VStr s => Ok (substring0 n s)
  | VNull | VUndefined =>
      Throw (TypeError (L "Cannot read properties of " ++ jsString v
                        ++ L " (reading 'substring')"))
  | _ => Throw (TypeError (L "projectName.substring is not a function"))
  end.

Record WipRejected : Type := mkWipRejected {
  wipOrderId : str;
  wipCustomerName : JsVal;
  wipProjectName : JsVal;
  wipDueDate : str;
  wipOrderValue : str;
  wipReason : str
}.

Section WipImporter.
Context {host : Host}.

(** [formatDate(dateValue)] *)
Definition wipFormatDate (v : JsVal) : str :=
  if truthy v then wipDate v else [].

(** [formatCurrency(value)] *)
Definition formatCurrency (v : JsVal) : str :=
  if truthy v then
    match parseFixed2 (stripCurrency (jsString v)) with
    | Some s => s
    | None => L "0.00"
    end
  else L "0.00".

(** The directory query of a filtered row: [row._customerName || ''], as
    [encodeURIComponent] reads it. *)
Definition wipQuery (row : WipRow) : str :=
  jsString (jsOr (prop row (L "_customerName")) (VStr [])).

Inductive RowOutcome : Type :=
| RowJob (job : RecordInstance)
| RowRejected (r : WipRejected).

(** The job object of a resolved row, with its [_metadata] entry (an object
    without [value], [pos] or [len]: its [value] reads [undefined]). *)
Definition wipJobOf (orderId custId : str) (projectName : JsVal)
           (due orderValue : str) : Result RecordInstance :=
  description <- jsSubstring0 254 projectName ;;
  title <- jsSubstring0 50 projectName ;;
  Ok (jobRecord (wipJobId orderId) (L "    ") description custId [] due []
                (L "1") [] orderValue orderValue title
      ++ [ (metadataKey, mkField VUndefined 0 0) ]).

(** One iteration of [for (const row of this.filteredData)]. *)
Definition processRow (search : str -> ApiOutcome) (row : WipRow) : Result RowOutcome :=
  let orderId := trim (jsString (jsOr (prop row (L "_orderId")) (VStr []))) in
  let customer := jsOr (prop row (L "_customerName")) (VStr []) in
  let projectName := findColumn row projectNameColumns in
  let due := wipFormatDate (findColumn row dueDateColumns) in
  let orderValue := formatCurrency (findColumn row orderValueColumns) in
  match lookupCustomer (search (wipQuery row)) with
  | Rejected why =>
      Ok (RowRejected (mkWipRejected orderId customer projectName due orderValue why))
  | Found cid =>
      custId <- customerId8 cid ;;
      job <- wipJobOf orderId custId projectName due orderValue ;;
      Ok (RowJob job)
  end.

(** The state of one run of [mapToMonarchFormat]: the jobs built, the
    importer's [rejectedOrders], the directory queries issued, and the
    exception that ended the loop, if any. *)
Record WipRun : Type := mkWipRun {
  wipJobs : list RecordInstance;
  wipRejectedOrders : list WipRejected;
  wipCalls : list str;
  wipThrown : option Exn
}.

Fixpoint mapRows (api : Api) (n : nat) (rows : list WipRow) (st : WipRun) : WipRun :=
  match rows with
  | [] => st
  | row :: rows' =>
      let calls := wipCalls st ++ [wipQuery row] in
      match processRow (api n) row with
      | Ok (RowJob job) =>
          mapRows api (S n) rows'
                  (mkWipRun (wipJobs st ++ [job]) (wipRejectedOrders st) calls None)
      | Ok (RowRejected r) =>
          mapRows api (S n) rows'
                  (mkWipRun (wipJobs st) (wipRejectedOrders st ++ [r]) calls None)
      | Throw e =>
          mkWipRun (wipJobs st) (wipRejectedOrders st) calls (Some e)
      end
  end.

(** [mapToMonarchFormat()] *)
Definition mapToMonarchFormat (api : Api) (filtered : list WipRow) : WipRun :=
  mapRows api 0 filtered (mkWipRun [] [] [] None).

(** [generateWIPImportFile()] *)
Definition generateWIPImportFile (api : Api) (filtered : list WipRow)
  : Result (str * list WipRejected) :=
  let run := mapToMonarchFormat api filtered in
  match wipThrown run with
  | Some e => Throw e
  | None => Ok (wipGenerateFixedWidthFile (wipJobs run), wipRejectedOrders run)
  end.

Record WipSummary : Type := mkWipSummary {
  recordCount : Z;
  skippedCount : nat;
  summarySkippedRows : list SkippedRow;
  rejectedCount : nat;
  summaryRejectedOrders : list WipRejected
}.

(** [array.join(', ')]: [null] and [undefined] elements print as nothing. *)
Definition joinValues (vals : list JsVal) : str :=
  join (L ", ") (map (fun v => if nullish v then [] else jsString v) vals).

Definition noValidOrdersMessage (skipped : nat) (rawHeaders : list JsVal) : str :=
  L "No valid orders found. All " ++ decimal (Z.of_nat skipped)
  ++ L " rows were skipped (Order ID must be 4-7 digits)." ++ [newline; newline]
  ++ L "Columns found: " ++ joinValues rawHeaders ++ [newline; newline]
  ++ L "Check browser console (F12) for more details.".

Definition wipSuccessMessage (records : Z) (skipped rejected : nat) : str :=
  L "WIP import file generated successfully with " ++ decimal records ++ L " records"
  ++ match skipped with
     | O => []
     | _ => L " (" ++ decimal (Z.of_nat skipped)
            ++ L " rows skipped - invalid Order ID format)"
     end
  ++ match rejected with
     | O => []
     | _ => L " (" ++ decimal (Z.of_nat rejected)
            ++ L " orders rejected - customer not found)"
     end.

(** [WIPImporter.processFile(file)]; [parsed] is the outcome of reading the
    spreadsheet (header row, data rows). *)
Definition wipProcessFile (browser : Browser) (api : Api)
           (parsed : Result (list JsVal * list WipRow))
  : Result (ImportResult WipSummary) :=
  tryCatch
    (data <- parsed ;;
     match snd data with
     | [] => Ok (Failed (L "No data found in XLS file"))
     | _ =>
         let st := filterValidOrders (snd data) in
         match filteredData st with
         | [] => Ok (Failed (noValidOrdersMessage (List.length (skippedRows st))
                                                  (fst data)))
         | _ =>
             out <- generateWIPImportFile api (filteredData st) ;;
             _ <- setItem browser (L "wipImportData") (fst out) ;;
             let records := Z.of_nat (List.length (filteredData st))
                            - Z.of_nat (List.length (snd out)) in
             Ok (Succeeded
                   (wipSuccessMessage records (List.length (skippedRows st))
                                      (List.length (snd out)))
                   (mkWipSummary records (List.length (skippedRows st))
                                 (skippedRows st) (List.length (snd out)) (snd out)))
         end
     end)
    (fun error => Ok (Failed (L "Error processing XLS file: " ++ exnMessage error))).
End WipImporter.

(** The rejection report of the WIP importer. *)
Definition wipRejectionHeaders : list str :=
  [ L "Order ID"; L "Customer Name"; L "Project Name"; L "Due Date"; L "Order Value";
    L "Rejection Reason" ].

(** The text of the error for [(order.field || '').replace(...)] on a value
    without [replace]; the engine prints the callee with the empty text
    literal between double quotes. *)
Definition replaceError (field : str) : Exn :=
  TypeError (L "(order." ++ field ++ L " || " ++ [dquote; dquote]
             ++ L ").replace is not a function").

(** [(order.field || '').replace(...)] between quotes: only strings have
    [replace]. *)
Definition escapeValue (field : str) (v : JsVal) : Result str :=
  match jsOr v (VStr []) with
  | VStr s => Ok (csvQuote s)
  | _ => Throw (replaceError field)
  end.

Definition wipRejectionRow (o : WipRejected) : Result str :=
  name <- escapeValue (L "customerName") (wipCustomerName o) ;;
  project <- escapeValue (L "projectName") (wipProjectName o) ;;
  Ok (join comma [ wipOrderId o; name; project; wipDueDate o; wipOrderValue o;
                   csvQuote (wipReason o) ]).

Fixpoint wipRejectionRows (rejected : list WipRejected) : Result str :=
  match rejected with
  | [] => Ok []
  | o :: rest =>
      row <- wipRejectionRow o ;;
      more <- wipRejectionRows rest ;;
      Ok (row ++ [newline] ++ more)
  end.

Definition wipGenerateRejectionFile (rejected : list WipRejected) : Result str :=
  match rejected with
  | [] => Ok (L "No rejected orders.")
  | _ =>
      rows <- wipRejectionRows rejected ;;
      Ok (join comma wipRejectionHeaders ++ [newline] ++ rows)
  end.

(** ** The customer-list importer ([CustomerListImporter.js]) *)

(** A customer row: [Papa.parse] with [dynamicTyping], so a cell is a string,
    a number, a boolean or [null]. *)
Definition CustomerRow := JsObject JsVal.

(** [(customer.k || d).toString().substring(0, n)] *)
Definition textOr (customer : CustomerRow) (k d : str) (n : nat) : str :=
  substring0 n (jsString (jsOr (prop customer k) (VStr d))).

(** [customer.k ? customer.k.toString().substring(0, n) : ''] *)
Definition textIf (customer : CustomerRow) (k : str) (n : nat) : str :=
  if truthy (prop customer k) then substring0 n (jsString (prop customer k)) else [].

(** [v === 'Y'] *)
Definition isY (v : JsVal) : bool :=
  match v with VStr s => str_eqb s (L "Y") | _ => false end.

Section CustomerImporter.
Context {host : Host}.

(** The object literal returned for one customer; [custCode] is the running
    counter. *)
Definition customerRecord (custCode : Z) (customer : CustomerRow) : RecordInstance :=
  [
    (L "Cust-code", mkField (VNum custCode) 1 8);
    (L "Cust-name", mkField (VStr (textOr customer (L "accountName") [] 40)) 9 40);
    (L "Address-1", mkField (VStr (textOr customer (L "btStreet") [] 40)) 49 40);
    (L "Address-2", mkField (VStr (textOr customer (L "btAddress2") [] 40)) 89 40);
    (L "Address-3", mkField (VStr (textOr customer (L "btAddress3") [] 40)) 129 40);
    (L "City", mkField (VStr (textOr customer (L "btCity") [] 40)) 169 40);
    (L "State", mkField (VStr (textOr customer (L "btState") [] 3)) 209 3);
    (L "Zip", mkField (VStr (textOr customer (L "btZip") [] 10)) 212 10);
    (L "Country", mkField (VStr (textOr customer (L "btCountry") (L "USA") 40)) 222 40);
    (L "Phone", mkField (VStr (textOr customer (L "btTelephone") [] 20)) 262 20);
    (L "FAX", mkField (VStr (textOr customer (L "btFax") [] 20)) 282 20);
    (L "E-Mail-Address", mkField (VStr []) 302 80);
    (L "AR-Tax-Code", mkField (VStr (textOr customer (L "taxItem") [] 10)) 382 10);
    (L "Terms-Code", mkField (VStr (textOr customer (L "btTerms") [] 20)) 392 20);
    (L "Sales-agent-id", mkField (VStr (textOr customer (L "salesmanID") (L "000000000") 8)) 412 8);
    (L "CSR-ID", mkField (VStr (textOr customer (L "csrID") (L "000") 3)) 420 3);
    (L "territory-id", mkField (VStr []) 423 12);
    (L "Cust-ID-Bill-to", mkField (VStr []) 435 8);
    (L "Group-ID", mkField (VStr []) 443 12);
    (L "Priority", mkField (VStr (L "Normal")) 455 10);
    (L "Estimate-Markup-Pct", mkField (VStr []) 465 6);
    (L "Overs-Allowed", mkField (VStr []) 471 5);
    (L "Date-First-Order", mkField (VStr today) 476 10);
    (L "PO-Required", mkField (VStr (if isY (prop customer (L "requirePO")) then L "1" else L "0")) 486 1);
    (L "AR-Stmt", mkField (VStr (L "1")) 487 1);
    (L "AR-Stmt-Dunning-Msg", mkField (VStr (L "0")) 488 1);
    (L "Inter-company", mkField (VStr (L "0")) 489 1);
    (L "System-ID-Inter-company", mkField (VStr []) 490 12);
    (L "Bank", mkField (VStr []) 502 20);
    (L "Bank-acct-num", mkField (VStr []) 522 20);
    (L "Sales-tax-exempt", mkField (VStr (if truthy (prop customer (L "taxExemptionCertificate")) then L "1" else L "0")) 542 20);
    (L "Credit-Limit", mkField (VStr (L "0")) 562 14);
    (L "Shipment-Method-ID", mkField (VStr (textIf customer (L "shipMethod") 8)) 576 8);
    (L "Tax-Number", mkField (jsOr (prop customer (L "taxExemptionCertificate")) (VStr [])) 584 20);
    (L "Addl-Tax-Number", mkField (VStr []) 604 20);
    (L "Industry-Code", mkField (VStr (textIf customer (L "accountType") 8)) 624 8);
    (L "Locale-ID", mkField (VStr (L "en_US")) 632 6);
    (L "Prograph-Customer-Type", mkField (VStr (L "0")) 638 1);
    (L "Prograph-Shipper", mkField (VStr (L "0")) 639 1);
    (L "Prograph-Paper-Owner", mkField (VStr (L "0")) 640 1);
    (L "Prograph-Advertiser", mkField (VStr (L "0")) 641 1);
    (L "Prograph-Advertising-Agency", mkField (VStr (L "0")) 642 1);
    (L "Allow-PSF-Access", mkField (VStr (L "0")) 643 1);
    (L "PSF-Auto-Accept-Orders", mkField (VStr (L "0")) 644 1);
    (L "PrinterSite-Exchange", mkField (VStr (L "0")) 645 1);
    (L "Available-in-PrintStream", mkField (VStr (L "0")) 646 1);
    (L "PS-Fulfillment", mkField (VStr []) 647 8);
    (L "PS-Franchise-Number", mkField (VStr []) 655 30);
    (L "PS-Store-Number", mkField (VStr []) 685 30);
    (L "PS-Credit-Hold", mkField (VStr (L "0")) 715 1);
    (L "AR-Stmt-Finance-Chrg", mkField (VStr (L "0")) 716 1);
    (L "Allow-OPS", mkField (VStr (L "0")) 717 1);
    (L "iQuote-Customer-ID", mkField (VStr []) 718 15);
    (L "ARStatementDelivery", mkField (VStr (L "Printer")) 733 7);
    (L "BatchCloseInvDelivery", mkField (VStr (L "Printer")) 740 7);
    (L "PointOfTitleTransfer", mkField (VStr (L "Origin")) 747 11) ].

Fixpoint mapCustomersFrom (custCode : Z) (rows : list CustomerRow)
  : list RecordInstance :=
  match rows with
  | [] => []
  | customer :: rows' =>
      customerRecord (custCode + 1) customer :: mapCustomersFrom (custCode + 1) rows'
  end.

(** [mapCustomerListToMonarch()] *)
Definition mapCustomerListToMonarch (customerListData : list CustomerRow)
  : list RecordInstance :=
  mapCustomersFrom 0 customerListData.

(** [generateCustomerImportFile()] *)
Definition generateCustomerImportFile (customerListData : list CustomerRow)
  : Result str :=
  encodeCustomers (mapCustomerListToMonarch customerListData).

End CustomerImporter.

(** ** A host for running examples

    Dates and amounts are passed through as they are written. *)
Definition exampleHost : Host := {|
  dateOfString := fun s => s;
  fixed := fun _ s => s;
  wipDate := jsString;
  parseFixed2 := fun s => match s with [] => None | _ => Some s end;
  today := L "01/02/2025"
|}.

(** ** Notions used to state the properties *)

(** The first [ln] characters of [s], padded on the right with spaces to
    [ln] characters: what a field of length [ln] shows of the text [s]. *)
Definition fieldImage (ln : Z) (s : str) : str :=
  padEnd (Z.to_nat ln) (firstn (Z.to_nat ln) s).

(** The text the job and WIP encoders write for a bound value: the string
    form of a truthy value, nothing for a falsy one. *)
Definition jobText (v : JsVal) : str := if truthy v then jsString v else [].

(** The text the customer encoder writes for a bound value other than [null]:
    the string form, nothing for [undefined]. *)
Definition customerText (v : JsVal) : str := if isUndefined v then [] else jsString v.

Definition isNull (v : JsVal) : bool := match v with VNull => true | _ => false end.

Definition hasNull (r : RecordInstance) : bool :=
  existsb (fun e => isNull (value (snd e))) r.

(** Writing the text [text v] of every entry in turn. *)
Definition paint (text : JsVal -> str) (line : list ascii) (e : str * FieldDef)
  : list ascii :=
  place line (pos (snd e) - 1) (len (snd e)) (text (value (snd e))).

Definition isString (v : JsVal) : bool := match v with VStr _ => true | _ => false end.

(** All bound values are strings, as in every record the job mappings build. *)
Definition allStrings (r : RecordInstance) : bool :=
  forallb (fun e => isString (value (snd e))) r.

(** [k] lies outside the declared range of the entry. *)
Definition outsideOf (k : nat) (e : str * FieldDef) : Prop :=
  Z.of_nat k < pos (snd e) - 1 \/ pos (snd e) - 1 + len (snd e) <= Z.of_nat k.

(** The three encoders side by side. *)
Inductive RecordType : Type := CustomerType | JobType | WipType.

Definition encode (t : RecordType) (r : RecordInstance) : Result (list ascii) :=
  match t with
  | CustomerType => encodeCustomerLine r
  | JobType => Ok (encodeJobLine r)
  | WipType => Ok (encodeWipLine r)
  end.

Definition layoutFor (t : RecordType) : Layout :=
  match t with CustomerType => customerLayout | _ => jobLayout end.

(** Length of the blank line an encoder starts from. *)
Definition lineLength (t : RecordType) : nat :=
  match t with
  | CustomerType => List.length customerBlankLine
  | _ => List.length jobBlankLine
  end.

(** The entries an encoder looks at: the WIP encoder passes over [_metadata]. *)
Definition dataFields (t : RecordType) (r : RecordInstance) : RecordInstance :=
  match t with
  | WipType => filter (fun e => negb (str_eqb (fst e) metadataKey)) r
  | _ => r
  end.

(** The text an encoder writes for a bound value. *)
Definition textFor (t : RecordType) : JsVal -> str :=
  match t with CustomerType => customerText | _ => jobText end.

(** The record [r] with the field [name] bound to [v]. *)
Definition withValue (name : str) (v : JsVal) (r : RecordInstance) : RecordInstance :=
  map (fun e => if str_eqb (fst e) name
                then (fst e, mkField v (pos (snd e)) (len (snd e))) else e) r.

(** Records used in the examples. *)
Definition sampleJob : RecordInstance :=
  jobRecord (orderJobId (L "520")) (L "    ") (L "Booklet") (L "ACME01") (L "PO-77")
            (L "03/15/2025") (L "03/10/2025") (L "250") (L "Pat Doe") (L "125.00")
            (L "0.50") (L "Booklet").

Definition sampleCustomerRow : CustomerRow :=
  [ (L "accountName", VStr (L "Acme Co")); (L "btCity", VStr (L "Reno"));
    (L "requirePO", VStr (L "Y")); (L "salesmanID", VNum 35) ].

Definition sampleCustomer : RecordInstance :=
  @customerRecord exampleHost 1 sampleCustomerRow.

(** A whole file of records of one type. *)
Definition encodeFile (t : RecordType) (rs : list RecordInstance) : Result str :=
  match t with
  | CustomerType => encodeCustomers rs
  | JobType => Ok (generateFixedWidthFile rs)
  | WipType => Ok (wipGenerateFixedWidthFile rs)
  end.

(** Number of fields of a layout that contain byte [b] (1-based). *)
Definition coverCount (lay : Layout) (b : Z) : nat :=
  List.length (filter (fun f => (snd (fst f) <=? b) && (b <? snd (fst f) + snd f)) lay).

(** Every byte of [1 .. n] lies in exactly one field. *)
Definition partitions (lay : Layout) (n : nat) : bool :=
  forallb (fun b => (coverCount lay (Z.of_nat b) =? 1)%nat) (seq 1 n).

(** A job record with [qty_ordered] bound to the number zero. *)
Definition zeroQtyJob : RecordInstance := withValue (L "qty_ordered") (VNum 0) sampleJob.

(** Number of leading zero digits. *)
Fixpoint leadingZeros (s : str) : nat :=
  match s with
  | c :: s' => if ascii_dec c "0"%char then S (leadingZeros s') else O
  | [] => O
  end.

(** The job-id rule in the words of the specification, to compare with
    [orderJobId]: the invoice number left-padded with zeros to 8 digits, then
    its leading zeros replaced by spaces. *)
Definition specOrderJobId (invoiceNumber : str) : str :=
  blankLeadingZeros (substring0 8 (padStart 8 "0"%char invoiceNumber)).

(** The WIP filter, row by row. *)
Definition orderIdOf (row : WipRow) : JsVal := findColumn row orderIdColumns.

(** The order-id field, trimmed, matches the 4-7 digit pattern. *)
Definition passesPattern (row : WipRow) : bool :=
  orderIdPattern (trim (jsString (orderIdOf row))).

(** A valid row as [filterValidOrders] leaves it, with [_orderId] and
    [_customerName] set. *)
Definition markValid (row : WipRow) : WipRow :=
  setProp (setProp row (L "_orderId") (orderIdOf row))
          (L "_customerName") (findColumn row customerNameColumns).

(** The skipped-row record of the row at a 0-based index. *)
Definition skipRecord (ir : nat * WipRow) : SkippedRow :=
  let orderId := orderIdOf (snd ir) in
  mkSkipped (fst ir + 2)
            (jsOr orderId (VStr (L "(empty)")))
            (jsOr (findColumn (snd ir) customerNameColumns) (VStr []))
            (if truthy orderId then L "Invalid Order ID format: " ++ jsString orderId
             else L "Missing Order ID").

(** Rows with their 0-based indices, counted from [index]. *)
Definition numbered (index : nat) (rows : list WipRow) : list (nat * WipRow) :=
  combine (seq index (List.length rows)) rows.

(** The order lines of one invoice, in file order. *)
Definition linesOf (invoice : str) (orderData : list CsvRow) : list CsvRow :=
  filter (fun o => str_eqb (invoiceOf o) invoice) orderData.

(** A directory that knows every customer under one identifier. *)
Definition knownApi (cid : JsVal) : Api := fun _ _ => Ok (ArrayOf [ItemWith cid]).

(** A directory that finds nobody. *)
Definition emptyApi : Api := fun _ _ => Ok (ArrayOf []).

(** Two order lines of invoice 00123. *)
Definition sampleOrders : list CsvRow :=
  [ [ (L "Invoice Number", L "00123"); (L "Customer Name", L "Acme Co");
      (L "Line: Product Name", L "Booklet - 6.5in : mailing - Sample");
      (L "Line: Quantity", L "250"); (L "Line: Amount", L "125.00") ];
    [ (L "Invoice Number", L "00123"); (L "Customer Name", L "Acme Co");
      (L "Line: Product Name", L "Shipping"); (L "Line: Amount", L "12.00") ] ].

(** Reading one CSV record back with the standard quoting rules (a quoted
    field ends at a quote that is not doubled; commas separate fields outside
    quotes). *)
Fixpoint csvFieldsGo (inQuotes : bool) (cur : str) (s : str) : list str :=
  match s with
  | [] => [rev cur]
  | c :: s' =>
      if inQuotes then
        if ascii_dec c dquote then
          match s' with
          | c2 :: s'' =>
              if ascii_dec c2 dquote then csvFieldsGo true (dquote :: cur) s''
              else csvFieldsGo false cur s'
          | [] => csvFieldsGo false cur s'
          end
        else csvFieldsGo true (c :: cur) s'
      else if ascii_dec c ","%char then rev cur :: csvFieldsGo false [] s'
      else if ascii_dec c dquote then csvFieldsGo true cur s'
      else csvFieldsGo false (c :: cur) s'
  end.

Definition csvFields (record : str) : list str := csvFieldsGo false [] record.

(** Spreadsheet rows: a numeric order id and a numeric project name, then an
    ordinary row. *)
Definition numericProjectRow : WipRow :=
  [ (L "Order ID", VNum 12345); (L "Customer Name", VStr (L "Acme Co"));
    (L "Project Name", VNum 2024) ].

Definition textProjectRow : WipRow :=
  [ (L "Order ID", VNum 12345); (L "Customer Name", VStr (L "Acme Co"));
    (L "Project Name", VStr (L "2024")) ].

Definition flyerRow : WipRow :=
  [ (L "Order ID", VStr (L "20002")); (L "Customer Name", VStr (L "Beta LLC"));
    (L "Project Name", VStr (L "Flyers")) ].

(** An order line whose amount is written with a thousands separator. *)
Definition commaAmountOrder : CsvRow :=
  [ (L "Invoice Number", L "1001"); (L "Customer Name", L "Unknown Corp");
    (L "Line: Product Name", L "Widget, large"); (L "Line: Amount", L "1,234.56") ].

Definition commaAmountRejection : RejectedOrder :=
  mkRejected (L "1001") (L "Unknown Corp") (L "Widget, large") [] [] (L "1,234.56")
             notFoundReason.

(** A browser whose services succeed. *)
Definition quietBrowser : Browser :=
  {| downloadTextFile := fun _ _ => Ok tt; setItem := fun _ _ => Ok tt |}.

(** The outcomes of the groups of a run, one per non-empty group, in the
    order of the loop. *)
Fixpoint outcomesOf {host : Host} (api : Api) (customerData : list CsvRow) (n : nat)
         (entries : JsObject (list CsvRow)) : Result (list GroupOutcome) :=
  match entries with
  | [] => Ok []
  | (_, []) :: entries' => outcomesOf api customerData n entries'
  | (invoice, firstOrder :: rest) :: entries' =>
      o <- processGroup (api n) customerData invoice firstOrder rest ;;
      os <- outcomesOf api customerData (S n) entries' ;;
      Ok (o :: os)
  end.

(** ** Further notions: the encoders on arbitrary records *)

(** The entry assigns position [k] (0-based) of the line when it writes the
    text [text v]: [k] is one of the indices [pos - 1 + i] of its loop. *)
Definition touches (text : JsVal -> str) (k : nat) (e : str * FieldDef) : bool :=
  (pos (snd e) - 1 <=? Z.of_nat k)
  && (Z.of_nat k <? pos (snd e) - 1 + Z.of_nat (written (len (snd e)) (text (value (snd e))))).

(** The character the entry assigns at position [k]. *)
Definition charAt (text : JsVal -> str) (k : nat) (e : str * FieldDef) : ascii :=
  nth (Z.to_nat (Z.of_nat k - (pos (snd e) - 1))) (text (value (snd e))) space.

(** The character at position [k] after all entries were processed in order:
    the one assigned by the last entry that touches [k], a space if none. *)
Definition lastWritten (text : JsVal -> str) (k : nat) (r : RecordInstance) : ascii :=
  match find (touches text k) (rev r) with
  | Some e => charAt text k e
  | None => space
  end.

(** ** The file viewer ([MonarchFileViewer.js]) *)

(** [this.fieldDefinitions.customer], without the colours. *)
Definition viewerCustomerFields : Layout :=
  [ (L "Cust-code", 1, 8); (L "Cust-name", 9, 40); (L "Address-1", 49, 40);
    (L "Address-2", 89, 40); (L "Address-3", 129, 40); (L "City", 169, 40);
    (L "State", 209, 3); (L "Zip", 212, 10); (L "Country", 222, 40);
    (L "Phone", 262, 20); (L "FAX", 282, 20); (L "E-Mail-Address", 302, 80);
    (L "AR-Tax-Code", 382, 10); (L "Terms-Code", 392, 20);
    (L "Sales-agent-id", 412, 8); (L "CSR-ID", 420, 3); (L "territory-id", 423, 12);
    (L "Cust-ID-Bill-to", 435, 8); (L "Group-ID", 443, 12); (L "Priority", 455, 10);
    (L "Estimate-Markup-Pct", 465, 6); (L "Overs-Allowed", 471, 5);
    (L "Date-First-Order", 476, 10); (L "PO-Required", 486, 1); (L "AR-Stmt", 487, 1);
    (L "AR-Stmt-Dunning-Msg", 488, 1); (L "Inter-company", 489, 1);
    (L "System-ID-Inter-company", 490, 12); (L "Bank", 502, 20);
    (L "Bank-acct-num", 522, 20); (L "Sales-tax-exempt", 542, 20);
    (L "Credit-Limit", 562, 14); (L "Shipment-Method-ID", 576, 8);
    (L "Tax-Number", 584, 20); (L "Addl-Tax-Number", 604, 20);
    (L "Industry-Code", 624, 8); (L "Locale-ID", 632, 6);
    (L "Prograph-Customer-Type", 638, 1); (L "Prograph-Shipper", 639, 1);
    (L "Prograph-Paper-Owner", 640, 1); (L "Prograph-Advertiser", 641, 1);
    (L "Prograph-Advertising-Agency", 642, 1); (L "Allow-PSF-Access", 643, 1);
    (L "PSF-Auto-Accept-Orders", 644, 1); (L "PrinterSite-Exchange", 645, 1);
    (L "Available-in-PrintStream", 646, 1); (L "PS-Fulfillment", 647, 8);
    (L "PS-Franchise-Number", 655, 30); (L "PS-Store-Number", 685, 30);
    (L "PS-Credit-Hold", 715, 1); (L "AR-Stmt-Finance-Chrg", 716, 1);
    (L "Allow-OPS", 717, 1); (L "iQuote-Customer-ID", 718, 15);
    (L "ARStatementDelivery", 733, 7); (L "BatchCloseInvDelivery", 740, 7);
    (L "PointOfTitleTransfer", 747, 11) ].

(** [this.fieldDefinitions.job], without the colours. *)
Definition viewerJobFields : Layout :=
  [ (L "job_id", 1, 8); (L "sub_job_id", 9, 4); (L "job_description", 13, 254);
    (L "job_type", 267, 19); (L "item_id", 286, 15); (L "cust_ordered_by", 301, 8);
    (L "cust_billed_to", 309, 8); (L "sales_class_id", 317, 8);
    (L "po_number", 325, 20); (L "date_promised", 345, 10); (L "ship_date", 355, 10);
    (L "qty_ordered", 365, 11); (L "priority", 376, 10); (L "contact_name", 386, 30);
    (L "expense_code", 416, 24); (L "shop_floor_active", 440, 1);
    (L "form_number", 441, 20); (L "quotation_amount", 461, 15);
    (L "unit_of_measure_id", 476, 4); (L "unit_price", 480, 16);
    (L "job_title", 496, 50) ].

(** [fields.find(f => charPos >= f.pos && charPos < f.pos + f.len)] *)
Definition viewerFieldAt (fields : Layout) (charPos : Z) : option (str * Z * Z) :=
  find (fun f => (snd (fst f) <=? charPos) && (charPos <? snd (fst f) + snd f)) fields.

(** [this.currentFileContent.split('\n')] *)
Definition viewerLines (content : str) : list str := split [newline] content.


(** Order lines accounted for by an outcome: the jobs of a resolved group,
    the lines of the invoice of a rejected one. *)
Definition linesIn (orderData : list CsvRow) (o : GroupOutcome) : nat :=
  match o with
  | GroupJobs _ subs => S (List.length subs)
  | GroupRejected r => List.length (linesOf (invoiceNumber r) orderData)
  end.

(** A job record as the order mapping builds it: the job literal over
    strings that fit their fields. *)
Definition wellFormedJob (j : RecordInstance) : Prop :=
  exists jobId sub desc cust po due ship qty contact quot price title,
    j = jobRecord jobId sub desc cust po due ship qty contact quot price title
    /\ List.length jobId = 8%nat /\ List.length sub = 4%nat
    /\ (List.length desc <= 254)%nat /\ (List.length cust <= 8)%nat
    /\ (List.length po <= 20)%nat /\ (List.length contact <= 30)%nat
    /\ (List.length title <= 50)%nat /\ title = firstn 50 desc.

(** What a group outcome holds, for the invariants of the loop. *)
Definition outcomeOk (o : GroupOutcome) : Prop :=
  match o with
  | GroupJobs main subs =>
      wellFormedJob main /\ fieldValue main (L "sub_job_id") = VStr (L "    ")
      /\ Forall wellFormedJob subs
  | GroupRejected r =>
      reason r = notFoundReason \/ exists message, reason r = apiErrorReason message
  end.

(** ** Notions for the rejection reports *)

(** A text without comma and without double quote. *)
Definition plainField (s : str) : bool :=
  forallb (fun c => negb (Ascii.eqb c ","%char || Ascii.eqb c dquote)) s.

(** A field of a report row: written as it is, or escaped. *)
Inductive Cell : Type := Raw (s : str) | Quoted (s : str).

Definition cellText (c : Cell) : str := match c with Raw s => s | Quoted s => s end.

Definition renderCell (c : Cell) : str :=
  match c with Raw s => s | Quoted s => csvQuote s end.

Definition cellSafe (c : Cell) : bool :=
  match c with Raw s => plainField s | Quoted _ => true end.

(** ** Notions for the WIP path *)

(** The order id of a spreadsheet row as [mapToMonarchFormat] will read it. *)
Definition keptOrderId (row : WipRow) : str := trim (jsString (orderIdOf row)).

(** The key does not match any of the column names, compared as [findColumn]
    compares them. *)
Definition matchesNone (k : str) (names : list str) : bool :=
  forallb (fun name => negb (str_eqb (trim (toLowerCase k)) (trim (toLowerCase name))))
          names.

(** A value [v] for which [(v || '')] is a text: a text, or a falsy value. *)
Definition reportable (v : JsVal) : bool :=
  match v with
  | VStr _ | VUndefined | VNull => true
  | VBool b => negb b
  | VNum n => n =? 0
  end.

(** The text [(v || '')] of a reportable value. *)
Definition reportText (v : JsVal) : str :=
  match v with VStr s => s | _ => [] end.

Definition reportableOrder (o : WipRejected) : bool :=
  reportable (wipCustomerName o) && reportable (wipProjectName o).


(** The distinct keys of a sequence, each at its first occurrence; [seen]
    holds the keys met before. *)
Fixpoint firstSeenFrom (seen : list str) (ks : list str) : list str :=
  match ks with
  | [] => []
  | k :: ks' =>
      if existsb (fun k' => str_eqb k' k) seen then firstSeenFrom seen ks'
      else k :: firstSeenFrom (seen ++ [k]) ks'
  end.

Definition firstSeen (ks : list str) : list str := firstSeenFrom [] ks.

(** Ascending numeric order of array-index keys. *)
Definition indexLe (a b : str) : Prop := indexValue a <= indexValue b.

(** Order lines of the invoices 10, 9, A and 9 again. *)
Definition unorderedInvoices : list CsvRow :=
  [ [ (L "Invoice Number", L "10") ]; [ (L "Invoice Number", L "9") ];
    [ (L "Invoice Number", L "A") ]; [ (L "Invoice Number", L "9") ] ].

(** ** The earlier revision of the order mapping kept in [MonarchImporter.js] *)

(** Its job id: the invoice number, or [JOB] and the count of jobs so far plus
    one when the invoice number is missing, padded on the left with zeros to 8
    characters, cut to 8, then leading zeros turned into spaces. *)
Definition legacyJobId (invoiceNumber : str) (jobsSoFar : nat) : str :=
  let source := match invoiceNumber with
                | [] => L "JOB" ++ decimal (Z.of_nat jobsSoFar + 1)
                | _ => invoiceNumber
                end in
  blankLeadingZeros (substring0 8 (padStart 8 "0"%char source)).

(** Its line number: [(index + 1).toString().padStart(4, ' ')]. *)
Definition legacySubJobId (index : nat) : str :=
  padStart 4 space (decimal (Z.of_nat index + 1)).

(** ** Defaults for customer rows ([initializeCustomerDefaults]) *)

(** One assignment [defaults[k] = defaults[k] || d], or
    [defaults[k] = defaults[k] || defaults[k2] || d] when a fallback property
    is named. *)
Record DefaultRule : Type := mkRule {
  ruleKey : str;
  ruleFallback : option str;
  ruleDefault : str
}.

Definition ruleValue (defaults : CsvRow) (r : DefaultRule) : str :=
  cellOr defaults (ruleKey r)
         (match ruleFallback r with
          | Some k2 => cellOr defaults k2 (ruleDefault r)
          | None => ruleDefault r
          end).

Definition applyRule (defaults : CsvRow) (r : DefaultRule) : CsvRow :=
  setProp defaults (ruleKey r) (ruleValue defaults r).

(** The assignments of the function body, in order. *)
Definition laterRules : list DefaultRule :=
  [ mkRule (L "Customer Name") None (L "Unknown Customer");
    mkRule (L "Bill to Address-Line One") None [];
    mkRule (L "Bill to Address-Line Two") None [];
    mkRule (L "Bill to City") None [];
    mkRule (L "Bill to State") None [];
    mkRule (L "Bill to Zip") None [];
    mkRule (L "Bill to Country") None (L "USA");
    mkRule (L "Bill to Contact First Name") None [];
    mkRule (L "Bill to Contact Last Name") None [];
    mkRule (L "Telephone 1") None [];
    mkRule (L "Fax Number") None [];
    mkRule (L "Customer E-mail") None [];
    mkRule (L "Sales Representative ID") None (L "000000000");
    mkRule (L "CSR ID") None (L "000");
    mkRule (L "Terms Type") None [];
    mkRule (L "Customer Type") None [];
    mkRule (L "Price Code") None [];
    mkRule (L "Credit Limit") None (L "0");
    mkRule (L "Ship Via") None [];
    mkRule (L "Bill to Sales Tax ID") None [];
    mkRule (L "Charge Finance Charges") None (L "N") ].

Definition customerIdRule : DefaultRule := mkRule (L "Customer ID") None [].

Definition misAccountRule : DefaultRule :=
  mkRule (L "MIS Account ID") (Some (L "Customer ID")) [].

Definition defaultRules : list DefaultRule :=
  customerIdRule :: misAccountRule :: laterRules.

(** [initializeCustomerDefaults(customer)]; the copy [{ ...customer }] has the
    properties of [customer]. *)
Definition initializeCustomerDefaults (customer : CsvRow) : CsvRow :=
  fold_left applyRule defaultRules customer.

(** A customer row without [Customer ID] that names a contact. *)
Definition anonymousCustomer : CsvRow :=
  [ (L "Bill to Contact First Name", L "Pat"); (L "Bill to Contact Last Name", L "Doe") ].

(** The test of [customerData.find(c => c['Customer ID'] === name)]. *)
Definition idMatches (name : str) (c : CsvRow) : bool :=
  match getProp c (L "Customer ID") with
  | Some s => str_eqb s name
  | None => false
  end.

(** ** Reading the sheet ([parseXLSFile]) *)

(** [header ? header.toString().trim() : `Column${index}`] *)
Definition headerName (index : nat) (header : JsVal) : str :=
  if truthy header then trim (jsString header)
  else L "Column" ++ decimal (Z.of_nat index).

(** [row[index] !== undefined ? row[index] : ''] *)
Definition cellAt (cells : list JsVal) (index : nat) : JsVal :=
  match nth_error cells index with
  | Some VUndefined | None => VStr []
  | Some v => v
  end.

Definition protoName : str := L "__proto__".

(** [obj[name] = cell]: under the name [__proto__] the assignment reaches the
    prototype's setter and creates no property. *)
Definition assignCell (obj : WipRow) (name : str) (cell : JsVal) : WipRow :=
  if str_eqb name protoName then obj else setProp obj name cell.

(** [headers.forEach((header, index) => { obj[...] = ... })], from column
    [index] on. *)
Fixpoint rowObjectFrom (index : nat) (headers cells : list JsVal) (obj : WipRow)
  : WipRow :=
  match headers with
  | [] => obj
  | header :: headers' =>
      rowObjectFrom (S index) headers' cells
                    (assignCell obj (headerName index header) (cellAt cells index))
  end.

Definition rowObject (headers cells : list JsVal) : WipRow :=
  rowObjectFrom 0 headers cells [].

(** [this.wipData] from the sheet's array of arrays. *)
Definition sheetRows (jsonData : list (list JsVal)) : list WipRow :=
  match jsonData with
  | [] => []
  | headers :: rows => map (rowObject headers) rows
  end.

(** The last column, counted from [index], whose header name is [k]. *)
Fixpoint lastColumn (k : str) (index : nat) (headers : list JsVal) : option nat :=
  match headers with
  | [] => None
  | header :: headers' =>
      match lastColumn k (S index) headers' with
      | Some j => Some j
      | None => if str_eqb (headerName index header) k then Some index else None
      end
  end.

(** The header names of the columns, counted from [index]. *)
Fixpoint headerNames (index : nat) (headers : list JsVal) : list str :=
  match headers with
  | [] => []
  | header :: headers' => headerName index header :: headerNames (S index) headers'
  end.

(** The names under which a row gets properties: the distinct header names
    other than [__proto__], each at its first column. *)
Definition propertyNames (headers : list JsVal) : list str :=
  firstSeen (filter (fun k => negb (str_eqb k protoName)) (headerNames 0 headers)).

(** A sheet with a repeated header, a numeric header, a blank header and a
    short row. *)
Definition repeatedHeaderSheet : list (list JsVal) :=
  [ [ VStr (L "Order ID"); VStr (L " Order ID "); VStr []; VNum 2024;
      VStr (L "Customer Name") ];
    [ VNum 12345; VStr (L "99999") ] ].

(** ** Notions for the result of the order mapping *)

(** The main jobs, the sub-jobs and the rejected orders that a sequence of
    group outcomes holds, in order. *)
Definition mainsOf (os : list GroupOutcome) : list RecordInstance :=
  flat_map (fun o => match o with GroupJobs main _ => [main] | GroupRejected _ => [] end) os.

Definition subsOf (os : list GroupOutcome) : list RecordInstance :=
  flat_map (fun o => match o with GroupJobs _ subs => subs | GroupRejected _ => [] end) os.

Definition rejectedOf (os : list GroupOutcome) : list RejectedOrder :=
  flat_map (fun o => match o with GroupJobs _ _ => [] | GroupRejected r => [r] end) os.

(** What the claim on invoice groups asks of one group and its outcome:
    the group is the invoice's lines in file order; if the lookup finds a
    first result, the outcome is one main job built from the first line, with
    a blank sub-job id, and one sub-job per later line, the [k]-th built from
    line [k + 1] and carrying what [subJobId k] gives, all with the job id of
    the invoice and the customer id found; otherwise it is one rejected
    order. *)
Definition groupMapped (search : str -> ApiOutcome) (orderData : list CsvRow)
           (invoice : str) (orders : list CsvRow) (o : option GroupOutcome) : Prop :=
  orders = linesOf invoice orderData /\ orders <> []
  /\ match lookupCustomer (search (cellOr (hd [] orders) (L "Customer Name") [])) with
     | Found cid =>
         nullish cid = false
         /\ exists main subs,
              o = Some (GroupJobs main subs)
              /\ fieldValue main (L "sub_job_id") = VStr (L "    ")
              /\ fieldValue main (L "job_id") = VStr (orderJobId invoice)
              /\ fieldValue main (L "cust_ordered_by") = VStr (substring0 8 (jsString cid))
              /\ fieldValue main (L "job_description")
                 = VStr (substring0 254
                           (cleanProductDescription
                              (cellOr (hd [] orders) (L "Line: Product Name") [])))
              /\ List.length subs = (List.length orders - 1)%nat
              /\ forall k, (1 <= k < List.length orders)%nat ->
                   fieldValue (nth (k - 1) subs []) (L "sub_job_id") = VStr (subJobId k)
                   /\ fieldValue (nth (k - 1) subs []) (L "job_id")
                      = VStr (orderJobId invoice)
                   /\ fieldValue (nth (k - 1) subs []) (L "cust_ordered_by")
                      = VStr (substring0 8 (jsString cid))
                   /\ fieldValue (nth (k - 1) subs []) (L "job_description")
                      = VStr (substring0 254
                                (cleanProductDescription
                                   (cellOr (nth k orders []) (L "Line: Product Name") [])))
     | Rejected why =>
         exists r, o = Some (GroupRejected r)
                   /\ reason r = why /\ invoiceNumber r = invoice
     end.

(** An order line whose invoice number is the word constructor. *)
Definition constructorOrder : CsvRow :=
  [ (L "Invoice Number", L "constructor"); (L "Customer Name", L "Acme Co") ].

(** What the outcome of a group shows of the invoice it was made from: the
    job id of the main job, or the invoice number of the rejected order. *)
Definition outcomeOf (invoice : str) (o : GroupOutcome) : Prop :=
  match o with
  | GroupJobs main _ => fieldValue main (L "job_id") = VStr (orderJobId invoice)
  | GroupRejected r => invoiceNumber r = invoice
  end.

(* ================================================================== *)
(** * Part II: properties *)

(** ** Strings *)

Lemma str_eqb_eq (a b : str) : str_eqb a b = true <-> a = b.
Proof.
  unfold str_eqb. destruct (list_eq_dec ascii_dec a b); split; congruence.
Qed.

Lemma str_eqb_refl (a : str) : str_eqb a a = true.
Proof. now apply str_eqb_eq. Qed.


Lemma truthy_not_nullish (v : JsVal) : truthy v = true -> nullish v = false.
Proof. destruct v; simpl; congruence. Qed.

Lemma toString_truthy (v : JsVal) : truthy v = true -> toString v = Some (jsString v).
Proof. intro H. unfold toString. now rewrite (truthy_not_nullish v H). Qed.

Lemma jsString_VStr (s : str) : jsString (VStr s) = s.
Proof. reflexivity. Qed.

Lemma length_spaces (n : nat) : List.length (spaces n) = n.
Proof. apply repeat_length. Qed.

Lemma length_padEnd (n : nat) (s : str) :
  List.length (padEnd n s) = Nat.max n (List.length s).
Proof. unfold padEnd. rewrite length_app, length_spaces. lia. Qed.

(** ** The character buffer *)

Lemma length_upd (n : nat) (c : ascii) (l : list ascii) :
  List.length (upd n c l) = List.length l.
Proof.
  revert n; induction l as [|x l IH]; intros [|n]; simpl; auto.
Qed.

Lemma nth_upd (n k : nat) (c d : ascii) (l : list ascii) :
  (n < List.length l)%nat ->
  nth k (upd n c l) d = if (k =? n)%nat then c else nth k l d.
Proof.
  revert n k; induction l as [|x l IH]; intros n k Hn; simpl in Hn; [lia|].
  destruct n as [|n], k as [|k]; simpl; auto.
  apply IH. lia.
Qed.

Lemma length_setChar (line : list ascii) (i : Z) (c : ascii) :
  List.length (setChar line i c) = List.length line.
Proof.
  unfold setChar. destruct (_ && _); auto using length_upd.
Qed.

Lemma nth_setChar (line : list ascii) (i : Z) (c d : ascii) (k : nat) :
  nth k (setChar line i c) d =
  if (Z.of_nat k =? i) && (k <? List.length line)%nat then c else nth k line d.
Proof.
  unfold setChar.
  destruct ((0 <=? i) && (i <? Z.of_nat (List.length line))) eqn:E.
  - apply andb_true_iff in E as [E1 E2].
    apply Z.leb_le in E1. apply Z.ltb_lt in E2.
    rewrite nth_upd by lia.
    destruct (Nat.eqb_spec k (Z.to_nat i)) as [->|Hne].
    + rewrite Z2Nat.id, Z.eqb_refl by lia.
      replace (Z.to_nat i <? List.length line)%nat with true; auto.
      symmetry. apply Nat.ltb_lt. lia.
    + replace (Z.of_nat k =? i) with false; auto.
      symmetry. apply Z.eqb_neq. lia.
  - destruct (Z.eqb_spec (Z.of_nat k) i) as [<-|]; simpl; auto.
    destruct (Nat.ltb_spec k (List.length line)); auto.
    exfalso. apply andb_false_iff in E as [E|E].
    + apply Z.leb_gt in E. lia.
    + apply Z.ltb_ge in E. lia.
Qed.

Lemma length_placeFrom (cs : str) (line : list ascii) (p : Z) :
  List.length (placeFrom line p cs) = List.length line.
Proof.
  revert line p; induction cs as [|c cs IH]; intros; simpl; auto.
  now rewrite IH, length_setChar.
Qed.

(** Character [k] after the loop: the loop's character when [k] is one of
    the positions it assigns, the old character otherwise. *)
Lemma nth_placeFrom (cs : str) (line : list ascii) (p : Z) (d : ascii) (k : nat) :
  nth k (placeFrom line p cs) d =
  if (p <=? Z.of_nat k) && (Z.of_nat k <? p + Z.of_nat (List.length cs))
     && (k <? List.length line)%nat
  then nth (Z.to_nat (Z.of_nat k - p)) cs d
  else nth k line d.
Proof.
  revert line p; induction cs as [|c cs IH]; intros line p.
  - simpl. replace (p + 0) with p by lia.
    destruct (Z.leb_spec p (Z.of_nat k)), (Z.ltb_spec (Z.of_nat k) p); simpl; auto; lia.
  - cbn [placeFrom]. rewrite IH, length_setChar, nth_setChar.
    cbn [List.length]. rewrite Nat2Z.inj_succ.
    destruct (Nat.ltb_spec k (List.length line)) as [Hk|Hk];
      rewrite ?andb_false_r, ?andb_true_r; auto.
    destruct (Z.eqb_spec (Z.of_nat k) p) as [Hkp|Hkp].
    + replace (p + 1 <=? Z.of_nat k) with false by (symmetry; apply Z.leb_gt; lia).
      replace (p <=? Z.of_nat k) with true by (symmetry; apply Z.leb_le; lia).
      replace (Z.of_nat k <? p + Z.succ (Z.of_nat (List.length cs))) with true
        by (symmetry; apply Z.ltb_lt; lia).
      simpl. replace (Z.of_nat k - p) with 0 by lia. reflexivity.
    + destruct (Z.leb_spec (p + 1) (Z.of_nat k)) as [H1|H1].
      * replace (p <=? Z.of_nat k) with true by (symmetry; apply Z.leb_le; lia).
        replace (Z.of_nat k <? p + Z.succ (Z.of_nat (List.length cs)))
          with (Z.of_nat k <? p + 1 + Z.of_nat (List.length cs))
          by (f_equal; lia).
        simpl. destruct (Z.of_nat k <? p + 1 + Z.of_nat (List.length cs)); auto.
        replace (Z.to_nat (Z.of_nat k - p)) with (S (Z.to_nat (Z.of_nat k - (p + 1))))
          by lia.
        reflexivity.
      * replace (p <=? Z.of_nat k) with false by (symmetry; apply Z.leb_gt; lia).
        reflexivity.
Qed.

Lemma length_place (line : list ascii) (p ln : Z) (s : str) :
  List.length (place line p ln s) = List.length line.
Proof. apply length_placeFrom. Qed.

Lemma written_le (ln : Z) (s : str) : (written ln s <= List.length s)%nat.
Proof. unfold written. lia. Qed.

Lemma nth_place (line : list ascii) (p ln : Z) (s : str) (d : ascii) (k : nat) :
  nth k (place line p ln s) d =
  if (p <=? Z.of_nat k) && (Z.of_nat k <? p + Z.of_nat (written ln s))
     && (k <? List.length line)%nat
  then nth (Z.to_nat (Z.of_nat k - p)) s d
  else nth k line d.
Proof.
  unfold place. rewrite nth_placeFrom, length_firstn.
  rewrite (Nat.min_l _ _ (written_le ln s)).
  destruct ((p <=? Z.of_nat k) && (Z.of_nat k <? p + Z.of_nat (written ln s))
            && (k <? List.length line)%nat) eqn:E; auto.
  apply andb_true_iff in E as [E _]. apply andb_true_iff in E as [E1 E2].
  apply Z.leb_le in E1. apply Z.ltb_lt in E2.
  rewrite nth_firstn.
  replace (Z.to_nat (Z.of_nat k - p) <? written ln s)%nat with true; auto.
  symmetry. apply Nat.ltb_lt. lia.
Qed.

(** A position outside the declared range of a field is not touched. *)
Lemma nth_place_outside (line : list ascii) (p ln : Z) (s : str) (d : ascii) (k : nat) :
  Z.of_nat k < p \/ p + ln <= Z.of_nat k ->
  nth k (place line p ln s) d = nth k line d.
Proof.
  intro H. rewrite nth_place.
  destruct (Z.leb_spec p (Z.of_nat k)); simpl; auto.
  destruct (Z.ltb_spec (Z.of_nat k) (p + Z.of_nat (written ln s))); simpl; auto.
  unfold written in *. lia.
Qed.

(** ** Painting fields into a blank line *)

Lemma place_nil (line : list ascii) (p ln : Z) : place line p ln [] = line.
Proof. unfold place. now rewrite firstn_nil. Qed.

Lemma jobStep_paint (line : list ascii) (e : str * FieldDef) :
  jobStep line e = paint jobText line e.
Proof.
  unfold jobStep, paint, jobText.
  destruct (truthy (value (snd e))); auto.
  now rewrite place_nil.
Qed.

Lemma fold_jobStep_paint (r : RecordInstance) (line : list ascii) :
  fold_left jobStep r line = fold_left (paint jobText) r line.
Proof.
  revert line; induction r as [|e r IH]; intros; simpl; auto.
  now rewrite jobStep_paint, IH.
Qed.

Lemma length_paint text (line : list ascii) (e : str * FieldDef) :
  List.length (paint text line e) = List.length line.
Proof. apply length_place. Qed.

Lemma length_fold_paint text (r : RecordInstance) (line : list ascii) :
  List.length (fold_left (paint text) r line) = List.length line.
Proof.
  revert line; induction r as [|e r IH]; intros; simpl; auto.
  now rewrite IH, length_paint.
Qed.

Lemma nth_fold_paint_outside text (r : RecordInstance) (line : list ascii) (k : nat) :
  Forall (outsideOf k) r ->
  nth k (fold_left (paint text) r line) space = nth k line space.
Proof.
  revert line; induction r as [|e r IH]; intros line H; simpl; auto.
  inversion H; subst. rewrite IH by assumption.
  now apply nth_place_outside.
Qed.

Lemma pairwiseDisjoint_split (l1 l2 : Layout) (f : str * Z * Z) :
  pairwiseDisjoint (l1 ++ f :: l2) = true ->
  Forall (fun g => noOverlap g f = true) l1 /\ Forall (fun g => noOverlap f g = true) l2.
Proof.
  induction l1 as [|g l1 IH]; simpl; intro H.
  - apply andb_true_iff in H as [H _]. split; [constructor|].
    apply Forall_forall. now apply forallb_forall.
  - apply andb_true_iff in H as [Hg H]. destruct (IH H) as [H1 H2].
    split; auto. constructor; auto.
    rewrite forallb_forall in Hg. apply Hg. apply in_or_app. right. now left.
Qed.

Lemma noOverlap_outside (k : nat) (e g : str * FieldDef) :
  pos (snd e) - 1 <= Z.of_nat k < pos (snd e) - 1 + len (snd e) ->
  noOverlap (fst g, pos (snd g), len (snd g)) (fst e, pos (snd e), len (snd e)) = true
  \/ noOverlap (fst e, pos (snd e), len (snd e)) (fst g, pos (snd g), len (snd g)) = true ->
  outsideOf k g.
Proof.
  unfold noOverlap, outsideOf; simpl. intros Hk [H|H];
    apply orb_true_iff in H as [H|H]; apply Z.leb_le in H; lia.
Qed.

(** The character at a position of a field's range, in a record whose
    fields do not overlap. *)
Lemma nth_fold_paint_inside text (r : RecordInstance) (n : nat) (e : str * FieldDef)
      (k : nat) :
  pairwiseDisjoint (layoutOf r) = true ->
  In e r ->
  pos (snd e) - 1 <= Z.of_nat k < pos (snd e) - 1 + len (snd e) ->
  (k < n)%nat ->
  nth k (fold_left (paint text) r (spaces n)) space =
  nth (Z.to_nat (Z.of_nat k - (pos (snd e) - 1)))
      (fieldImage (len (snd e)) (text (value (snd e)))) space.
Proof.
  intros Hd Hin Hk Hn.
  destruct (in_split _ _ Hin) as (r1 & r2 & ->).
  unfold layoutOf in Hd. rewrite map_app in Hd. cbn [map] in Hd.
  apply pairwiseDisjoint_split in Hd as [H1 H2].
  rewrite fold_left_app. cbn [fold_left].
  rewrite nth_fold_paint_outside.
  2:{ apply Forall_forall. intros g Hg. apply (noOverlap_outside k e g Hk).
      right. rewrite Forall_forall in H2. apply (H2 (fst g, pos (snd g), len (snd g))).
      now apply (in_map (fun e0 => (fst e0, pos (snd e0), len (snd e0)))). }
  unfold paint at 1. rewrite nth_place, length_fold_paint, length_spaces.
  rewrite nth_fold_paint_outside.
  2:{ apply Forall_forall. intros g Hg. apply (noOverlap_outside k e g Hk).
      left. rewrite Forall_forall in H1. apply (H1 (fst g, pos (snd g), len (snd g))).
      now apply (in_map (fun e0 => (fst e0, pos (snd e0), len (snd e0)))). }
  set (p := pos (snd e) - 1) in *. set (ln := len (snd e)) in *.
  set (s := text (value (snd e))).
  replace (p <=? Z.of_nat k) with true by (symmetry; apply Z.leb_le; lia).
  replace (k <? n)%nat with true by (symmetry; apply Nat.ltb_lt; lia).
  rewrite andb_true_r, andb_true_l.
  unfold fieldImage, padEnd.
  assert (Hw : Z.of_nat (written ln s) = Z.min ln (Z.of_nat (List.length s)))
    by (unfold written; lia).
  destruct (Z.ltb_spec (Z.of_nat k) (p + Z.of_nat (written ln s))) as [Hlt|Hge].
  - rewrite app_nth1 by (rewrite length_firstn; lia).
    rewrite nth_firstn.
    replace (Z.to_nat (Z.of_nat k - p) <? Z.to_nat ln)%nat with true; auto.
    symmetry. apply Nat.ltb_lt. lia.
  - rewrite app_nth2 by (rewrite length_firstn; lia).
    unfold spaces. now rewrite !nth_repeat.
Qed.

Lemma length_fieldImage (ln : Z) (s : str) :
  List.length (fieldImage ln s) = Z.to_nat ln.
Proof.
  unfold fieldImage. rewrite length_padEnd, length_firstn. lia.
Qed.

(** The byte range of a field in the painted line. *)
Lemma byteRange_fold_paint text (r : RecordInstance) (n : nat) (e : str * FieldDef) :
  pairwiseDisjoint (layoutOf r) = true ->
  fitsIn (Z.of_nat n) (layoutOf r) = true ->
  In e r ->
  byteRange (fold_left (paint text) r (spaces n)) (pos (snd e)) (len (snd e))
  = fieldImage (len (snd e)) (text (value (snd e))).
Proof.
  intros Hd Hf Hin.
  assert (Hb : 1 <= pos (snd e) /\ 0 <= len (snd e)
               /\ pos (snd e) - 1 + len (snd e) <= Z.of_nat n).
  { unfold fitsIn in Hf. rewrite forallb_forall in Hf.
    specialize (Hf (fst e, pos (snd e), len (snd e))
                   (in_map (fun e0 => (fst e0, pos (snd e0), len (snd e0))) _ _ Hin)).
    simpl in Hf. apply andb_true_iff in Hf as [Hf H3].
    apply andb_true_iff in Hf as [H1 H2].
    apply Z.leb_le in H1, H2, H3. lia. }
  unfold byteRange.
  apply (nth_ext _ _ space space).
  - rewrite length_firstn, length_skipn, length_fold_paint, length_spaces,
      length_fieldImage. lia.
  - intros i Hi.
    rewrite length_firstn, length_skipn, length_fold_paint, length_spaces in Hi.
    rewrite nth_firstn.
    replace (i <? Z.to_nat (len (snd e)))%nat with true
      by (symmetry; apply Nat.ltb_lt; lia).
    rewrite nth_skipn.
    rewrite (nth_fold_paint_inside text r n e) by (auto; lia).
    f_equal. lia.
Qed.

(** ** The three encoders *)

Lemma jobBlankLine_spaces : jobBlankLine = spaces 560.
Proof. reflexivity. Qed.

Lemma customerBlankLine_spaces : customerBlankLine = spaces 758.
Proof. reflexivity. Qed.

Lemma encodeJobLine_paint (r : RecordInstance) :
  encodeJobLine r = fold_left (paint jobText) r (spaces 560).
Proof. unfold encodeJobLine. now rewrite fold_jobStep_paint, jobBlankLine_spaces. Qed.

Lemma fold_wipStep (r : RecordInstance) (line : list ascii) :
  fold_left wipStep r line = fold_left jobStep (dataFields WipType r) line.
Proof.
  revert line; induction r as [|e r IH]; intros; simpl; auto.
  unfold wipStep at 2. destruct (str_eqb (fst e) metadataKey); simpl; auto.
Qed.

Lemma encodeWipLine_job (r : RecordInstance) :
  encodeWipLine r = encodeJobLine (dataFields WipType r).
Proof. apply fold_wipStep. Qed.

Lemma customerLoop_paint (r : RecordInstance) (line : list ascii) :
  customerLoop line r =
  if hasNull r then Throw nullError
  else Ok (fold_left (paint customerText) r line).
Proof.
  revert line; induction r as [|e r IH]; intros line; auto.
  cbn [customerLoop fold_left]. unfold hasNull in *. cbn [existsb].
  unfold customerStep, paint, customerText.
  destruct (value (snd e)) eqn:E; cbn [isUndefined isNull toString nullish bind orb];
    rewrite ?place_nil; auto.
Qed.

Lemma encodeCustomerLine_paint (r : RecordInstance) :
  encodeCustomerLine r =
  if hasNull r then Throw nullError
  else Ok (fold_left (paint customerText) r (spaces 758)).
Proof. apply customerLoop_paint. Qed.

(** Every encoder is the painting of its data fields into a blank line,
    unless the customer encoder meets a [null]. *)
Lemma encode_paint (t : RecordType) (r : RecordInstance) :
  encode t r =
  if match t with CustomerType => hasNull r | _ => false end
  then Throw nullError
  else Ok (fold_left (paint (textFor t)) (dataFields t r) (spaces (lineLength t))).
Proof.
  destruct t; simpl.
  - apply encodeCustomerLine_paint.
  - now rewrite encodeJobLine_paint.
  - now rewrite encodeWipLine_job, encodeJobLine_paint.
Qed.

Lemma layoutFor_disjoint (t : RecordType) : pairwiseDisjoint (layoutFor t) = true.
Proof. destruct t; vm_compute; reflexivity. Qed.

Lemma layoutFor_fits (t : RecordType) :
  fitsIn (Z.of_nat (lineLength t)) (layoutFor t) = true.
Proof. destruct t; vm_compute; reflexivity. Qed.

(** The byte range of a data field in an encoded line. *)
Lemma encode_byteRange (t : RecordType) (r : RecordInstance) (line : list ascii)
      (e : str * FieldDef) :
  layoutOf (dataFields t r) = layoutFor t ->
  encode t r = Ok line ->
  In e (dataFields t r) ->
  byteRange line (pos (snd e)) (len (snd e))
  = fieldImage (len (snd e)) (textFor t (value (snd e))).
Proof.
  intros Hl He Hin. rewrite encode_paint in He.
  destruct (match t with CustomerType => hasNull r | _ => false end); [discriminate|].
  injection He as <-.
  apply byteRange_fold_paint; auto; rewrite Hl.
  - apply layoutFor_disjoint.
  - apply layoutFor_fits.
Qed.

Lemma length_encode (t : RecordType) (r : RecordInstance) (line : list ascii) :
  encode t r = Ok line -> List.length line = lineLength t.
Proof.
  rewrite encode_paint.
  destruct (match t with CustomerType => hasNull r | _ => false end); [discriminate|].
  intros [= <-]. now rewrite length_fold_paint, length_spaces.
Qed.

Lemma length_generateFixedWidthFile (jobs : list RecordInstance) :
  List.length (generateFixedWidthFile jobs) = (561 * List.length jobs)%nat.
Proof.
  unfold generateFixedWidthFile.
  induction jobs as [|j jobs IH]; auto.
  cbn [map List.concat List.length]. rewrite !length_app, IH.
  rewrite (length_encode JobType j _ eq_refl).
  change (lineLength JobType) with 560%nat. cbn [List.length]. lia.
Qed.

Lemma fieldImage_nil (ln : Z) : fieldImage ln [] = spaces (Z.to_nat ln).
Proof. unfold fieldImage, padEnd. rewrite firstn_nil. simpl. f_equal. lia. Qed.

(** ** C1: length of an encoded line *)

(** C1, corrected.  The claim gives 561 characters for a job/WIP line; the
    encoders start from [new Array(560 + 1).join(' ')], which is 560 spaces.
    What holds: whatever the bound values, the customer encoder's line has 758
    characters and the job and WIP encoders' lines have 560 characters (561 in
    the file, with the line feed that ends each line); the job and WIP encoders
    always produce a line, the customer encoder does unless a value is [null]. *)
Theorem C1_encoded_line_length (t : RecordType) (r : RecordInstance) :
  lineLength t = match t with CustomerType => 758%nat | _ => 560%nat end
  /\ match encode t r with
     | Ok line => List.length line = lineLength t
     | Throw _ => t = CustomerType /\ hasNull r = true
     end
  /\ List.length (generateFixedWidthFile [r]) = 561%nat.
Proof.
  split; [destruct t; reflexivity|]. split.
  - destruct (encode t r) as [line|x] eqn:E.
    + now apply (length_encode t r).
    + rewrite encode_paint in E. destruct t; try discriminate.
      destruct (hasNull r); [auto|discriminate].
  - now rewrite length_generateFixedWidthFile.
Qed.

(** C1 as stated fails: a job line has 560 characters, not 561. *)
Lemma C1_counterexample : List.length (encodeJobLine sampleJob) <> 561%nat.
Proof. vm_compute. discriminate. Qed.

(** ** C2: the byte range of a field *)

Lemma textFor_string (t : RecordType) (s : str) : textFor t (VStr s) = s.
Proof. destruct t, s; reflexivity. Qed.

Lemma encodeCustomers_two (r : RecordInstance) (line : list ascii) :
  encodeCustomerLine r = Ok line ->
  encodeCustomers [r; r] = Ok ((line ++ [newline]) ++ (line ++ [newline])).
Proof.
  intro H. cbn [encodeCustomers]. rewrite H. cbn [bind].
  now rewrite <- !app_assoc, app_nil_r.
Qed.

(** C2, corrected.  The claim holds for the text the encoder writes, which is
    not always the bound value: the job and WIP encoders write nothing for a
    falsy value (so the number zero leaves spaces, not its digit), and the
    customer encoder writes nothing for [undefined].  What holds: in every
    encoded line of a record over its layout, the byte range
    [pos-1, pos-1+len) of each field holds the first [len] characters of the
    text written for its value, padded on the right with spaces; for a bound
    string that text is the string itself; and encoding the record twice
    gives the same line twice. *)
Theorem C2_field_byte_range (t : RecordType) (r : RecordInstance)
        (line : list ascii) (e : str * FieldDef) :
  layoutOf (dataFields t r) = layoutFor t ->
  encode t r = Ok line ->
  In e (dataFields t r) ->
  byteRange line (pos (snd e)) (len (snd e))
  = fieldImage (len (snd e)) (textFor t (value (snd e)))
  /\ (forall s, value (snd e) = VStr s ->
                byteRange line (pos (snd e)) (len (snd e)) = fieldImage (len (snd e)) s)
  /\ encodeFile t [r; r] = Ok ((line ++ [newline]) ++ (line ++ [newline])).
Proof.
  intros Hl He Hin.
  pose proof (encode_byteRange t r line e Hl He Hin) as Hr.
  split; [exact Hr|]. split.
  - intros s Hs. rewrite Hr, Hs. now rewrite textFor_string.
  - destruct t; simpl in He |- *.
    + now apply encodeCustomers_two.
    + injection He as <-. unfold generateFixedWidthFile. simpl.
      now rewrite app_nil_r.
    + injection He as <-. unfold wipGenerateFixedWidthFile. simpl.
      now rewrite app_nil_r.
Qed.

Lemma C2_witness :
  layoutOf (dataFields JobType sampleJob) = layoutFor JobType
  /\ byteRange (encodeJobLine sampleJob) 1 8 = fieldImage 8 (L "520     ").
Proof.
  split; [reflexivity|].
  refine (proj1 (C2_field_byte_range JobType sampleJob (encodeJobLine sampleJob)
                   (L "job_id", mkField (VStr (L "520     ")) 1 8) _ _ _)).
  - reflexivity.
  - reflexivity.
  - left. reflexivity.
Defined.

(** C2 as stated fails: in the job encoder a field bound to the number zero
    shows spaces, not the first characters of its value. *)
Lemma C2_counterexample :
  layoutOf zeroQtyJob = jobLayout
  /\ In (L "qty_ordered", mkField (VNum 0) 365 11) zeroQtyJob
  /\ byteRange (encodeJobLine zeroQtyJob) 365 11 <> fieldImage 11 (jsString (VNum 0)).
Proof.
  split; [reflexivity|]. split.
  - vm_compute. tauto.
  - vm_compute. discriminate.
Qed.

(** ** C6: which values the encoders write *)

Lemma isNull_jsOr (a : JsVal) (s : str) : isNull (jsOr a (VStr s)) = false.
Proof. unfold jsOr. destruct a as [| |[]|n|[]]; simpl; auto; destruct (n =? 0); auto. Qed.

Lemma hasNull_customerRecord (host : Host) (custCode : Z) (customer : CustomerRow) :
  hasNull (customerRecord custCode customer) = false.
Proof.
  unfold hasNull, customerRecord.
  cbn [existsb snd value isNull orb]. now rewrite isNull_jsOr.
Qed.

(** C6.  In every line an encoder returns for a record over its layout, the
    byte range of each field is as the claim says: the customer encoder
    leaves spaces for [undefined] and writes the string form of any other
    value (the first [len] characters, padded with spaces); the job and WIP
    encoders write the string form of a truthy value and leave the range as
    spaces for a falsy one.  The empty string, the number zero and [null] are
    falsy and the string ['0'] is truthy.  The encoders return a line for
    every record they are given by the program: the customer encoder is
    called by [generateCustomerImportFile] on the records the customer
    mapping builds, none of which binds [null], and the job and WIP encoders
    return a line for every record. *)
Theorem C6_encoder_asymmetry (t : RecordType) (r : RecordInstance)
        (line : list ascii) (e : str * FieldDef) :
  layoutOf (dataFields t r) = layoutFor t ->
  encode t r = Ok line ->
  In e (dataFields t r) ->
  byteRange line (pos (snd e)) (len (snd e))
  = match t with
    | CustomerType =>
        if isUndefined (value (snd e)) then spaces (Z.to_nat (len (snd e)))
        else fieldImage (len (snd e)) (jsString (value (snd e)))
    | _ =>
        if truthy (value (snd e))
        then fieldImage (len (snd e)) (jsString (value (snd e)))
        else spaces (Z.to_nat (len (snd e)))
    end
  /\ truthy (VStr []) = false /\ truthy (VNum 0) = false /\ truthy VNull = false
  /\ truthy (VStr (L "0")) = true
  /\ (forall (host : Host) custCode customer,
        layoutOf (dataFields CustomerType (customerRecord custCode customer))
        = layoutFor CustomerType
        /\ exists line',
             encode CustomerType (customerRecord custCode customer) = Ok line')
  /\ (forall r', encode JobType r' = Ok (encodeJobLine r'))
  /\ (forall r', encode WipType r' = Ok (encodeWipLine r')).
Proof.
  intros Hl He Hin. split; [|repeat split].
  - rewrite (encode_byteRange t r line e Hl He Hin).
    destruct t; simpl; unfold customerText, jobText;
      destruct (isUndefined _) || destruct (truthy _); auto using fieldImage_nil.
  - cbn [encode]. rewrite encodeCustomerLine_paint, hasNull_customerRecord.
    eexists. reflexivity.
Qed.

Lemma C6_witness :
  layoutOf (dataFields JobType sampleJob) = layoutFor JobType
  /\ In (L "shop_floor_active", mkField (VStr (L "0")) 440 1) sampleJob
  /\ byteRange (encodeJobLine sampleJob) 440 1 = L "0".
Proof.
  assert (Hin : In (L "shop_floor_active", mkField (VStr (L "0")) 440 1) sampleJob).
  { unfold sampleJob, jobRecord. simpl. tauto. }
  split; [reflexivity|]. split; [exact Hin|].
  exact (proj1 (C6_encoder_asymmetry JobType sampleJob (encodeJobLine sampleJob)
                  (L "shop_floor_active", mkField (VStr (L "0")) 440 1)
                  eq_refl eq_refl Hin)).
Defined.

(** The same value in the two encoders: the number zero is written by the
    customer encoder and left as spaces by the job encoder. *)
Example zero_in_both_encoders :
  match encodeCustomerLine (@customerRecord exampleHost 0 sampleCustomerRow) with
  | Ok line => byteRange line 1 8 = L "0       "
  | Throw _ => False
  end
  /\ In (L "qty_ordered", mkField (VNum 0) 365 11) zeroQtyJob
  /\ byteRange (encodeJobLine zeroQtyJob) 365 11 = spaces 11.
Proof.
  split; [vm_compute; reflexivity|]. split; [vm_compute; tauto|].
  vm_compute. reflexivity.
Qed.

(** ** C10: the layouts *)

Lemma layout_last_byte (r : RecordInstance) :
  layoutOf r = customerLayout -> Forall (outsideOf 757) r.
Proof.
  intro Hl. apply Forall_forall. intros e Hin.
  assert (Hb : forallb (fun f => snd (fst f) - 1 + snd f <=? 757) (layoutOf r) = true)
    by (rewrite Hl; vm_compute; reflexivity).
  rewrite forallb_forall in Hb.
  specialize (Hb _ (in_map (fun e0 => (fst e0, pos (snd e0), len (snd e0))) _ _ Hin)).
  simpl in Hb. apply Z.leb_le in Hb. right. simpl. lia.
Qed.

Lemma layoutOf_bindLayout (lay : Layout) (vals : list JsVal) :
  (List.length lay <= List.length vals)%nat -> layoutOf (bindLayout lay vals) = lay.
Proof.
  revert vals; induction lay as [|[[n p] l] lay IH]; intros [|v vals] H;
    simpl in *; auto; try lia.
  f_equal. apply IH. lia.
Qed.

Lemma last_byte_space (r : RecordInstance) :
  layoutOf r = customerLayout ->
  match encodeCustomerLine r with
  | Ok line => nth 757 line space = space
  | Throw _ => hasNull r = true
  end.
Proof.
  intro Hl. rewrite encodeCustomerLine_paint.
  destruct (hasNull r); auto.
  rewrite nth_fold_paint_outside by now apply layout_last_byte.
  unfold spaces. apply nth_repeat.
Qed.

(** C10.  In the job/WIP layout and in the customer layout every field
    starts where the previous one ends, the fields are pairwise disjoint, the
    job/WIP layout covers each of the bytes 1..560 exactly once (its last
    field, forest_type_id at 546 of length 15, ends at byte 560), the
    customer layout covers each of the bytes 1..757 exactly once (its last
    field, PointOfTitleTransfer at 747 of length 11, ends at byte 757); these
    are the layouts of the records the mappings build; and byte 758 of every
    encoded customer line is a space. *)
Theorem C10_layouts_contiguous :
  contiguousFrom 1 jobLayout = true /\ pairwiseDisjoint jobLayout = true
  /\ partitions jobLayout 560 = true /\ layoutEnd jobLayout = 561
  /\ last jobLayout (L "", 0, 0) = (L "forest_type_id", 546, 15)
  /\ contiguousFrom 1 customerLayout = true /\ pairwiseDisjoint customerLayout = true
  /\ partitions customerLayout 757 = true /\ layoutEnd customerLayout = 758
  /\ coverCount customerLayout 758 = 0%nat
  /\ last customerLayout (L "", 0, 0) = (L "PointOfTitleTransfer", 747, 11)
  /\ (forall a b c d e f g h i j k l,
         layoutOf (jobRecord a b c d e f g h i j k l) = jobLayout)
  /\ (forall (host : Host) custCode customer,
         layoutOf (customerRecord custCode customer) = customerLayout
         /\ exists line, encodeCustomerLine (customerRecord custCode customer) = Ok line
                         /\ List.length line = 758%nat
                         /\ nth 757 line space = space)
  /\ (forall vals,
         match encodeCustomerLine (bindLayout customerLayout vals) with
         | Ok line => nth 757 line space = space
         | Throw _ => hasNull (bindLayout customerLayout vals) = true
         end).
Proof.
  do 11 (split; [vm_compute; reflexivity|]).
  split; [reflexivity|]. split.
  - intros host custCode customer. split; [reflexivity|].
    pose proof (last_byte_space (customerRecord custCode customer) eq_refl) as H.
    rewrite encodeCustomerLine_paint, hasNull_customerRecord in H.
    rewrite encodeCustomerLine_paint, hasNull_customerRecord.
    eexists. split; [reflexivity|]. split; [|assumption].
    now rewrite length_fold_paint, length_spaces.
  - intro vals. rewrite encodeCustomerLine_paint.
    destruct (hasNull (bindLayout customerLayout vals)); auto.
    rewrite nth_fold_paint_outside; [unfold spaces; apply nth_repeat|].
    apply Forall_forall. intros e Hin.
    assert (Hb : forall lay vs, (forallb (fun f => snd (fst f) - 1 + snd f <=? 757) lay = true) ->
                 forall x, In x (bindLayout lay vs) -> outsideOf 757 x).
    { induction lay as [|[[n p] l] lay IH]; intros vs Hf x Hx; [destruct Hx|].
      destruct vs as [|v vs]; [destruct Hx|].
      simpl in Hf. apply andb_true_iff in Hf as [Hf1 Hf2].
      destruct Hx as [<-|Hx].
      - right. simpl. apply Z.leb_le in Hf1. lia.
      - eapply IH; eauto. }
    apply (Hb customerLayout vals); [vm_compute; reflexivity | exact Hin].
Qed.

(** ** C7: job identifiers *)

Lemma nth_blankLeadingZeros (s : str) (i : nat) :
  nth i (blankLeadingZeros s) space
  = if (i <? leadingZeros s)%nat then space else nth i s space.
Proof.
  revert i; induction s as [|c s IH]; intros i; simpl.
  - now destruct i.
  - destruct (ascii_dec c "0"); [|reflexivity].
    destruct i as [|i]; simpl; auto.
Qed.

Lemma length_blankLeadingZeros (s : str) :
  List.length (blankLeadingZeros s) = List.length s.
Proof.
  induction s as [|c s IH]; simpl; auto.
  destruct (ascii_dec c "0"); simpl; auto.
Qed.

Lemma leadingZeros_firstn (n : nat) (s : str) :
  leadingZeros (firstn n s) = Nat.min n (leadingZeros s).
Proof.
  revert n; induction s as [|c s IH]; intros [|n]; simpl; auto.
  destruct (ascii_dec c "0"); simpl; auto.
Qed.

Lemma leadingZeros_app_spaces (s : str) (k : nat) :
  leadingZeros (s ++ spaces k) = leadingZeros s.
Proof.
  induction s as [|c s IH]; simpl.
  - now destruct k.
  - destruct (ascii_dec c "0"); auto.
Qed.

Lemma nth_padEnd (n : nat) (s : str) (i : nat) :
  nth i (padEnd n s) space = nth i s space.
Proof.
  unfold padEnd. destruct (Nat.lt_ge_cases i (List.length s)).
  - now apply app_nth1.
  - rewrite app_nth2 by lia. rewrite (nth_overflow s) by lia.
    unfold spaces. apply nth_repeat.
Qed.

Lemma length_orderJobId (inv : str) : List.length (orderJobId inv) = 8%nat.
Proof.
  unfold orderJobId, substring0.
  rewrite length_blankLeadingZeros, length_firstn, length_padEnd. lia.
Qed.

Lemma nth_orderJobId (inv : str) (i : nat) :
  (i < 8)%nat ->
  nth i (orderJobId inv) space
  = if (i <? leadingZeros inv)%nat then space else nth i inv space.
Proof.
  intro Hi. unfold orderJobId, substring0.
  rewrite nth_blankLeadingZeros, leadingZeros_firstn.
  unfold padEnd at 1. rewrite leadingZeros_app_spaces.
  rewrite nth_firstn, nth_padEnd.
  replace (i <? 8)%nat with true by (symmetry; apply Nat.ltb_lt; lia).
  destruct (Nat.ltb_spec i (leadingZeros inv)), (Nat.ltb_spec i (Nat.min 8 (leadingZeros inv)));
    auto; lia.
Qed.

Lemma length_wipJobId (o : str) : List.length (wipJobId o) = 8%nat.
Proof.
  unfold wipJobId, substring0. rewrite length_firstn, length_padEnd. lia.
Qed.

Lemma orderIdPattern_spec (s : str) :
  orderIdPattern s = true <->
  (4 <= List.length s <= 7)%nat /\ Forall (fun c => isDigit c = true) s.
Proof.
  unfold orderIdPattern. rewrite !andb_true_iff, forallb_forall, Forall_forall.
  rewrite !Nat.leb_le. tauto.
Qed.

Lemma wipJobId_valid (o : str) :
  orderIdPattern o = true ->
  wipJobId o = L "N" ++ o ++ spaces (7 - List.length o).
Proof.
  intro H. apply orderIdPattern_spec in H as [Hlen _].
  unfold wipJobId, substring0, padEnd.
  change (L "N" ++ o) with ("N"%char :: o).
  replace (8 - List.length ("N"%char :: o))%nat with (7 - List.length o)%nat
    by (cbn [List.length]; lia).
  apply firstn_all2. rewrite !length_app, length_spaces.
  change (List.length (L "N")) with 1%nat. lia.
Qed.

Lemma wipJobId_differs (o : str) :
  orderIdPattern o = true -> wipJobId o <> orderJobId o.
Proof.
  intros H E. pose proof (wipJobId_valid o H) as Hw.
  apply orderIdPattern_spec in H as [Hlen Hd].
  assert (H0 : nth 0 (wipJobId o) space = nth 0 (orderJobId o) space) by now rewrite E.
  rewrite Hw, nth_orderJobId in H0 by lia. simpl in H0.
  destruct o as [|c o]; [simpl in Hlen; lia|].
  inversion Hd as [|? ? Hc _]; subst. simpl in H0.
  destruct (ascii_dec c "0"); simpl in H0; [discriminate|].
  subst c. discriminate Hc.
Qed.

(** C7, corrected.  The claim describes the order-path job id as the invoice
    number left-padded with zeros and then stripped of leading zeros, which
    would give five spaces before 520; the code pads on the right with spaces.
    What holds: in the order path the job id has 8 characters, the invoice
    number's first 8 characters with its leading zeros replaced by spaces and
    spaces after its end, so invoice 520 yields 520 followed by five spaces;
    in the WIP path the job id has 8 characters, the letter N, then the order
    id, then spaces, and for every valid order id it differs from what the
    order rule gives. *)
Theorem C7_job_id_derivation :
  (forall inv, List.length (orderJobId inv) = 8%nat)
  /\ (forall inv i, (i < 8)%nat ->
        nth i (orderJobId inv) space
        = if (i <? leadingZeros inv)%nat then space else nth i inv space)
  /\ orderJobId (L "520") = L "520     "
  /\ orderJobId (L "00123") = L "  123   "
  /\ (forall o, List.length (wipJobId o) = 8%nat)
  /\ (forall o, wipJobId o = substring0 8 (L "N" ++ o ++ spaces (7 - List.length o)))
  /\ (forall o, orderIdPattern o = true ->
        wipJobId o = L "N" ++ o ++ spaces (7 - List.length o)
        /\ wipJobId o <> orderJobId o).
Proof.
  split; [exact length_orderJobId|].
  split; [exact nth_orderJobId|].
  split; [reflexivity|]. split; [reflexivity|].
  split; [exact length_wipJobId|].
  split.
  - intro o. unfold wipJobId, padEnd. now rewrite <- app_assoc.
  - intros o H. split; [now apply wipJobId_valid | now apply wipJobId_differs].
Qed.

Lemma C7_witness :
  orderIdPattern (L "12345") = true
  /\ wipJobId (L "12345") = L "N12345  "
  /\ wipJobId (L "12345") <> orderJobId (L "12345")
  /\ nth 1 (orderJobId (L "00123")) space = space
  /\ nth 2 (orderJobId (L "00123")) space = "1"%char.
Proof.
  destruct C7_job_id_derivation as (_ & Hnth & _ & _ & _ & _ & Hwip).
  split; [reflexivity|].
  destruct (Hwip (L "12345") eq_refl) as [H1 H2].
  split; [exact H1|]. split; [exact H2|].
  split; [exact (Hnth (L "00123") 1%nat ltac:(lia))
         | exact (Hnth (L "00123") 2%nat ltac:(lia))].
Defined.

(** C7 as stated fails: the rule in the claim's words gives five spaces and
    then 520 for invoice 520, the code gives 520 and then five spaces. *)
Lemma C7_counterexample :
  specOrderJobId (L "520") = L "     520"
  /\ orderJobId (L "520") = L "520     "
  /\ orderJobId (L "520") <> specOrderJobId (L "520").
Proof.
  split; [reflexivity|]. split; [reflexivity|]. vm_compute. discriminate.
Qed.

(** ** C5: the WIP filter *)

Lemma isValidOrderId_pattern (v : JsVal) :
  isValidOrderId v = orderIdPattern (trim (jsString v)).
Proof.
  unfold isValidOrderId.
  destruct v as [| |[]|n|[|c s]]; try reflexivity.
  simpl truthy. destruct (Z.eqb_spec n 0) as [->|]; reflexivity.
Qed.

Lemma filterFrom_spec (rows : list WipRow) (index : nat) (st : FilterState) :
  filterFrom index rows st =
  mkFilter (filteredData st ++ map markValid (filter passesPattern rows))
           (skippedRows st
            ++ map skipRecord
                   (filter (fun ir => negb (passesPattern (snd ir))) (numbered index rows))).
Proof.
  revert index st; induction rows as [|row rows IH]; intros index st.
  - simpl. rewrite !app_nil_r. now destruct st.
  - cbn [filterFrom]. rewrite IH. unfold filterStep, numbered.
    cbn [List.length seq combine filter snd].
    fold (orderIdOf row). rewrite isValidOrderId_pattern. fold (passesPattern row).
    destruct (passesPattern row); cbn [negb filteredData skippedRows map].
    + now rewrite <- app_assoc.
    + now rewrite <- app_assoc.
Qed.

Lemma mapRows_calls (host : Host) (api : Api) (rows : list WipRow) (n : nat)
      (st : WipRun) :
  exists rest,
    wipCalls st ++ map wipQuery rows = wipCalls (mapRows api n rows st) ++ rest
    /\ (wipThrown (mapRows api n rows st) = None -> rest = []).
Proof.
  revert n st; induction rows as [|row rows IH]; intros n st.
  - exists []. simpl. split; auto.
  - cbn [mapRows map].
    destruct (processRow (api n) row) as [[job|r]|e].
    + destruct (IH (S n) (mkWipRun (wipJobs st ++ [job]) (wipRejectedOrders st)
                                   (wipCalls st ++ [wipQuery row]) None))
        as (rest & H1 & H2).
      exists rest. split; auto. rewrite <- H1. cbn [wipCalls].
      now rewrite <- app_assoc.
    + destruct (IH (S n) (mkWipRun (wipJobs st) (wipRejectedOrders st ++ [r])
                                   (wipCalls st ++ [wipQuery row]) None))
        as (rest & H1 & H2).
      exists rest. split; auto. rewrite <- H1. cbn [wipCalls].
      now rewrite <- app_assoc.
    + exists (map wipQuery rows). cbn [wipCalls wipThrown]. split.
      * now rewrite <- app_assoc.
      * discriminate.
Qed.

Lemma length_filter_split {A} (f : A -> bool) (l : list A) :
  (List.length (filter f l) + List.length (filter (fun x => negb (f x)) l)
   = List.length l)%nat.
Proof.
  induction l as [|x l IH]; simpl; auto.
  destruct (f x); simpl; lia.
Qed.

Lemma filter_numbered (f : WipRow -> bool) (rows : list WipRow) (index : nat) :
  map snd (filter (fun ir => f (snd ir)) (numbered index rows)) = filter f rows.
Proof.
  unfold numbered. revert index; induction rows as [|row rows IH]; intro index; auto.
  cbn [List.length seq combine filter snd].
  destruct (f row); cbn [map snd]; now rewrite IH.
Qed.

(** C5.  [isValidOrderId] accepts a value exactly when its trimmed string
    form matches the 4-7 digit pattern; [filterValidOrders] keeps the rows
    whose order-id field passes, in order, and records every other row, and
    only those, as a skipped row with its row number; each row goes to exactly
    one of the two lists; and the directory is queried only for kept rows,
    one query per kept row in order (all of them when the run does not
    throw). *)
Theorem C5_wip_filter (host : Host) (api : Api) (wipData : list WipRow) :
  (forall v, isValidOrderId v = orderIdPattern (trim (jsString v)))
  /\ filteredData (filterValidOrders wipData)
     = map markValid (filter passesPattern wipData)
  /\ skippedRows (filterValidOrders wipData)
     = map skipRecord
           (filter (fun ir => negb (passesPattern (snd ir))) (numbered 0 wipData))
  /\ map snd (filter (fun ir => negb (passesPattern (snd ir))) (numbered 0 wipData))
     = filter (fun row => negb (passesPattern row)) wipData
  /\ (List.length (filteredData (filterValidOrders wipData))
      + List.length (skippedRows (filterValidOrders wipData))
      = List.length wipData)%nat
  /\ exists rest,
       map wipQuery (filteredData (filterValidOrders wipData))
       = wipCalls (mapToMonarchFormat api (filteredData (filterValidOrders wipData)))
         ++ rest
       /\ (wipThrown (mapToMonarchFormat api (filteredData (filterValidOrders wipData)))
           = None -> rest = []).
Proof.
  unfold filterValidOrders. rewrite filterFrom_spec. cbn [filteredData skippedRows app].
  split; [exact isValidOrderId_pattern|].
  split; [reflexivity|]. split; [reflexivity|].
  split; [apply (filter_numbered (fun row => negb (passesPattern row)))|].
  split.
  - rewrite !length_map.
    rewrite <- (length_map snd (filter _ (numbered 0 wipData))).
    rewrite (filter_numbered (fun row => negb (passesPattern row))).
    apply length_filter_split.
  - unfold mapToMonarchFormat.
    destruct (mapRows_calls host api (map markValid (filter passesPattern wipData)) 0
                            (mkWipRun [] [] [] None)) as (rest & H1 & H2).
    exists rest. split; auto.
Qed.

Lemma C5_witness :
  wipThrown (@mapToMonarchFormat exampleHost emptyApi
               (filteredData (filterValidOrders [textProjectRow; flyerRow]))) = None
  /\ wipCalls (@mapToMonarchFormat exampleHost emptyApi
                 (filteredData (filterValidOrders [textProjectRow; flyerRow])))
     = [ L "Acme Co"; L "Beta LLC" ].
Proof.
  split; [reflexivity|].
  destruct (C5_wip_filter exampleHost emptyApi [textProjectRow; flyerRow])
    as (_ & _ & _ & _ & _ & rest & H1 & H2).
  rewrite (H2 eq_refl), app_nil_r in H1.
  symmetry. exact H1.
Defined.

(** ** Objects and grouping *)

Lemma getProp_In {V} (o : JsObject V) (k : str) (v : V) :
  getProp o k = Some v -> In (k, v) o.
Proof.
  induction o as [|[k' v'] o IH]; simpl; [discriminate|].
  destruct (str_eqb k' k) eqn:E.
  - apply str_eqb_eq in E as ->. intros [= ->]. now left.
  - auto.
Qed.

Lemma keys_setProp {V} (o : JsObject V) (k : str) (v : V) :
  map fst (setProp o k v)
  = if existsb (fun k' => str_eqb k' k) (map fst o) then map fst o
    else map fst o ++ [k].
Proof.
  induction o as [|[k' v'] o IH]; simpl; auto.
  destruct (str_eqb k' k) eqn:E; simpl.
  - apply str_eqb_eq in E as ->. reflexivity.
  - rewrite IH. now destruct (existsb _ _).
Qed.

Lemma NoDup_setProp {V} (o : JsObject V) (k : str) (v : V) :
  NoDup (map fst o) -> NoDup (map fst (setProp o k v)).
Proof.
  intro H. rewrite keys_setProp.
  destruct (existsb (fun k' => str_eqb k' k) (map fst o)) eqn:E; auto.
  apply NoDup_app; auto.
  - repeat constructor. intros [].
  - intros x Hx [Hk|[]]. subst x.
    assert (existsb (fun k' => str_eqb k' k) (map fst o) = true)
      by (apply existsb_exists; exists k; split; auto; apply str_eqb_refl).
    congruence.
Qed.

Lemma In_setProp {V} (o : JsObject V) (k : str) (v : V) (x : str * V) :
  NoDup (map fst o) ->
  In x (setProp o k v) -> x = (k, v) \/ (In x o /\ fst x <> k).
Proof.
  induction o as [|[k' v'] o IH]; simpl; intros Hn Hx.
  - destruct Hx as [<-|[]]. now left.
  - inversion Hn as [|? ? Hk' Hn']; subst.
    destruct (str_eqb k' k) eqn:E.
    + apply str_eqb_eq in E as ->.
      destruct Hx as [<-|Hx]; [now left|].
      right. split; auto. intros <-. apply Hk'. now apply in_map.
    + destruct Hx as [<-|Hx].
      * right. split; auto. simpl. intros ->. now rewrite str_eqb_refl in E.
      * destruct (IH Hn' Hx) as [->|[H1 H2]]; auto.
Qed.

Lemma In_setProp_new {V} (o : JsObject V) (k : str) (v : V) :
  In (k, v) (setProp o k v).
Proof.
  induction o as [|[k' v'] o IH]; simpl; auto.
  destruct (str_eqb k' k); simpl; auto.
Qed.

Lemma In_setProp_old {V} (o : JsObject V) (k : str) (v : V) (x : str * V) :
  In x o -> fst x <> k -> In x (setProp o k v).
Proof.
  induction o as [|[k' v'] o IH]; simpl; auto.
  intros [<-|Hx] Hne.
  - simpl in Hne. destruct (str_eqb k' k) eqn:E.
    + apply str_eqb_eq in E. contradiction.
    + now left.
  - destruct (str_eqb k' k); simpl; auto.
Qed.

Lemma getProp_None {V} (o : JsObject V) (k : str) (x : str * V) :
  getProp o k = None -> In x o -> fst x <> k.
Proof.
  induction o as [|[k' v'] o IH]; simpl; [tauto|].
  destruct (str_eqb k' k) eqn:E; [discriminate|].
  intros Hn [<-|Hx]; auto. simpl. intros ->. now rewrite str_eqb_refl in E.
Qed.

Lemma filter_snoc {A} (f : A -> bool) (l : list A) (x : A) :
  filter f (l ++ [x]) = filter f l ++ (if f x then [x] else []).
Proof. rewrite filter_app. reflexivity. Qed.

(** A run of pushes that do not throw leaves, under each invoice number that
    occurs, the order lines of that invoice in file order. *)
Lemma appendOrders_spec (orderData : list CsvRow) :
  NoDup (map fst (appendOrders orderData))
  /\ (forall k os, In (k, os) (appendOrders orderData) ->
                   os = linesOf k orderData /\ os <> [])
  /\ (forall o, In o orderData ->
                In (invoiceOf o, linesOf (invoiceOf o) orderData)
                   (appendOrders orderData)).
Proof.
  unfold appendOrders, linesOf.
  induction orderData as [|o data IH] using rev_ind.
  - simpl. split; [constructor|]. split; [tauto|tauto].
  - destruct IH as (Hn & Hin & Hall).
    rewrite fold_left_app. cbn [fold_left].
    set (g := fold_left appendOrder data []) in *.
    unfold appendOrder.
    assert (Hset : forall v,
               (forall k os, In (k, os) (setProp g (invoiceOf o) v) ->
                  (k = invoiceOf o /\ os = v)
                  \/ (In (k, os) g /\ k <> invoiceOf o))).
    { intros v k os Hx. destruct (In_setProp g _ v (k, os) Hn Hx) as [[= -> ->]|[H1 H2]];
        auto. }
    destruct (getProp g (invoiceOf o)) as [os0|] eqn:E.
    + apply getProp_In in E. destruct (Hin _ _ E) as [E0 Hne].
      split; [now apply NoDup_setProp|]. split.
      * intros k os Hx. rewrite filter_snoc.
        destruct (Hset _ _ _ Hx) as [[-> ->]|[H1 H2]].
        -- rewrite str_eqb_refl, <- E0. split; auto.
           intro Hnil. now apply app_eq_nil in Hnil as [_ [=]].
        -- destruct (Hin _ _ H1) as [-> Hne']. split; auto.
           destruct (str_eqb (invoiceOf o) k) eqn:Ek.
           ++ apply str_eqb_eq in Ek. congruence.
           ++ now rewrite app_nil_r.
      * intros o' Ho'. rewrite filter_snoc.
        apply in_app_or in Ho' as [Ho'|[<-|[]]].
        -- destruct (list_eq_dec ascii_dec (invoiceOf o') (invoiceOf o)) as [Heq|Hneq].
           ++ rewrite Heq, str_eqb_refl, <- E0. apply In_setProp_new.
           ++ destruct (str_eqb (invoiceOf o) (invoiceOf o')) eqn:Ek.
              ** apply str_eqb_eq in Ek. congruence.
              ** rewrite app_nil_r. apply In_setProp_old; auto.
        -- rewrite str_eqb_refl, <- E0. apply In_setProp_new.
    + assert (Hnone : filter (fun o0 => str_eqb (invoiceOf o0) (invoiceOf o)) data = []).
      { destruct (filter _ data) as [|o1 l] eqn:Ef; auto.
        assert (Ho1 : In o1 (filter (fun o0 => str_eqb (invoiceOf o0) (invoiceOf o)) data))
          by (rewrite Ef; now left).
        apply filter_In in Ho1 as [Ho1 Hk]. apply str_eqb_eq in Hk.
        specialize (Hall _ Ho1). rewrite Hk in Hall.
        exfalso. exact (getProp_None g _ _ E Hall eq_refl). }
      split; [now apply NoDup_setProp|]. split.
      * intros k os Hx. rewrite filter_snoc.
        destruct (Hset _ _ _ Hx) as [[-> ->]|[H1 H2]].
        -- rewrite str_eqb_refl, Hnone. split; [reflexivity|discriminate].
        -- destruct (Hin _ _ H1) as [-> Hne']. split; auto.
           destruct (str_eqb (invoiceOf o) k) eqn:Ek.
           ++ apply str_eqb_eq in Ek. congruence.
           ++ now rewrite app_nil_r.
      * intros o' Ho'. rewrite filter_snoc.
        apply in_app_or in Ho' as [Ho'|[<-|[]]].
        -- destruct (list_eq_dec ascii_dec (invoiceOf o') (invoiceOf o)) as [Heq|Hneq].
           ++ exfalso. specialize (Hall _ Ho'). rewrite Heq in Hall.
              exact (getProp_None g _ _ E Hall eq_refl).
           ++ destruct (str_eqb (invoiceOf o) (invoiceOf o')) eqn:Ek.
              ** apply str_eqb_eq in Ek. congruence.
              ** rewrite app_nil_r. apply In_setProp_old; auto.
        -- rewrite str_eqb_refl, Hnone. apply In_setProp_new.
Qed.


Lemma inheritedName_spec (k : str) : inheritedName k = true <-> In k inheritedNames.
Proof.
  unfold inheritedName. rewrite existsb_exists. split.
  - intros (x & Hx & E). apply str_eqb_eq in E. now subst.
  - intro H. exists k. split; [exact H|apply str_eqb_refl].
Qed.

Lemma pushOrder_cases (groups : JsObject (list CsvRow)) (order : CsvRow) :
  Forall (fun k => inheritedName k = false) (map fst groups) ->
  if inheritedName (invoiceOf order)
  then pushOrder groups order = Throw pushError
  else pushOrder groups order = Ok (appendOrder groups order)
       /\ Forall (fun k => inheritedName k = false)
                 (map fst (appendOrder groups order)).
Proof.
  intro Hg. unfold pushOrder, appendOrder. cbv zeta.
  destruct (inheritedName (invoiceOf order)) eqn:Ei.
  - destruct (getProp groups (invoiceOf order)) as [os|] eqn:E; [|reflexivity].
    apply getProp_In in E. rewrite Forall_forall in Hg.
    specialize (Hg _ (in_map fst _ _ E)). cbn [fst] in Hg. congruence.
  - assert (Hk : forall v, Forall (fun k => inheritedName k = false)
                                  (map fst (setProp groups (invoiceOf order) v))).
    { intro v. rewrite keys_setProp. destruct (existsb _ _); auto.
      apply Forall_app. split; auto. }
    destruct (getProp groups (invoiceOf order)); split; auto.
Qed.

Lemma pushOrders_cases (orderData : list CsvRow) (groups : JsObject (list CsvRow)) :
  Forall (fun k => inheritedName k = false) (map fst groups) ->
  match pushOrders groups orderData with
  | Ok groups' =>
      Forall (fun o => inheritedName (invoiceOf o) = false) orderData
      /\ groups' = fold_left appendOrder orderData groups
  | Throw e =>
      e = pushError
      /\ Exists (fun o => inheritedName (invoiceOf o) = true) orderData
  end.
Proof.
  revert groups; induction orderData as [|o data IH]; intros groups Hg.
  - simpl. auto.
  - cbn [pushOrders fold_left]. pose proof (pushOrder_cases groups o Hg) as Hp.
    destruct (inheritedName (invoiceOf o)) eqn:Ei.
    + rewrite Hp. cbn [bind]. split; [reflexivity|]. now left.
    + destruct Hp as [-> Hk]. cbn [bind]. specialize (IH _ Hk).
      destruct (pushOrders (appendOrder groups o) data) as [g'|e].
      * destruct IH as [H1 H2]. split; [now constructor|exact H2].
      * destruct IH as [H1 H2]. split; [exact H1|now right].
Qed.

(** The grouping loop ends in one of two ways: it throws, and then some
    invoice number is a name inherited from [Object.prototype]; or no invoice
    number is such a name and the object holds the pushed lines. *)
Lemma ordersByInvoice_cases (orderData : list CsvRow) :
  match ordersByInvoice orderData with
  | Ok groups =>
      Forall (fun o => inheritedName (invoiceOf o) = false) orderData
      /\ groups = appendOrders orderData
  | Throw e =>
      e = pushError
      /\ Exists (fun o => inheritedName (invoiceOf o) = true) orderData
  end.
Proof. apply (pushOrders_cases orderData []). constructor. Qed.

Lemma ordersByInvoice_appendOrders (orderData : list CsvRow)
      (groups : JsObject (list CsvRow)) :
  ordersByInvoice orderData = Ok groups -> groups = appendOrders orderData.
Proof.
  intro H. pose proof (ordersByInvoice_cases orderData) as Hc.
  rewrite H in Hc. exact (proj2 Hc).
Qed.

Lemma ordersByInvoice_returns (orderData : list CsvRow) :
  Forall (fun o => inheritedName (invoiceOf o) = false) orderData ->
  ordersByInvoice orderData = Ok (appendOrders orderData).
Proof.
  intro H. pose proof (ordersByInvoice_cases orderData) as Hc.
  destruct (ordersByInvoice orderData) as [groups|e].
  - now rewrite (proj2 Hc).
  - destruct Hc as [_ Hex]. apply Exists_exists in Hex as (o & Ho & Hi).
    rewrite Forall_forall in H. specialize (H o Ho). congruence.
Qed.

(** The grouped object holds, under each invoice number that occurs, the
    order lines of that invoice in file order. *)
Lemma ordersByInvoice_spec (orderData : list CsvRow) (groups : JsObject (list CsvRow)) :
  ordersByInvoice orderData = Ok groups ->
  NoDup (map fst groups)
  /\ (forall k os, In (k, os) groups -> os = linesOf k orderData /\ os <> [])
  /\ (forall o, In o orderData ->
                In (invoiceOf o, linesOf (invoiceOf o) orderData) groups).
Proof.
  intro H. rewrite (ordersByInvoice_appendOrders _ _ H).
  apply appendOrders_spec.
Qed.

Lemma In_insertByIndex {V} (e x : str * V) (l : JsObject V) :
  In x (insertByIndex e l) <-> x = e \/ In x l.
Proof.
  induction l as [|y l IH]; simpl.
  - intuition.
  - destruct (indexValue (fst e) <? indexValue (fst y)); simpl; rewrite ?IH; intuition.
Qed.

(** [Object.entries] enumerates exactly the own properties. *)
Lemma In_ownEntries {V} (o : JsObject V) (x : str * V) :
  In x (ownEntries o) <-> In x o.
Proof.
  unfold ownEntries. rewrite in_app_iff.
  assert (H : forall l : JsObject V, In x (fold_right insertByIndex [] l) <-> In x l).
  { induction l as [|y l IH]; simpl; [tauto|].
    rewrite In_insertByIndex, IH. intuition. }
  rewrite H, !filter_In.
  destruct (isArrayIndex (fst x)); simpl; intuition.
Qed.

(** ** Main job and sub-jobs of one invoice group *)

Section Groups.
Context {host : Host}.

Lemma length_subJobsFrom (a b c d e f : str) (i : nat) (rest : list CsvRow) :
  List.length (subJobsFrom a b c d e f i rest) = List.length rest.
Proof.
  revert i; induction rest as [|o rest IH]; intro i; simpl; auto.
Qed.

Lemma nth_subJobsFrom (a b c d e f : str) (rest : list CsvRow) (i k : nat) :
  (k < List.length rest)%nat ->
  nth k (subJobsFrom a b c d e f i rest) []
  = subJobOf a b c d e f (i + k) (nth k rest []).
Proof.
  revert i k; induction rest as [|o rest IH]; intros i k Hk; simpl in Hk; [lia|].
  destruct k as [|k]; cbn [subJobsFrom nth].
  - now rewrite Nat.add_0_r.
  - rewrite IH by lia. f_equal. lia.
Qed.

Lemma processGroup_found (search : str -> ApiOutcome) (customerData : list CsvRow)
      (invoice : str) (first : CsvRow) (rest : list CsvRow) (cid : JsVal) :
  lookupCustomer (search (cellOr first (L "Customer Name") [])) = Found cid ->
  nullish cid = false ->
  processGroup search customerData invoice first rest =
  Ok (GroupJobs
        (mainJobOf (orderJobId invoice) (substring0 8 (jsString cid))
                   (cellOr first (L "Custom Field 1-po#") [])
                   (cellThen first (L "Due date") dateOfString [])
                   (cellThen first (L "Shipping date") dateOfString [])
                   (contactNameOf customerData (cellOr first (L "Customer Name") []))
                   first)
        (subJobsFrom (orderJobId invoice) (substring0 8 (jsString cid))
                     (cellOr first (L "Custom Field 1-po#") [])
                     (cellThen first (L "Due date") dateOfString [])
                     (cellThen first (L "Shipping date") dateOfString [])
                     (contactNameOf customerData (cellOr first (L "Customer Name") []))
                     1 rest)).
Proof.
  intros Hl Hn. unfold processGroup. rewrite Hl.
  unfold customerId8, toString. rewrite Hn. reflexivity.
Qed.

Lemma subJobId_decimal (i : nat) :
  1 <= Z.of_nat i < 10000 -> subJobId i = padEnd 4 (decimal (Z.of_nat i)).
Proof.
  intro Hi.
  assert (H : forallb (fun i => (List.length (decimal (Z.of_nat i)) <=? 4)%nat)
                      (seq 1 (Z.to_nat 9999)) = true) by (vm_compute; reflexivity).
  rewrite forallb_forall in H.
  assert (Hlen : (List.length (decimal (Z.of_nat i)) <= 4)%nat)
    by (apply Nat.leb_le, H, in_seq; lia).
  unfold subJobId, substring0. apply firstn_all2.
  rewrite length_padEnd. lia.
Qed.

End Groups.

(** ** C4: the customer resolver *)

Lemma lookupCustomer_cases (o : ApiOutcome) :
  (exists cid rest, o = Ok (ArrayOf (ItemWith cid :: rest)) /\ lookupCustomer o = Found cid)
  \/ ((o = Ok NotArray \/ o = Ok (ArrayOf [])) /\ lookupCustomer o = Rejected notFoundReason)
  \/ (exists message, lookupCustomer o = Rejected (apiErrorReason message)).
Proof.
  destruct o as [[|[|[|cid] rest]]|e]; simpl; eauto 6.
Qed.

Lemma length_customerId8 (cid : JsVal) (s : str) :
  customerId8 cid = Ok s -> s = substring0 8 (jsString cid) /\ (List.length s <= 8)%nat.
Proof.
  unfold customerId8, toString. destruct (nullish cid); [discriminate|].
  intros [= Hs]. subst s. split; [reflexivity|].
  exact (firstn_le_length 8 (jsString cid)).
Qed.

Section Resolver.
Context {host : Host}.

(** Order path: a group whose lookup fails yields one rejected order with the
    lookup's reason and no job; a group whose lookup succeeds with a customer
    id yields its jobs, carrying at most 8 characters of that id, and no
    rejection. *)
Lemma processGroup_outcome (search : str -> ApiOutcome) (customerData : list CsvRow)
      (invoice : str) (first : CsvRow) (rest : list CsvRow) :
  match lookupCustomer (search (cellOr first (L "Customer Name") [])) with
  | Rejected why =>
      exists r, processGroup search customerData invoice first rest = Ok (GroupRejected r)
                /\ reason r = why /\ invoiceNumber r = invoice
                /\ customerName r = cellOr first (L "Customer Name") []
  | Found cid =>
      nullish cid = false ->
      exists main subs,
        processGroup search customerData invoice first rest = Ok (GroupJobs main subs)
        /\ fieldValue main (L "cust_ordered_by") = VStr (substring0 8 (jsString cid))
        /\ fieldValue main (L "cust_billed_to") = VStr (substring0 8 (jsString cid))
        /\ (List.length (substring0 8 (jsString cid)) <= 8)%nat
  end.
Proof.
  destruct (lookupCustomer (search (cellOr first (L "Customer Name") []))) as [cid|why] eqn:E.
  - intro Hn. eexists _, _.
    split; [exact (processGroup_found search customerData invoice first rest cid E Hn)|].
    split; [reflexivity|]. split; [reflexivity|].
    exact (firstn_le_length 8 (jsString cid)).
  - unfold processGroup. rewrite E. eexists. split; [reflexivity|]. auto.
Qed.

(** A rejected group does not stop the loop: the groups after it are mapped
    as they would be on their own, after the rejection is recorded. *)
Lemma mapGroups_rejected_continues (api : Api) (customerData : list CsvRow) (n : nat)
      (invoice : str) (first : CsvRow) (rest : list CsvRow)
      (entries : JsObject (list CsvRow)) (acc : MapResult) (r : RejectedOrder) :
  processGroup (api n) customerData invoice first rest = Ok (GroupRejected r) ->
  mapGroups api customerData n ((invoice, first :: rest) :: entries) acc
  = mapGroups api customerData (S n) entries
              (mkMapResult (mainJobs acc) (subJobs acc) (rejectedOrders acc ++ [r])).
Proof. intro H. cbn [mapGroups]. rewrite H. reflexivity. Qed.

(** The result of the loop is the groups' outcomes, accumulated in order:
    every group contributes its own outcome and nothing else. *)
Lemma mapGroups_outcomes (api : Api) (customerData : list CsvRow)
      (entries : JsObject (list CsvRow)) (n : nat) (acc : MapResult) :
  mapGroups api customerData n entries acc
  = (os <- outcomesOf api customerData n entries ;; Ok (fold_left addOutcome os acc)).
Proof.
  revert n acc; induction entries as [|[invoice [|first rest]] entries IH];
    intros n acc; cbn [mapGroups outcomesOf]; auto.
  destruct (processGroup (api n) customerData invoice first rest) as [o|e];
    cbn [bind]; auto.
  rewrite IH. destruct (outcomesOf api customerData (S n) entries); reflexivity.
Qed.

(** WIP path: one filtered row. *)
Lemma processRow_outcome (search : str -> ApiOutcome) (row : WipRow) :
  match lookupCustomer (search (wipQuery row)) with
  | Rejected why =>
      exists r, processRow search row = Ok (RowRejected r) /\ wipReason r = why
  | Found cid =>
      nullish cid = false ->
      match findColumn row projectNameColumns with
      | VStr _ =>
          exists job, processRow search row = Ok (RowJob job)
                      /\ fieldValue job (L "cust_ordered_by")
                         = VStr (substring0 8 (jsString cid))
      | _ => exists e, processRow search row = Throw e
      end
  end.
Proof.
  unfold processRow.
  destruct (lookupCustomer (search (wipQuery row))) as [cid|why].
  - intro Hn. unfold customerId8, toString. rewrite Hn. cbn [bind].
    unfold wipJobOf.
    destruct (findColumn row projectNameColumns); cbn [jsSubstring0 bind]; eauto.
  - eauto.
Qed.

(** C4, evaluated where the code departs from it.  A spreadsheet row with a
    valid order id and a numeric Project Name cell reaches the resolver, the
    directory finds its customer, and the mapping then throws: no job and no
    rejected record is produced for the row, the row after it is never
    looked up, and [processFile] reports the whole batch as failed.  With the
    same cell as text the two rows give two jobs. *)
Theorem C4_numeric_project_name (browser : Browser) :
  let api := knownApi (VStr (L "ACME01")) in
  let filtered := filteredData (filterValidOrders [numericProjectRow; flyerRow]) in
  List.length filtered = 2%nat
  /\ wipJobs (mapToMonarchFormat api filtered) = []
  /\ wipRejectedOrders (mapToMonarchFormat api filtered) = []
  /\ wipCalls (mapToMonarchFormat api filtered) = [L "Acme Co"]
  /\ wipThrown (mapToMonarchFormat api filtered)
     = Some (TypeError (L "projectName.substring is not a function"))
  /\ wipProcessFile browser api
       (Ok ([VStr (L "Order ID"); VStr (L "Customer Name"); VStr (L "Project Name")],
            [numericProjectRow; flyerRow]))
     = Ok (Failed (L "Error processing XLS file: projectName.substring is not a function"))
  /\ List.length
       (wipJobs (mapToMonarchFormat api
                   (filteredData (filterValidOrders [textProjectRow; flyerRow]))))
     = 2%nat.
Proof.
  repeat split; vm_compute; reflexivity.
Qed.
End Resolver.

(** ** C3: one main job and numbered sub-jobs per invoice group *)

Lemma nth_error_cons_S {A} (x : A) (l : list A) (i : nat) :
  nth_error (x :: l) (S i) = nth_error l i.
Proof. reflexivity. Qed.

Section InvoiceGroups.
Context {host : Host}.

Lemma fold_addOutcome_lists (os : list GroupOutcome) (acc : MapResult) :
  mainJobs (fold_left addOutcome os acc) = mainJobs acc ++ mainsOf os
  /\ subJobs (fold_left addOutcome os acc) = subJobs acc ++ subsOf os
  /\ rejectedOrders (fold_left addOutcome os acc) = rejectedOrders acc ++ rejectedOf os.
Proof.
  revert acc; induction os as [|o os IH]; intro acc.
  - simpl. now rewrite !app_nil_r.
  - cbn [fold_left]. destruct (IH (addOutcome acc o)) as (H1 & H2 & H3).
    rewrite H1, H2, H3.
    destruct o as [main subs|r]; cbn [addOutcome mainJobs subJobs rejectedOrders];
      unfold mainsOf, subsOf, rejectedOf; cbn [flat_map app];
      rewrite <- ?app_assoc, ?app_nil_r; auto.
Qed.

(** One group: a rejection when the lookup fails, the jobs when it finds a
    customer id, and an exception when the first result carries none. *)
Lemma processGroup_cases (search : str -> ApiOutcome) (customerData : list CsvRow)
      (invoice : str) (first : CsvRow) (rest : list CsvRow) :
  match lookupCustomer (search (cellOr first (L "Customer Name") [])) with
  | Rejected why =>
      exists r, processGroup search customerData invoice first rest = Ok (GroupRejected r)
                /\ reason r = why /\ invoiceNumber r = invoice
  | Found cid =>
      if nullish cid
      then processGroup search customerData invoice first rest
           = Throw (TypeError (L "Cannot read properties of " ++ jsString cid
                               ++ L " (reading 'toString')"))
      else processGroup search customerData invoice first rest
           = Ok (GroupJobs
                   (mainJobOf (orderJobId invoice) (substring0 8 (jsString cid))
                      (cellOr first (L "Custom Field 1-po#") [])
                      (cellThen first (L "Due date") dateOfString [])
                      (cellThen first (L "Shipping date") dateOfString [])
                      (contactNameOf customerData (cellOr first (L "Customer Name") []))
                      first)
                   (subJobsFrom (orderJobId invoice) (substring0 8 (jsString cid))
                      (cellOr first (L "Custom Field 1-po#") [])
                      (cellThen first (L "Due date") dateOfString [])
                      (cellThen first (L "Shipping date") dateOfString [])
                      (contactNameOf customerData (cellOr first (L "Customer Name") []))
                      1 rest))
  end.
Proof.
  destruct (lookupCustomer (search (cellOr first (L "Customer Name") [])))
    as [cid|why] eqn:E.
  - destruct (nullish cid) eqn:En.
    + unfold processGroup. rewrite E. unfold customerId8, toString. now rewrite En.
    + exact (processGroup_found search customerData invoice first rest cid E En).
  - unfold processGroup. rewrite E. eexists. split; [reflexivity|]. auto.
Qed.

Lemma processGroup_mapped (search : str -> ApiOutcome)
      (customerData orderData : list CsvRow) (invoice : str) (first : CsvRow)
      (rest : list CsvRow) (o : GroupOutcome) :
  first :: rest = linesOf invoice orderData ->
  processGroup search customerData invoice first rest = Ok o ->
  groupMapped search orderData invoice (first :: rest) (Some o).
Proof.
  intros Hl Ho. unfold groupMapped. split; [exact Hl|]. split; [discriminate|].
  pose proof (processGroup_cases search customerData invoice first rest) as Hc.
  cbn [hd].
  destruct (lookupCustomer (search (cellOr first (L "Customer Name") [])))
    as [cid|why].
  - destruct (nullish cid); [rewrite Hc in Ho; discriminate Ho|].
    split; [reflexivity|]. rewrite Hc in Ho. injection Ho as <-.
    eexists _, _. split; [reflexivity|].
    split; [reflexivity|]. split; [reflexivity|]. split; [reflexivity|].
    split; [reflexivity|].
    split; [rewrite length_subJobsFrom; simpl; lia|].
    intros k Hk. simpl in Hk.
    rewrite nth_subJobsFrom by lia.
    replace (1 + (k - 1))%nat with k by lia.
    replace (nth k (first :: rest) []) with (nth (k - 1) rest [])
      by (destruct k; [lia|]; simpl; now rewrite Nat.sub_0_r).
    repeat split; reflexivity.
  - destruct Hc as (r & Hr & H1 & H2). rewrite Hr in Ho. injection Ho as <-.
    exists r. auto.
Qed.

Lemma outcomesOf_nth (api : Api) (customerData : list CsvRow)
      (entries : JsObject (list CsvRow)) (n : nat) (os : list GroupOutcome) :
  Forall (fun e => snd e <> []) entries ->
  outcomesOf api customerData n entries = Ok os ->
  List.length os = List.length entries
  /\ forall i invoice first rest,
       nth_error entries i = Some (invoice, first :: rest) ->
       exists o, nth_error os i = Some o
                 /\ processGroup (api (n + i)%nat) customerData invoice first rest = Ok o.
Proof.
  intro Hne. revert n os; induction Hne as [|[invoice lines] entries Hl Hne IH];
    intros n os H.
  - injection H as <-. split; [reflexivity|]. intros [|i] ? ? ? Hi; discriminate Hi.
  - cbn [snd] in Hl. destruct lines as [|first rest]; [contradiction|].
    cbn [outcomesOf] in H.
    destruct (processGroup (api n) customerData invoice first rest) as [o|e] eqn:E;
      [|discriminate H].
    cbn [bind] in H.
    destruct (outcomesOf api customerData (S n) entries) as [os'|e] eqn:E';
      [|discriminate H].
    cbn [bind] in H. injection H as <-.
    destruct (IH (S n) os' E') as [H1 H2].
    split; [simpl; now rewrite H1|].
    intros [|i] inv f r Hi.
    + injection Hi as <- <- <-. exists o. rewrite Nat.add_0_r. auto.
    + rewrite nth_error_cons_S in Hi. destruct (H2 i inv f r Hi) as (o' & Ho' & Hp).
      exists o'. split; [exact Ho'|].
      now replace (n + S i)%nat with (S n + i)%nat by lia.
Qed.

Lemma outcomesOf_total (api : Api) (customerData : list CsvRow)
      (entries : JsObject (list CsvRow)) (n : nat) :
  Forall (fun e => snd e <> []) entries ->
  (forall i invoice orders cid,
     nth_error entries i = Some (invoice, orders) ->
     lookupCustomer (api (n + i)%nat (cellOr (hd [] orders) (L "Customer Name") []))
     = Found cid ->
     nullish cid = false) ->
  exists os, outcomesOf api customerData n entries = Ok os.
Proof.
  intro Hne. revert n; induction Hne as [|[invoice lines] entries Hl Hne IH];
    intros n Hc.
  - exists []. reflexivity.
  - cbn [snd] in Hl. destruct lines as [|first rest]; [contradiction|].
    cbn [outcomesOf].
    assert (Hp : exists o, processGroup (api n) customerData invoice first rest = Ok o).
    { pose proof (processGroup_cases (api n) customerData invoice first rest) as Hg.
      specialize (Hc 0%nat invoice (first :: rest)).
      rewrite Nat.add_0_r in Hc. cbn [nth_error hd] in Hc.
      destruct (lookupCustomer (api n (cellOr first (L "Customer Name") [])))
        as [cid|why].
      - rewrite (Hc cid eq_refl eq_refl) in Hg. eauto.
      - destruct Hg as (r & Hr & _). eauto. }
    destruct Hp as [o ->]. cbn [bind].
    destruct (IH (S n)) as [os ->].
    + intros i inv orders cid Hi Hl'.
      apply (Hc (S i) inv orders cid); [exact Hi|].
      now replace (n + S i)%nat with (S n + i)%nat by lia.
    + cbn [bind]. eauto.
Qed.

Lemma ownEntries_nonempty (orderData : list CsvRow) (groups : JsObject (list CsvRow)) :
  ordersByInvoice orderData = Ok groups ->
  Forall (fun e => snd e <> []) (ownEntries groups).
Proof.
  intro H. destruct (ordersByInvoice_spec orderData groups H) as (_ & Hg & _).
  apply Forall_forall. intros [k os] Hin. cbn [snd].
  apply (proj1 (In_ownEntries _ _)) in Hin. exact (proj2 (Hg k os Hin)).
Qed.

Lemma mapOrdersToMonarch_outcomes (api : Api) (customerData orderData : list CsvRow)
      (m : MapResult) :
  mapOrdersToMonarch api customerData orderData = Ok m ->
  exists groups os,
    ordersByInvoice orderData = Ok groups
    /\ outcomesOf api customerData 0 (ownEntries groups) = Ok os
    /\ m = fold_left addOutcome os (mkMapResult [] [] []).
Proof.
  unfold mapOrdersToMonarch.
  destruct (ordersByInvoice orderData) as [groups|e] eqn:Eg; [|discriminate].
  cbn [bind]. rewrite mapGroups_outcomes.
  destruct (outcomesOf api customerData 0 (ownEntries groups)) as [os|e] eqn:E;
    [|discriminate].
  cbn [bind]. intro Hm. injection Hm as <-. eauto.
Qed.

(** What the order mapping returns, group by group. *)
Lemma mapOrdersToMonarch_groups (api : Api) (customerData orderData : list CsvRow)
      (m : MapResult) :
  mapOrdersToMonarch api customerData orderData = Ok m ->
  exists groups outcomes,
    ordersByInvoice orderData = Ok groups
    /\ List.length outcomes = List.length (ownEntries groups)
    /\ mainJobs m = mainsOf outcomes
    /\ subJobs m = subsOf outcomes
    /\ rejectedOrders m = rejectedOf outcomes
    /\ forall i invoice orders,
         nth_error (ownEntries groups) i = Some (invoice, orders) ->
         groupMapped (api i) orderData invoice orders (nth_error outcomes i).
Proof.
  unfold mapOrdersToMonarch.
  destruct (ordersByInvoice orderData) as [groups|e] eqn:Eg; [|discriminate].
  cbn [bind]. rewrite mapGroups_outcomes.
  destruct (outcomesOf api customerData 0 (ownEntries groups)) as [os|e] eqn:E;
    [|discriminate].
  cbn [bind]. intro Hm. injection Hm as <-.
  exists groups, os. split; [reflexivity|].
  destruct (outcomesOf_nth api customerData _ 0 os (ownEntries_nonempty _ _ Eg) E)
    as [Hlen Hnth].
  destruct (fold_addOutcome_lists os (mkMapResult [] [] [])) as (H1 & H2 & H3).
  split; [exact Hlen|]. split; [exact H1|]. split; [exact H2|]. split; [exact H3|].
  intros i invoice orders Hi.
  destruct (ordersByInvoice_spec orderData groups Eg) as (_ & Hg & _).
  destruct (Hg invoice orders
              (proj1 (In_ownEntries _ _) (nth_error_In _ _ Hi))) as [Hl Hne].
  destruct orders as [|first rest]; [contradiction|].
  destruct (Hnth i invoice first rest Hi) as (o & -> & Hp).
  exact (processGroup_mapped (api i) customerData orderData invoice first rest o Hl Hp).
Qed.

(** The order mapping returns when the grouping does and no looked-up first
    result lacks a customer id. *)
Lemma mapOrdersToMonarch_returns (api : Api) (customerData orderData : list CsvRow)
      (groups : JsObject (list CsvRow)) :
  ordersByInvoice orderData = Ok groups ->
  (forall i invoice orders cid,
     nth_error (ownEntries groups) i = Some (invoice, orders) ->
     lookupCustomer (api i (cellOr (hd [] orders) (L "Customer Name") [])) = Found cid ->
     nullish cid = false) ->
  exists m, mapOrdersToMonarch api customerData orderData = Ok m.
Proof.
  intros Eg Hc. unfold mapOrdersToMonarch. rewrite Eg. cbn [bind].
  rewrite mapGroups_outcomes.
  destruct (outcomesOf_total api customerData (ownEntries groups) 0
              (ownEntries_nonempty _ _ Eg) Hc) as [os ->].
  cbn [bind]. eauto.
Qed.

(** C3, evaluated where the code departs from it.  The two order lines of
    invoice 00123 form one group; the directory answers with a first result
    whose [customer_id] is [null], so the lookup succeeds in the code's own
    terms, and the conversion of the id after the [try] throws: the mapping
    ends without a main job, a sub-job or a rejected order.  With a customer
    id in the same answer the group gives one main job with a blank sub-job id
    and one sub-job numbered 1, both with the job id of the invoice.  The
    sub-job id is the index in decimal, space-padded to 4 characters, for
    indices below 10000; it keeps four characters of a longer index, so
    sub-job 10000 carries the id of sub-job 1000.  On every input on which the mapping returns, the
    jobs and rejections are those of the groups in turn, each group being
    mapped as the claim says; and it returns whenever the grouping does and
    every first result found carries a customer id. *)
Theorem C3_invoice_group :
  lookupCustomer (knownApi VNull 0%nat (L "Acme Co")) = Found VNull
  /\ mapOrdersToMonarch (knownApi VNull) [] sampleOrders = Throw nullError
  /\ match mapOrdersToMonarch (knownApi (VStr (L "ACME01"))) [] sampleOrders with
     | Ok m =>
         map (fun j => fieldValue j (L "sub_job_id")) (mainJobs m) = [ VStr (L "    ") ]
         /\ map (fun j => fieldValue j (L "sub_job_id")) (subJobs m) = [ VStr (L "1   ") ]
         /\ map (fun j => fieldValue j (L "job_id")) (mainJobs m ++ subJobs m)
            = [ VStr (L "  123   "); VStr (L "  123   ") ]
         /\ rejectedOrders m = []
     | Throw _ => False
     end
  /\ (forall k, 1 <= Z.of_nat k < 10000 -> subJobId k = padEnd 4 (decimal (Z.of_nat k)))
  /\ subJobId (Z.to_nat 10000) = L "1000" /\ subJobId 1000 = L "1000"
  /\ (forall api customerData orderData m,
        mapOrdersToMonarch api customerData orderData = Ok m ->
        exists groups outcomes,
          ordersByInvoice orderData = Ok groups
          /\ List.length outcomes = List.length (ownEntries groups)
          /\ mainJobs m = mainsOf outcomes
          /\ subJobs m = subsOf outcomes
          /\ rejectedOrders m = rejectedOf outcomes
          /\ forall i invoice orders,
               nth_error (ownEntries groups) i = Some (invoice, orders) ->
               groupMapped (api i) orderData invoice orders (nth_error outcomes i))
  /\ (forall api customerData orderData groups,
        ordersByInvoice orderData = Ok groups ->
        (forall i invoice orders cid,
           nth_error (ownEntries groups) i = Some (invoice, orders) ->
           lookupCustomer (api i (cellOr (hd [] orders) (L "Customer Name") []))
           = Found cid ->
           nullish cid = false) ->
        exists m, mapOrdersToMonarch api customerData orderData = Ok m).
Proof.
  split; [reflexivity|]. split; [vm_compute; reflexivity|].
  split; [vm_compute; repeat split; reflexivity|].
  split; [exact subJobId_decimal|].
  split; [vm_compute; reflexivity|]. split; [vm_compute; reflexivity|].
  split; [exact mapOrdersToMonarch_groups | exact mapOrdersToMonarch_returns].
Qed.
End InvoiceGroups.

(** ** C8: the orchestrators return a result object *)




(** ** C9: the rejection report *)

(** C9, evaluated where the code departs from it.  An order line of an
    unknown customer whose amount is written 1,234.56 is rejected with that
    amount; the report has the claimed header row and quotes the customer
    name, the product, the PO number and the reason, but writes the amount as
    it is, so the record reads back as eight fields instead of seven. *)
Theorem C9_unquoted_amount (host : Host) :
  mapOrdersToMonarch emptyApi [] [commaAmountOrder]
  = Ok (mkMapResult [] [] [commaAmountRejection])
  /\ generateRejectionFile [commaAmountRejection]
     = L "Invoice Number,Customer Name,Product,PO Number,Due Date,Amount,Rejection Reason"
       ++ [newline]
       ++ L "1001," ++ csvQuote (L "Unknown Corp") ++ L ","
       ++ csvQuote (L "Widget, large") ++ L "," ++ csvQuote [] ++ L ",,1,234.56,"
       ++ csvQuote notFoundReason ++ [newline]
  /\ csvFields (rejectionRow commaAmountRejection)
     = [ L "1001"; L "Unknown Corp"; L "Widget, large"; []; []; L "1"; L "234.56";
         notFoundReason ]
  /\ List.length (csvFields (rejectionRow commaAmountRejection))
     <> List.length rejectionHeaders
  /\ join comma wipRejectionHeaders
     = L "Order ID,Customer Name,Project Name,Due Date,Order Value,Rejection Reason".
Proof.
  repeat split; try (vm_compute; reflexivity).
  vm_compute. discriminate.
Qed.

(** ** Worked examples *)

(** Customer row with account name and city: bytes 9-48 and 169-208. *)
Example customer_line_fields :
  match encodeCustomerLine sampleCustomer with
  | Ok line =>
      byteRange line 1 8 = L "1       "
      /\ byteRange line 9 40 = padEnd 40 (L "Acme Co")
      /\ byteRange line 169 40 = padEnd 40 (L "Reno")
      /\ byteRange line 412 8 = L "35      "
      /\ byteRange line 486 1 = L "1"
      /\ byteRange line 747 11 = L "Origin     "
  | Throw _ => False
  end.
Proof. vm_compute. repeat split; reflexivity. Qed.

Example clean_sample_description :
  cleanProductDescription (L "Booklet - 6.5in : mailing - Sample")
  = L "Booklet - 6.5in : mailing"
  /\ cleanProductDescription (L "Shipping") = L "Shipping"
  /\ cleanProductDescription (L "Cards : front - back - extra") = L "Cards : front"
  /\ cleanProductDescription (L "Plain title") = L "Plain title".
Proof. repeat split; vm_compute; reflexivity. Qed.

(** [Object.entries] puts array-index keys first, in numeric order. *)
Example entries_order :
  map fst (ownEntries [ (L "520", 1); (L "00123", 2); (L "123", 3); (L "", 4) ])
  = [ L "123"; L "520"; L "00123"; L "" ].
Proof. vm_compute. reflexivity. Qed.

(** An unknown customer: one rejected order and no job for the invoice. *)
Example unknown_customer_rejected (host : Host) :
  mapOrdersToMonarch emptyApi []
    [ [ (L "Invoice Number", L "77"); (L "Customer Name", L "Unknown Corp") ] ]
  = Ok (mkMapResult [] []
          [ mkRejected (L "77") (L "Unknown Corp") [] [] [] [] notFoundReason ]).
Proof. vm_compute. reflexivity. Qed.

(** A directory error on the first invoice does not stop the second one. *)
Example api_error_then_success (host : Host) :
  let api : Api := fun n _ => match n with
                              | O => Throw (Error (L "API error: 500"))
                              | _ => Ok (ArrayOf [ItemWith (VStr (L "BETA0001"))])
                              end in
  match mapOrdersToMonarch api []
          [ [ (L "Invoice Number", L "A-1"); (L "Customer Name", L "Acme Co") ];
            [ (L "Invoice Number", L "B-2"); (L "Customer Name", L "Beta LLC") ] ] with
  | Ok m =>
      map reason (rejectedOrders m) = [ L "API Error: API error: 500" ]
      /\ map (fun j => fieldValue j (L "job_id")) (mainJobs m) = [ VStr (L "B-2     ") ]
      /\ map (fun j => fieldValue j (L "cust_ordered_by")) (mainJobs m)
         = [ VStr (L "BETA0001") ]
  | Throw _ => False
  end.
Proof. vm_compute. repeat split; reflexivity. Qed.

(** The WIP filter on an alphanumeric and on a numeric order id. *)
Example wip_filter_rows :
  let st := filterValidOrders
              [ [ (L "Order ID", VStr (L "ABC12")); (L "Customer Name", VStr (L "Acme Co")) ];
                [ (L "order id ", VStr (L " 12345 ")) ];
                [ (L "Customer Name", VStr (L "Beta LLC")) ] ] in
  map rowNumber (skippedRows st) = [ 2%nat; 4%nat ]
  /\ map skippedReason (skippedRows st)
     = [ L "Invalid Order ID format: ABC12"; L "Missing Order ID" ]
  /\ map (fun row => prop row (L "_orderId")) (filteredData st) = [ VStr (L " 12345 ") ].
Proof. vm_compute. repeat split; reflexivity. Qed.

Example wip_job_line (host : Host) :
  match processRow (knownApi (VStr (L "ACME01")) 0%nat) (markValid flyerRow) with
  | Ok (RowJob job) =>
      byteRange (encodeWipLine job) 1 8 = L "N20002  "
      /\ byteRange (encodeWipLine job) 9 4 = L "    "
      /\ byteRange (encodeWipLine job) 301 8 = L "ACME01  "
      /\ byteRange (encodeWipLine job) 461 15 = padEnd 15 (L "0.00")
      /\ byteRange (encodeWipLine job) 496 50 = padEnd 50 (L "Flyers")
  | _ => False
  end.
Proof. vm_compute. repeat split; reflexivity. Qed.

(* ================================================================== *)
(** * Part III: further properties of the code *)

(** ** The encoders on arbitrary records *)

Lemma nth_paint (text : JsVal -> str) (line : list ascii) (e : str * FieldDef) (k : nat) :
  (k < List.length line)%nat ->
  nth k (paint text line e) space
  = if touches text k e then charAt text k e else nth k line space.
Proof.
  intro Hk. unfold paint, touches, charAt. rewrite nth_place.
  replace (k <? List.length line)%nat with true by (symmetry; now apply Nat.ltb_lt).
  now rewrite andb_true_r.
Qed.

Lemma nth_fold_paint_last (text : JsVal -> str) (r : RecordInstance) (n k : nat) :
  (k < n)%nat ->
  nth k (fold_left (paint text) r (spaces n)) space = lastWritten text k r.
Proof.
  intro Hk. unfold lastWritten.
  induction r as [|e r IH] using rev_ind.
  - simpl. unfold spaces. apply nth_repeat.
  - rewrite fold_left_app, rev_app_distr. cbn [fold_left rev app find].
    rewrite nth_paint by now rewrite length_fold_paint, length_spaces.
    destruct (touches text k e); auto.
Qed.

(** X1.  Closed form of an encoded line, for any record whatever its
    positions, lengths and overlaps: each character of the line is the one
    assigned by the last entry (in [Object.entries] order) whose loop reaches
    that index, and a space if no entry reaches it.  An entry reaches the
    indices [pos-1 .. pos-1+min(len, value.length)-1]; indices outside the
    line are dropped. *)
Theorem X1_last_writer_wins (t : RecordType) (r : RecordInstance)
        (line : list ascii) (k : nat) :
  encode t r = Ok line ->
  (k < lineLength t)%nat ->
  nth k line space = lastWritten (textFor t) k (dataFields t r).
Proof.
  intros He Hk. rewrite encode_paint in He.
  destruct (match t with CustomerType => hasNull r | _ => false end); [discriminate|].
  injection He as <-. now apply nth_fold_paint_last.
Qed.

Lemma X1_witness :
  nth 0 (encodeJobLine [ (L "a", mkField (VStr (L "abcdef")) 1 4);
                         (L "b", mkField (VStr (L "XY")) 3 9);
                         (L "c", mkField (VStr (L "zz")) 560 5) ]) space = "a"%char
  /\ nth 2 (encodeJobLine [ (L "a", mkField (VStr (L "abcdef")) 1 4);
                            (L "b", mkField (VStr (L "XY")) 3 9);
                            (L "c", mkField (VStr (L "zz")) 560 5) ]) space = "X"%char.
Proof.
  split.
  - exact (X1_last_writer_wins JobType _ _ 0%nat eq_refl ltac:(vm_compute; lia)).
  - exact (X1_last_writer_wins JobType _ _ 2%nat eq_refl ltac:(vm_compute; lia)).
Defined.

Lemma forallb_Permutation {A} (f : A -> bool) (l l' : list A) :
  Permutation.Permutation l l' -> forallb f l = forallb f l'.
Proof.
  induction 1; simpl; auto.
  - now rewrite IHPermutation.
  - now rewrite !andb_assoc, (andb_comm (f y)).
  - congruence.
Qed.

Lemma noOverlap_sym (a b : str * Z * Z) : noOverlap a b = noOverlap b a.
Proof. unfold noOverlap. apply orb_comm. Qed.

Lemma pairwiseDisjoint_Permutation (l l' : Layout) :
  Permutation.Permutation l l' -> pairwiseDisjoint l = pairwiseDisjoint l'.
Proof.
  induction 1; simpl; auto.
  - now rewrite IHPermutation, (forallb_Permutation _ _ _ H).
  - rewrite (noOverlap_sym y x).
    destruct (noOverlap x y), (forallb (noOverlap x) l), (forallb (noOverlap y) l);
      reflexivity.
  - congruence.
Qed.

Lemma fold_paint_Permutation (text : JsVal -> str) (r r' : RecordInstance) (n : nat) :
  pairwiseDisjoint (layoutOf r) = true ->
  Permutation.Permutation r r' ->
  fold_left (paint text) r (spaces n) = fold_left (paint text) r' (spaces n).
Proof.
  intros Hd Hp.
  assert (Hd' : pairwiseDisjoint (layoutOf r') = true).
  { rewrite <- Hd. symmetry. apply pairwiseDisjoint_Permutation.
    now apply Permutation.Permutation_map. }
  apply (nth_ext _ _ space space); [now rewrite !length_fold_paint|].
  intros k Hk. rewrite length_fold_paint, length_spaces in Hk.
  destruct (Exists_dec (fun e => pos (snd e) - 1 <= Z.of_nat k
                                 < pos (snd e) - 1 + len (snd e)) r) as [Hex|Hno].
  - intro e. destruct (Z_le_dec (pos (snd e) - 1) (Z.of_nat k));
      destruct (Z_lt_dec (Z.of_nat k) (pos (snd e) - 1 + len (snd e))); [left|right..]; lia.
  - apply Exists_exists in Hex as (e & Hin & Hr).
    rewrite (nth_fold_paint_inside text r n e k Hd Hin Hr Hk).
    now rewrite (nth_fold_paint_inside text r' n e k Hd'
                   (Permutation.Permutation_in _ Hp Hin) Hr Hk).
  - assert (Hout : Forall (outsideOf k) r).
    { apply Forall_forall. intros e Hin. unfold outsideOf.
      destruct (Z_lt_dec (Z.of_nat k) (pos (snd e) - 1)); [now left|].
      destruct (Z_le_dec (pos (snd e) - 1 + len (snd e)) (Z.of_nat k)); [now right|].
      exfalso. apply Hno. apply Exists_exists. exists e. split; auto. lia. }
    rewrite !nth_fold_paint_outside; auto.
    apply Forall_forall. intros e Hin. rewrite Forall_forall in Hout.
    apply Hout. apply (Permutation.Permutation_in _ (Permutation.Permutation_sym Hp) Hin).
Qed.

(** X2.  For a job record whose fields do not overlap, the encoded line does
    not depend on the order in which the object's entries are enumerated. *)
Theorem X2_entry_order_irrelevant (r r' : RecordInstance) :
  pairwiseDisjoint (layoutOf r) = true ->
  Permutation.Permutation r r' ->
  encodeJobLine r = encodeJobLine r'.
Proof.
  intros Hd Hp. rewrite !encodeJobLine_paint. now apply fold_paint_Permutation.
Qed.

Lemma X2_witness : encodeJobLine sampleJob = encodeJobLine (rev sampleJob).
Proof.
  apply X2_entry_order_irrelevant.
  - reflexivity.
  - apply Permutation.Permutation_rev.
Defined.

(** ** Files of encoded lines *)

Lemma line_at_concat (lines : list (list ascii)) (n i : nat) :
  Forall (fun l => List.length l = n) lines ->
  (i < List.length lines)%nat ->
  firstn n (skipn (i * S n) (List.concat (map (fun l => l ++ [newline]) lines)))
  = nth i lines []
  /\ nth (i * S n + n) (List.concat (map (fun l => l ++ [newline]) lines)) space
     = newline.
Proof.
  intros Hall. revert i; induction Hall as [|l lines Hl Hall IH]; intros i Hi;
    [simpl in Hi; lia|].
  cbn [map List.concat]. destruct i as [|i].
  - cbn [Nat.mul Nat.add skipn nth]. split.
    + rewrite <- app_assoc, firstn_app, firstn_all2 by lia.
      replace (n - List.length l)%nat with 0%nat by lia. simpl. apply app_nil_r.
    + rewrite <- app_assoc, app_nth2 by lia.
      replace (n - List.length l)%nat with 0%nat by lia. reflexivity.
  - cbn [List.length] in Hi. destruct (IH i ltac:(lia)) as [H1 H2].
    assert (Hlen : List.length (l ++ [newline]) = S n)
      by (rewrite length_app; simpl; lia).
    split.
    + replace (S i * S n)%nat with (List.length (l ++ [newline]) + i * S n)%nat by lia.
      rewrite skipn_app, skipn_all2 by lia.
      replace (List.length (l ++ [newline]) + i * S n - List.length (l ++ [newline]))%nat
        with (i * S n)%nat by lia.
      simpl app. exact H1.
    + replace (S i * S n + n)%nat with (List.length (l ++ [newline]) + (i * S n + n))%nat
        by lia.
      rewrite app_nth2_plus. exact H2.
Qed.

Lemma encodeCustomers_lines (rs : list RecordInstance) (file : str) :
  encodeCustomers rs = Ok file ->
  exists lines,
    Forall2 (fun r l => encodeCustomerLine r = Ok l) rs lines
    /\ file = List.concat (map (fun l => l ++ [newline]) lines).
Proof.
  revert file; induction rs as [|r rs IH]; intros file H.
  - injection H as <-. exists []. split; [constructor|reflexivity].
  - cbn [encodeCustomers] in H.
    destruct (encodeCustomerLine r) as [line|e] eqn:El; [|discriminate].
    cbn [bind] in H.
    destruct (encodeCustomers rs) as [rest|e] eqn:Er; [|discriminate].
    cbn [bind] in H. injection H as <-.
    destruct (IH rest eq_refl) as (lines & Hf & ->).
    exists (line :: lines). split; [now constructor|].
    cbn [map List.concat]. now rewrite <- app_assoc.
Qed.

Lemma encodeFile_lines (t : RecordType) (rs : list RecordInstance) (file : str) :
  encodeFile t rs = Ok file ->
  exists lines,
    Forall2 (fun r l => encode t r = Ok l) rs lines
    /\ file = List.concat (map (fun l => l ++ [newline]) lines).
Proof.
  destruct t; simpl.
  - apply encodeCustomers_lines.
  - intros [= <-]. exists (map encodeJobLine rs). split.
    + induction rs; simpl; constructor; auto.
    + unfold generateFixedWidthFile. now rewrite map_map.
  - intros [= <-]. exists (map encodeWipLine rs). split.
    + induction rs; simpl; constructor; auto.
    + unfold wipGenerateFixedWidthFile. now rewrite map_map.
Qed.

Lemma Forall2_nth {A B} (R : A -> B -> Prop) (l : list A) (l' : list B) (i : nat)
      (a : A) (b : B) :
  Forall2 R l l' -> (i < List.length l)%nat -> R (nth i l a) (nth i l' b).
Proof.
  intro H. revert i; induction H; intros [|i] Hi; simpl in *; try lia; auto.
  apply IHForall2. lia.
Qed.

(** X3.  A generated file is laid out by position: record [i] (0-based)
    occupies the characters from [i * (n + 1)] on, [n] characters of encoded
    line followed by one line feed, where [n] is 758 for customers and 560
    for jobs; this holds whatever characters the values contain. *)
Theorem X3_file_layout (t : RecordType) (rs : list RecordInstance) (file : str)
        (i : nat) :
  encodeFile t rs = Ok file ->
  (i < List.length rs)%nat ->
  List.length file = (List.length rs * S (lineLength t))%nat
  /\ encode t (nth i rs []) = Ok (firstn (lineLength t) (skipn (i * S (lineLength t)) file))
  /\ nth (i * S (lineLength t) + lineLength t) file space = newline.
Proof.
  intros Hf Hi.
  destruct (encodeFile_lines t rs file Hf) as (lines & H2 & ->).
  assert (Hall : Forall (fun l => List.length l = lineLength t) lines).
  { clear Hi Hf. induction H2 as [|r l rs' ls' Hrl _ IH]; constructor; auto.
    exact (length_encode t r l Hrl). }
  assert (Hlen : List.length lines = List.length rs)
    by (symmetry; eapply Forall2_length; eauto).
  destruct (line_at_concat lines (lineLength t) i Hall ltac:(lia)) as [H3 H4].
  split; [|split; [|exact H4]].
  - rewrite <- Hlen. clear - Hall. induction Hall; simpl; auto.
    rewrite length_app, IHHall, length_app. simpl. lia.
  - rewrite H3. exact (Forall2_nth _ rs lines i [] [] H2 Hi).
Qed.

Lemma X3_witness :
  encode JobType sampleJob
  = Ok (firstn 560 (skipn 561 (generateFixedWidthFile [zeroQtyJob; sampleJob]))).
Proof.
  exact (proj1 (proj2 (X3_file_layout JobType [zeroQtyJob; sampleJob] _ 1%nat eq_refl
                         ltac:(simpl; lia)))).
Defined.

(** ** What the viewer reads back *)

Lemma startsWith_newline (c : ascii) (s : str) :
  startsWith [newline] (c :: s) = if ascii_dec newline c then true else false.
Proof. simpl. now destruct (ascii_dec newline c). Qed.

Lemma splitGo_line (l : str) (fuel : nat) (cur rest : str) :
  ~ In newline l ->
  (List.length l + List.length rest + 2 <= fuel)%nat ->
  splitGo fuel [newline] cur (l ++ newline :: rest)
  = (rev cur ++ l) :: splitGo (fuel - List.length l - 1) [newline] [] rest.
Proof.
  revert fuel cur; induction l as [|c l IH]; intros fuel cur Hn Hf.
  - destruct fuel as [|fuel]; [simpl in Hf; lia|].
    cbn [app splitGo]. rewrite startsWith_newline.
    destruct (ascii_dec newline newline); [|contradiction].
    cbn [List.length skipn]. rewrite app_nil_r.
    now replace (S fuel - 0 - 1)%nat with fuel by lia.
  - destruct fuel as [|fuel]; [simpl in Hf; lia|].
    cbn [app splitGo]. rewrite startsWith_newline.
    destruct (ascii_dec newline c) as [<-|Hc]; [exfalso; apply Hn; now left|].
    rewrite IH.
    + cbn [rev List.length]. rewrite <- app_assoc. reflexivity.
    + intro H. apply Hn. now right.
    + cbn [List.length] in Hf. lia.
Qed.

Lemma splitGo_lines (lines : list str) (fuel : nat) :
  Forall (fun l => ~ In newline l) lines ->
  (List.length (List.concat (map (fun l => l ++ [newline]) lines)) < fuel)%nat ->
  splitGo fuel [newline] [] (List.concat (map (fun l => l ++ [newline]) lines))
  = lines ++ [[]].
Proof.
  intro H. revert fuel; induction H as [|l lines Hl Hall IH]; intros fuel Hf.
  - destruct fuel; [simpl in Hf; lia|]. reflexivity.
  - cbn [map List.concat] in *. rewrite <- app_assoc in *. cbn [app] in *.
    rewrite length_app in Hf. cbn [List.length] in Hf.
    rewrite splitGo_line by (auto; lia).
    cbn [rev app]. f_equal. apply IH. lia.
Qed.

Lemma place_keeps (P : ascii -> Prop) (s : str) (line : list ascii) (p ln : Z) :
  Forall P line -> Forall P s -> Forall P (place line p ln s).
Proof.
  intros Hl Hs. unfold place.
  assert (Hf : Forall P (firstn (written ln s) s)).
  { apply Forall_forall. intros c Hc. rewrite Forall_forall in Hs.
    apply Hs. rewrite <- (firstn_skipn (written ln s) s).
    apply in_or_app. now left. }
  revert line p Hl. induction Hf as [|c cs Hc Hcs IH]; intros line p Hl; simpl; auto.
  apply IH. unfold setChar. destruct (_ && _); auto.
  clear - Hl Hc. revert Hl. generalize (Z.to_nat p) as n.
  induction line as [|x line IHl]; intros n Hl; destruct n; simpl; auto;
    inversion Hl; subst; constructor; auto.
Qed.

Lemma encodeJobLine_keeps (P : ascii -> Prop) (r : RecordInstance) :
  P space ->
  Forall (fun e => Forall P (jobText (value (snd e)))) r ->
  Forall P (encodeJobLine r).
Proof.
  intros Hsp Hr. rewrite encodeJobLine_paint.
  assert (H0 : Forall P (spaces 560)) by (apply Forall_forall; intros c Hc;
    apply repeat_spec in Hc; now subst).
  revert H0. generalize (spaces 560). induction Hr as [|e r He Hr IH]; intros line H0;
    simpl; auto.
  apply IH. unfold paint. now apply place_keeps.
Qed.

(** X4.  When no value written into a job file contains a line feed, the
    viewer's [split] of the generated file yields exactly the
    encoded lines, one per job and in order, followed by one empty string. *)
Theorem X4_viewer_reads_lines (jobs : list RecordInstance) :
  Forall (fun job => Forall (fun e => ~ In newline (jobText (value (snd e)))) job) jobs ->
  viewerLines (generateFixedWidthFile jobs) = map encodeJobLine jobs ++ [[]].
Proof.
  intro H. unfold viewerLines, split, generateFixedWidthFile.
  rewrite <- (map_map encodeJobLine (fun l => l ++ [newline])).
  apply splitGo_lines; [|lia].
  apply Forall_forall. intros l Hl. apply in_map_iff in Hl as (job & <- & Hjob).
  rewrite Forall_forall in H. specialize (H job Hjob).
  assert (Hk : Forall (fun c => c <> newline) (encodeJobLine job)).
  { apply encodeJobLine_keeps; [discriminate|].
    apply Forall_forall. intros e He. rewrite Forall_forall in H.
    specialize (H e He). apply Forall_forall. intros c Hc ->. now apply H. }
  rewrite Forall_forall in Hk. intro Hin. now apply (Hk _ Hin).
Qed.

Lemma no_newline_check (jobs : list RecordInstance) :
  forallb (fun job =>
             forallb (fun e => negb (existsb (Ascii.eqb newline) (jobText (value (snd e)))))
                     job) jobs = true ->
  Forall (fun job => Forall (fun e => ~ In newline (jobText (value (snd e)))) job) jobs.
Proof.
  intro H. rewrite forallb_forall in H.
  apply Forall_forall. intros job Hjob. specialize (H job Hjob).
  rewrite forallb_forall in H. apply Forall_forall. intros e He Hin.
  specialize (H e He). apply negb_true_iff in H.
  assert (existsb (Ascii.eqb newline) (jobText (value (snd e))) = true)
    by (apply existsb_exists; exists newline; split; auto; apply Ascii.eqb_refl).
  congruence.
Qed.

Lemma X4_witness :
  viewerLines (generateFixedWidthFile [sampleJob; zeroQtyJob])
  = [encodeJobLine sampleJob; encodeJobLine zeroQtyJob; []].
Proof.
  apply (X4_viewer_reads_lines [sampleJob; zeroQtyJob]).
  apply no_newline_check. vm_compute. reflexivity.
Defined.

Lemma viewerFieldAt_outside (fields : Layout) (lo hi c : Z) :
  forallb (fun f => (lo <=? snd (fst f)) && (snd (fst f) + snd f <=? hi)) fields = true ->
  c < lo \/ hi <= c ->
  viewerFieldAt fields c = None.
Proof.
  intros H Hc. unfold viewerFieldAt.
  induction fields as [|f fields IH]; auto.
  cbn [forallb] in H. apply andb_true_iff in H as [Hf H].
  apply andb_true_iff in Hf as [H1 H2]. apply Z.leb_le in H1, H2.
  cbn [find].
  destruct (Z.leb_spec (snd (fst f)) c), (Z.ltb_spec c (snd (fst f) + snd f));
    cbn [andb]; auto; lia.
Qed.

Lemma viewerFieldAt_app (l1 l2 : Layout) (c : Z) :
  viewerFieldAt (l1 ++ l2) c
  = match viewerFieldAt l1 c with Some f => Some f | None => viewerFieldAt l2 c end.
Proof.
  unfold viewerFieldAt. induction l1 as [|f l1 IH]; auto.
  cbn [app find]. now destruct (_ && _).
Qed.

Lemma viewer_no_field_job (charPos : Z) :
  viewerFieldAt viewerJobFields charPos = None <-> charPos < 1 \/ 546 <= charPos.
Proof.
  split.
  - intro H.
    destruct (Z_lt_dec charPos 1); [now left|].
    destruct (Z_le_dec 546 charPos); [now right|]. exfalso.
    assert (Hc : forallb (fun n => match viewerFieldAt viewerJobFields (Z.of_nat n) with
                                   | Some _ => true | None => false end)
                         (seq 1 545) = true) by (vm_compute; reflexivity).
    rewrite forallb_forall in Hc.
    specialize (Hc (Z.to_nat charPos) ltac:(apply in_seq; lia)).
    rewrite Z2Nat.id, H in Hc by lia. discriminate.
  - apply (viewerFieldAt_outside viewerJobFields 1 546). vm_compute. reflexivity.
Qed.

(** X5.  The viewer's field tables against the encoders' layouts: the
    customer table is the customer layout; the job table is the job layout
    without its last field, so the viewer attributes positions 1..545 of a
    job line to the encoder's fields and attributes no field to positions
    546..560, where the encoder writes forest_type_id. *)
Theorem X5_viewer_fields (charPos : Z) :
  viewerCustomerFields = customerLayout
  /\ viewerJobFields = removelast jobLayout
  /\ viewerFieldAt viewerCustomerFields charPos = viewerFieldAt customerLayout charPos
  /\ (viewerFieldAt viewerJobFields charPos = None <-> charPos < 1 \/ 546 <= charPos)
  /\ (546 <= charPos <= 560 ->
      viewerFieldAt jobLayout charPos = Some (L "forest_type_id", 546, 15)).
Proof.
  split; [reflexivity|]. split; [reflexivity|]. split; [reflexivity|].
  split; [apply viewer_no_field_job|].
  intro H.
  change jobLayout with (viewerJobFields ++ [(L "forest_type_id", 546, 15)]).
  rewrite viewerFieldAt_app.
  rewrite (proj2 (viewer_no_field_job charPos)) by lia.
  unfold viewerFieldAt. cbn [find fst snd].
  destruct (Z.leb_spec 546 charPos), (Z.ltb_spec charPos (546 + 15)); cbn [andb];
    try reflexivity; lia.
Qed.

(** ** The customer file *)

Section CustomerFile.
Context {host : Host}.

Lemma length_mapCustomersFrom (c : Z) (rows : list CustomerRow) :
  List.length (mapCustomersFrom c rows) = List.length rows.
Proof. revert c; induction rows as [|row rows IH]; intro c; simpl; auto. Qed.

Lemma nth_mapCustomersFrom (rows : list CustomerRow) (c : Z) (i : nat) :
  (i < List.length rows)%nat ->
  nth i (mapCustomersFrom c rows) [] = customerRecord (c + Z.of_nat i + 1) (nth i rows []).
Proof.
  revert c i; induction rows as [|row rows IH]; intros c i Hi; simpl in Hi; [lia|].
  destruct i as [|i]; cbn [mapCustomersFrom nth].
  - f_equal. lia.
  - rewrite IH by lia. f_equal. lia.
Qed.

Lemma encodeCustomers_mapped (rows : list CustomerRow) (c : Z) :
  exists file, encodeCustomers (mapCustomersFrom c rows) = Ok file.
Proof.
  revert c; induction rows as [|row rows IH]; intro c; cbn [mapCustomersFrom encodeCustomers].
  - eauto.
  - rewrite encodeCustomerLine_paint, hasNull_customerRecord. cbn [bind].
    destruct (IH (c + 1)) as (rest & ->). cbn [bind]. eauto.
Qed.

(** X6.  Generating the customer file never throws, whatever the parsed
    rows hold (missing columns, numbers, booleans, [null] cells): the file has
    759 characters per row, and the record of row [i] (0-based) carries the
    running customer code [i + 1] in its first field, left-aligned in 8
    characters. *)
Theorem X6_customer_file (rows : list CustomerRow) :
  exists file,
    generateCustomerImportFile rows = Ok file
    /\ List.length file = (List.length rows * 759)%nat
    /\ forall i, (i < List.length rows)%nat ->
         byteRange (firstn 758 (skipn (i * 759) file)) 1 8
         = fieldImage 8 (decimal (Z.of_nat i + 1)).
Proof.
  unfold generateCustomerImportFile, mapCustomerListToMonarch.
  destruct (encodeCustomers_mapped rows 0) as (file & Hf).
  exists file. split; [exact Hf|].
  destruct (encodeFile_lines CustomerType _ _ Hf) as (lines & H2 & ->).
  assert (Hall : Forall (fun l => List.length l = 758%nat) lines).
  { clear Hf. induction H2 as [|r l rs' ls' Hrl _ IH]; constructor; auto.
    exact (length_encode CustomerType r l Hrl). }
  assert (Hlen : List.length lines = List.length rows).
  { rewrite <- (length_mapCustomersFrom 0 rows). symmetry.
    eapply Forall2_length; eauto. }
  split.
  - rewrite <- Hlen. clear - Hall. induction Hall; simpl; auto.
    rewrite length_app, IHHall, length_app. simpl. lia.
  - intros i Hi.
    destruct (line_at_concat lines 758 i Hall ltac:(lia)) as [H3 _].
    change (S 758) with 759%nat in H3. rewrite H3.
    pose proof (Forall2_nth _ _ lines i [] [] H2
                  ltac:(rewrite length_mapCustomersFrom; exact Hi)) as He.
    cbv beta in He. rewrite nth_mapCustomersFrom in He by exact Hi.
    exact (encode_byteRange CustomerType
             (customerRecord (0 + Z.of_nat i + 1) (nth i rows [])) (nth i lines [])
             (L "Cust-code", mkField (VNum (0 + Z.of_nat i + 1)) 1 8)
             eq_refl He (or_introl eq_refl)).
Qed.
End CustomerFile.

(** ** Invoice groups and what becomes of every order line *)

Lemma total_setProp_some (g : JsObject (list CsvRow)) (k : str) (os v : list CsvRow) :
  getProp g k = Some os ->
  (List.length (List.concat (map snd (setProp g k v))) + List.length os
   = List.length (List.concat (map snd g)) + List.length v)%nat.
Proof.
  induction g as [|[k' v'] g IH]; simpl; [discriminate|].
  destruct (str_eqb k' k); simpl; rewrite !length_app.
  - intros [= ->]. lia.
  - intro H. specialize (IH H). lia.
Qed.

Lemma total_setProp_none (g : JsObject (list CsvRow)) (k : str) (v : list CsvRow) :
  getProp g k = None ->
  List.length (List.concat (map snd (setProp g k v)))
  = (List.length (List.concat (map snd g)) + List.length v)%nat.
Proof.
  induction g as [|[k' v'] g IH]; simpl.
  - intros _. rewrite app_nil_r. reflexivity.
  - destruct (str_eqb k' k); [discriminate|]. simpl. rewrite !length_app.
    intro H. rewrite (IH H). lia.
Qed.

Lemma total_appendOrders (orderData : list CsvRow) :
  List.length (List.concat (map snd (appendOrders orderData))) = List.length orderData.
Proof.
  unfold appendOrders.
  induction orderData as [|o data IH] using rev_ind; auto.
  rewrite fold_left_app, length_app. cbn [fold_left List.length].
  unfold appendOrder at 1.
  destruct (getProp (fold_left appendOrder data []) (invoiceOf o)) as [os|] eqn:E.
  - pose proof (total_setProp_some _ _ _ (os ++ [o]) E) as H.
    rewrite length_app in H. simpl in H. lia.
  - rewrite (total_setProp_none _ _ _ E). simpl. lia.
Qed.

Lemma total_ordersByInvoice (orderData : list CsvRow) (groups : JsObject (list CsvRow)) :
  ordersByInvoice orderData = Ok groups ->
  List.length (List.concat (map snd groups)) = List.length orderData.
Proof.
  intro H. rewrite (ordersByInvoice_appendOrders _ _ H). apply total_appendOrders.
Qed.

(** X7.  The grouping loop of the order mapping ends in one of two ways.
    It throws a [TypeError] exactly when some invoice number is a name that
    the object inherits from [Object.prototype] (constructor, toString,
    __proto__ and the like): under such a name the object holds a value that
    is truthy and has no [push].  Otherwise it partitions the order file: the
    keys of the grouped object are distinct, each group is non-empty and holds
    exactly the order lines of its invoice number in file order, every order
    line lies in the group of its invoice number, and the groups together hold
    as many lines as the file; a line without invoice number (missing or empty
    cell) goes to the group of the empty key. *)
Theorem X7_invoice_groups_partition (orderData : list CsvRow) :
  match ordersByInvoice orderData with
  | Throw e =>
      (exists detail, e = TypeError detail)
      /\ Exists (fun o => In (invoiceOf o) inheritedNames) orderData
  | Ok groups =>
      Forall (fun o => ~ In (invoiceOf o) inheritedNames) orderData
      /\ NoDup (map fst groups)
      /\ (forall k os, In (k, os) groups -> os = linesOf k orderData /\ os <> [])
      /\ (forall o, In o orderData ->
            In (invoiceOf o, linesOf (invoiceOf o) orderData) groups
            /\ (cellOr o (L "Invoice Number") [] = [] -> invoiceOf o = []))
      /\ List.length (List.concat (map snd groups)) = List.length orderData
  end.
Proof.
  pose proof (ordersByInvoice_cases orderData) as Hc.
  destruct (ordersByInvoice orderData) as [groups|e] eqn:E.
  - destruct Hc as [Hn _].
    destruct (ordersByInvoice_spec orderData groups E) as (H1 & H2 & H3).
    split.
    { eapply Forall_impl; [|exact Hn]. intros o Ho Hin.
      apply inheritedName_spec in Hin. congruence. }
    split; [exact H1|]. split; [exact H2|]. split.
    + intros o Ho. split; [now apply H3|]. auto.
    + exact (total_ordersByInvoice orderData groups E).
  - destruct Hc as [-> Hex]. split; [eexists; reflexivity|].
    eapply Exists_impl; [|exact Hex]. intros o Ho. now apply inheritedName_spec.
Qed.

(** An order file that holds the invoice number constructor is not mapped at
    all, whatever the directory answers. *)
Example constructor_invoice (host : Host) (api : Api) :
  mapOrdersToMonarch api [] (sampleOrders ++ [constructorOrder]) = Throw pushError.
Proof. reflexivity. Qed.

Lemma Permutation_insertByIndex {V} (e : str * V) (l : JsObject V) :
  Permutation.Permutation (insertByIndex e l) (e :: l).
Proof.
  induction l as [|x l IH]; simpl; auto.
  destruct (indexValue (fst e) <? indexValue (fst x)); auto.
  eapply Permutation.perm_trans; [apply Permutation.perm_skip, IH|].
  apply Permutation.perm_swap.
Qed.

Lemma Permutation_filter_split {A} (f : A -> bool) (l : list A) :
  Permutation.Permutation (filter f l ++ filter (fun x => negb (f x)) l) l.
Proof.
  induction l as [|x l IH]; simpl; auto.
  destruct (f x); simpl.
  - now apply Permutation.perm_skip.
  - eapply Permutation.perm_trans;
      [apply Permutation.Permutation_sym, Permutation.Permutation_middle|].
    now apply Permutation.perm_skip.
Qed.

(** [Object.entries] enumerates every own property once. *)
Lemma Permutation_ownEntries {V} (o : JsObject V) :
  Permutation.Permutation (ownEntries o) o.
Proof.
  unfold ownEntries.
  eapply Permutation.perm_trans; [|apply (Permutation_filter_split (fun e => isArrayIndex (fst e)))].
  apply Permutation.Permutation_app_tail.
  induction (filter (fun e => isArrayIndex (fst e)) o) as [|x l IH]; simpl; auto.
  eapply Permutation.perm_trans; [apply Permutation_insertByIndex|].
  now apply Permutation.perm_skip.
Qed.

Lemma total_Permutation (g g' : JsObject (list CsvRow)) :
  Permutation.Permutation g g' ->
  List.length (List.concat (map snd g)) = List.length (List.concat (map snd g')).
Proof.
  induction 1; simpl; rewrite ?length_app; auto; try lia.
Qed.

Section Conservation.
Context {host : Host}.

Lemma processGroup_shape (search : str -> ApiOutcome) (customerData : list CsvRow)
      (invoice : str) (first : CsvRow) (rest : list CsvRow) (o : GroupOutcome) :
  processGroup search customerData invoice first rest = Ok o ->
  match o with
  | GroupJobs main subs => List.length subs = List.length rest
  | GroupRejected r => invoiceNumber r = invoice
  end.
Proof.
  unfold processGroup.
  destruct (lookupCustomer _) as [cid|why].
  - destruct (customerId8 cid); cbn [bind]; [|discriminate].
    intros [= <-]. apply length_subJobsFrom.
  - intros [= <-]. reflexivity.
Qed.

Lemma outcomesOf_lines (api : Api) (customerData orderData : list CsvRow)
      (entries : JsObject (list CsvRow)) (n : nat) (os : list GroupOutcome) :
  (forall k lines, In (k, lines) entries -> lines = linesOf k orderData /\ lines <> []) ->
  outcomesOf api customerData n entries = Ok os ->
  List.length os = List.length entries
  /\ list_sum (map (linesIn orderData) os) = List.length (List.concat (map snd entries)).
Proof.
  revert n os; induction entries as [|[invoice lines] entries IH]; intros n os Hg H.
  - injection H as <-. auto.
  - destruct (Hg invoice lines (or_introl eq_refl)) as [Hl Hne].
    destruct lines as [|first rest]; [contradiction|].
    cbn [outcomesOf] in H.
    destruct (processGroup (api n) customerData invoice first rest) as [o|e] eqn:E;
      [|discriminate].
    cbn [bind] in H.
    destruct (outcomesOf api customerData (S n) entries) as [os'|e] eqn:E';
      [|discriminate].
    cbn [bind] in H. injection H as <-.
    destruct (IH (S n) os' (fun k l Hin => Hg k l (or_intror Hin)) E') as [H1 H2].
    split; [simpl; now rewrite H1|].
    change (list_sum (map (linesIn orderData) (o :: os')))
      with (linesIn orderData o + list_sum (map (linesIn orderData) os'))%nat.
    change (List.concat (map snd ((invoice, first :: rest) :: entries)))
      with ((first :: rest) ++ List.concat (map snd entries)).
    rewrite length_app, H2. f_equal.
    pose proof (processGroup_shape _ _ _ _ _ _ E) as Hs.
    destruct o as [main subs|r]; unfold linesIn.
    + rewrite Hs. reflexivity.
    + rewrite Hs, <- Hl. reflexivity.
Qed.

Lemma fold_addOutcome_counts (orderData : list CsvRow) (os : list GroupOutcome)
      (acc : MapResult) :
  let m := fold_left addOutcome os acc in
  (List.length (mainJobs m) + List.length (rejectedOrders m)
   = List.length (mainJobs acc) + List.length (rejectedOrders acc) + List.length os)%nat
  /\ (List.length (mainJobs m) + List.length (subJobs m)
      + list_sum (map (fun r => List.length (linesOf (invoiceNumber r) orderData))
                      (rejectedOrders m))
      = List.length (mainJobs acc) + List.length (subJobs acc)
        + list_sum (map (fun r => List.length (linesOf (invoiceNumber r) orderData))
                        (rejectedOrders acc))
        + list_sum (map (linesIn orderData) os))%nat.
Proof.
  revert acc; induction os as [|o os IH]; intro acc; cbn [fold_left].
  - simpl. lia.
  - destruct (IH (addOutcome acc o)) as [H1 H2]. cbv zeta. rewrite H1, H2.
    destruct o as [main subs|r]; simpl;
      rewrite ?length_app, ?map_app, ?list_sum_app; simpl; lia.
Qed.

(** X8.  Conservation in the order mapping.  When [mapOrdersToMonarch]
    returns, every invoice number of the file has given exactly one main job
    or one rejected order, and every order line is either encoded (as the
    main job or a sub-job of its invoice) or belongs to an invoice that was
    rejected: main jobs + sub-jobs + lines of the rejected invoices = lines
    of the file. *)
Theorem X8_order_lines_accounted (api : Api) (customerData orderData : list CsvRow)
        (m : MapResult) :
  mapOrdersToMonarch api customerData orderData = Ok m ->
  (exists groups,
     ordersByInvoice orderData = Ok groups
     /\ (List.length (mainJobs m) + List.length (rejectedOrders m)
         = List.length groups)%nat)
  /\ (List.length (mainJobs m) + List.length (subJobs m)
      + list_sum (map (fun r => List.length (linesOf (invoiceNumber r) orderData))
                      (rejectedOrders m))
      = List.length orderData)%nat.
Proof.
  unfold mapOrdersToMonarch.
  destruct (ordersByInvoice orderData) as [groups|e0] eqn:Eg; [|discriminate].
  cbn [bind]. rewrite mapGroups_outcomes.
  destruct (outcomesOf api customerData 0 (ownEntries groups))
    as [os|e] eqn:E; [|discriminate].
  cbn [bind]. intro Hm. injection Hm as <-.
  destruct (ordersByInvoice_spec orderData groups Eg) as (_ & Hg & _).
  destruct (outcomesOf_lines api customerData orderData _ _ _
              (fun k l Hin => Hg k l (proj1 (In_ownEntries _ _) Hin)) E) as [H1 H2].
  destruct (fold_addOutcome_counts orderData os (mkMapResult [] [] [])) as [H3 H4].
  cbv zeta in H3, H4. cbn [mainJobs subJobs rejectedOrders List.length map list_sum] in H3, H4.
  rewrite H3, H4, H1, H2.
  rewrite (Permutation.Permutation_length (Permutation_ownEntries _)).
  rewrite (total_Permutation _ _ (Permutation_ownEntries _)),
    (total_ordersByInvoice orderData groups Eg).
  split; [|reflexivity]. exists groups. split; reflexivity.
Qed.
End Conservation.

Lemma X8_witness :
  exists m,
    @mapOrdersToMonarch exampleHost (knownApi (VStr (L "ACME01"))) [] sampleOrders = Ok m
    /\ (List.length (mainJobs m) + List.length (subJobs m)
        + list_sum (map (fun r => List.length (linesOf (invoiceNumber r) sampleOrders))
                        (rejectedOrders m)) = 2)%nat.
Proof.
  eexists. split; [reflexivity|].
  exact (proj2 (@X8_order_lines_accounted exampleHost (knownApi (VStr (L "ACME01"))) []
                  sampleOrders _ eq_refl)).
Defined.

(** ** The records the order mapping builds *)

Lemma length_subJobId (i : nat) : List.length (subJobId i) = 4%nat.
Proof. unfold subJobId, substring0. rewrite length_firstn, length_padEnd. lia. Qed.

Lemma firstn_50_254 (s : str) : firstn 50 s = firstn 50 (firstn 254 s).
Proof. rewrite firstn_firstn. reflexivity. Qed.

Section MappedRecords.
Context {host : Host}.

Lemma mainJobOf_wf (invoice cust po due ship contact : str) (order : CsvRow) :
  (List.length cust <= 8)%nat ->
  wellFormedJob (mainJobOf (orderJobId invoice) cust po due ship contact order).
Proof.
  intro Hc. unfold mainJobOf, wellFormedJob. cbv zeta.
  eexists _, _, _, _, _, _, _, _, _, _, _, _.
  split; [reflexivity|].
  repeat split; auto using length_orderJobId, firstn_le_length, firstn_50_254.
Qed.

Lemma subJobOf_wf (invoice cust po due ship contact : str) (i : nat) (order : CsvRow) :
  (List.length cust <= 8)%nat ->
  wellFormedJob (subJobOf (orderJobId invoice) cust po due ship contact i order).
Proof.
  intro Hc. unfold subJobOf, wellFormedJob. cbv zeta.
  eexists _, _, _, _, _, _, _, _, _, _, _, _.
  split; [reflexivity|].
  repeat split; auto using length_orderJobId, length_subJobId, firstn_le_length,
                firstn_50_254.
Qed.

Lemma subJobsFrom_wf (invoice cust po due ship contact : str) (rest : list CsvRow)
      (i : nat) :
  (List.length cust <= 8)%nat ->
  Forall wellFormedJob
         (subJobsFrom (orderJobId invoice) cust po due ship contact i rest).
Proof.
  intro Hc. revert i; induction rest as [|o rest IH]; intro i; cbn [subJobsFrom];
    constructor; auto using subJobOf_wf.
Qed.

Lemma processGroup_ok (search : str -> ApiOutcome) (customerData : list CsvRow)
      (invoice : str) (first : CsvRow) (rest : list CsvRow) (o : GroupOutcome) :
  processGroup search customerData invoice first rest = Ok o -> outcomeOk o.
Proof.
  unfold processGroup.
  destruct (lookupCustomer_cases (search (cellOr first (L "Customer Name") [])))
    as [(cid & more & _ & ->)|[[_ ->]|(message & ->)]].
  - destruct (customerId8 cid) as [cust|e] eqn:E; cbn [bind]; [|discriminate].
    apply length_customerId8 in E as [_ Hc].
    intros [= <-]. cbn [outcomeOk].
    split; [now apply mainJobOf_wf|]. split; [reflexivity|].
    now apply subJobsFrom_wf.
  - intros [= <-]. left. reflexivity.
  - intros [= <-]. right. exists message. reflexivity.
Qed.

Lemma outcomesOf_ok (api : Api) (customerData : list CsvRow)
      (entries : JsObject (list CsvRow)) (n : nat) (os : list GroupOutcome) :
  outcomesOf api customerData n entries = Ok os -> Forall outcomeOk os.
Proof.
  revert n os; induction entries as [|[invoice [|first rest]] entries IH];
    intros n os H; cbn [outcomesOf] in H.
  - injection H as <-. constructor.
  - eauto.
  - destruct (processGroup (api n) customerData invoice first rest) as [o|e] eqn:E;
      [|discriminate].
    cbn [bind] in H.
    destruct (outcomesOf api customerData (S n) entries) as [os'|e] eqn:E';
      [|discriminate].
    cbn [bind] in H. injection H as <-.
    constructor; eauto using processGroup_ok.
Qed.

Lemma fold_addOutcome_ok (os : list GroupOutcome) (acc : MapResult) :
  Forall outcomeOk os ->
  Forall wellFormedJob (mainJobs acc) ->
  Forall (fun j => fieldValue j (L "sub_job_id") = VStr (L "    ")) (mainJobs acc) ->
  Forall wellFormedJob (subJobs acc) ->
  Forall (fun r => reason r = notFoundReason
                   \/ exists message, reason r = apiErrorReason message)
         (rejectedOrders acc) ->
  let m := fold_left addOutcome os acc in
  Forall wellFormedJob (mainJobs m)
  /\ Forall (fun j => fieldValue j (L "sub_job_id") = VStr (L "    ")) (mainJobs m)
  /\ Forall wellFormedJob (subJobs m)
  /\ Forall (fun r => reason r = notFoundReason
                      \/ exists message, reason r = apiErrorReason message)
            (rejectedOrders m).
Proof.
  intro H. revert acc; induction H as [|o os Ho Hos IH]; intros acc H1 H2 H3 H4;
    cbn [fold_left]; [auto|].
  apply IH; destruct o as [main subs|r]; cbn [addOutcome mainJobs subJobs rejectedOrders];
    cbn [outcomeOk] in Ho; auto.
  - destruct Ho as (Hm & _ & _). apply Forall_app. auto.
  - destruct Ho as (_ & Hm & _). apply Forall_app. auto.
  - destruct Ho as (_ & _ & Hs). apply Forall_app. auto.
  - apply Forall_app. auto.
Qed.

(** X9.  Every record [mapOrdersToMonarch] returns is the job literal over
    the job layout with string values that fit their fields: job id of 8
    characters, sub-job id of 4 (four spaces on every main job), description
    of at most 254, customer id of at most 8, PO number of at most 20, contact
    of at most 30, and a title that is the first 50 characters of the
    description; and every rejected order carries either the not-found reason
    or an API-error reason. *)
Theorem X9_mapped_records (api : Api) (customerData orderData : list CsvRow)
        (m : MapResult) :
  mapOrdersToMonarch api customerData orderData = Ok m ->
  Forall wellFormedJob (mainJobs m ++ subJobs m)
  /\ Forall (fun j => layoutOf j = jobLayout /\ allStrings j = true)
            (mainJobs m ++ subJobs m)
  /\ Forall (fun j => fieldValue j (L "sub_job_id") = VStr (L "    ")) (mainJobs m)
  /\ Forall (fun r => reason r = notFoundReason
                      \/ exists message, reason r = apiErrorReason message)
            (rejectedOrders m).
Proof.
  intro Hm.
  destruct (mapOrdersToMonarch_outcomes api customerData orderData m Hm)
    as (groups & os & _ & E & ->).
  destruct (fold_addOutcome_ok os (mkMapResult [] [] []) (outcomesOf_ok _ _ _ _ _ E)
              (Forall_nil _) (Forall_nil _) (Forall_nil _) (Forall_nil _))
    as (H1 & H2 & H3 & H4).
  assert (Hwf : Forall wellFormedJob
                       (mainJobs (fold_left addOutcome os (mkMapResult [] [] []))
                        ++ subJobs (fold_left addOutcome os (mkMapResult [] [] []))))
    by (apply Forall_app; auto).
  split; [exact Hwf|]. split; [|split; assumption].
  eapply Forall_impl; [|exact Hwf].
  intros j (a & b & c & d & e0 & f & g & h & i & k & l & t & -> & _).
  split; reflexivity.
Qed.
End MappedRecords.

Lemma X9_witness :
  exists m,
    @mapOrdersToMonarch exampleHost (knownApi (VStr (L "ACME0001XYZ"))) [] sampleOrders
    = Ok m
    /\ Forall wellFormedJob (mainJobs m ++ subJobs m)
    /\ List.length (mainJobs m ++ subJobs m) = 2%nat.
Proof.
  eexists. split; [reflexivity|]. split; [|reflexivity].
  exact (proj1 (@X9_mapped_records exampleHost (knownApi (VStr (L "ACME0001XYZ"))) []
                  sampleOrders _ eq_refl)).
Defined.

(** ** Reading the rejection report back *)

Lemma csvFieldsGo_quoted (s : str) (cur rest : str) :
  match rest with c :: _ => c <> dquote | [] => True end ->
  csvFieldsGo true cur (doubleQuotes s ++ dquote :: rest)
  = csvFieldsGo false (rev s ++ cur) rest.
Proof.
  intro Hr. revert cur; induction s as [|c s IH]; intro cur.
  - cbn [doubleQuotes app rev]. cbn [csvFieldsGo].
    destruct (ascii_dec dquote dquote) as [_|N]; [|now elim N].
    destruct rest as [|c2 rest]; auto.
    destruct (ascii_dec c2 dquote); [contradiction|reflexivity].
  - cbn [doubleQuotes]. destruct (ascii_dec c dquote) as [->|Hc].
    + cbn [app]. cbn [csvFieldsGo].
      destruct (ascii_dec dquote dquote) as [_|N]; [|now elim N].
      rewrite IH. cbn [rev]. now rewrite <- app_assoc.
    + cbn [app]. cbn [csvFieldsGo].
      destruct (ascii_dec c dquote); [contradiction|].
      rewrite IH. cbn [rev]. now rewrite <- app_assoc.
Qed.

Lemma csvFieldsGo_comma (cur r : str) :
  csvFieldsGo false cur (","%char :: r) = rev cur :: csvFieldsGo false [] r.
Proof.
  cbn [csvFieldsGo]. destruct (ascii_dec "," ",") as [_|N]; [reflexivity|now elim N].
Qed.

Lemma csvFieldsGo_open (cur r : str) :
  csvFieldsGo false cur (dquote :: r) = csvFieldsGo true cur r.
Proof.
  cbn [csvFieldsGo]. destruct (ascii_dec dquote ",") as [E|_]; [discriminate E|].
  destruct (ascii_dec dquote dquote) as [_|N]; [reflexivity|now elim N].
Qed.

Lemma csvFieldsGo_plain (s cur : str) (rest : option str) :
  plainField s = true ->
  csvFieldsGo false cur (s ++ match rest with Some r => ","%char :: r | None => [] end)
  = match rest with
    | Some r => (rev cur ++ s) :: csvFieldsGo false [] r
    | None => [rev cur ++ s]
    end.
Proof.
  revert cur; induction s as [|c s IH]; intros cur Hp.
  - rewrite app_nil_r. destruct rest as [r|].
    + cbn [app]. apply csvFieldsGo_comma.
    + reflexivity.
  - cbn [plainField forallb] in Hp. apply andb_true_iff in Hp as [Hc Hp].
    apply negb_true_iff, orb_false_iff in Hc as [Hc1 Hc2].
    apply Ascii.eqb_neq in Hc1, Hc2.
    cbn [app]. cbn [csvFieldsGo].
    destruct (ascii_dec c ","); [contradiction|].
    destruct (ascii_dec c dquote); [contradiction|].
    rewrite (IH (c :: cur) Hp). cbn [rev].
    destruct rest; now rewrite <- app_assoc.
Qed.

Lemma csvFieldsGo_cell (c : Cell) (rest : option str) :
  cellSafe c = true ->
  csvFieldsGo false []
    (renderCell c ++ match rest with Some r => ","%char :: r | None => [] end)
  = match rest with
    | Some r => cellText c :: csvFieldsGo false [] r
    | None => [cellText c]
    end.
Proof.
  destruct c as [s|s]; cbn [cellSafe renderCell cellText]; intro H.
  - exact (csvFieldsGo_plain s [] rest H).
  - unfold csvQuote. cbn [app]. rewrite csvFieldsGo_open.
    rewrite <- app_assoc. cbn [app].
    rewrite csvFieldsGo_quoted by (destruct rest; [discriminate|exact I]).
    rewrite app_nil_r.
    destruct rest as [r|].
    + rewrite csvFieldsGo_comma. now rewrite rev_involutive.
    + cbn [csvFieldsGo]. now rewrite rev_involutive.
Qed.

Lemma csvFields_cells (cells : list Cell) :
  cells <> [] ->
  forallb cellSafe cells = true ->
  csvFields (join comma (map renderCell cells)) = map cellText cells.
Proof.
  unfold csvFields. induction cells as [|c cells IH]; [contradiction|].
  intros _ H. cbn [forallb] in H. apply andb_true_iff in H as [Hc H].
  destruct cells as [|c' cells].
  - cbn [map join]. rewrite <- (app_nil_r (renderCell c)).
    exact (csvFieldsGo_cell c None Hc).
  - change (join comma (map renderCell (c :: c' :: cells)))
      with (renderCell c ++ ","%char :: join comma (map renderCell (c' :: cells))).
    rewrite (csvFieldsGo_cell c (Some _) Hc).
    cbn [map]. f_equal. apply IH; [discriminate|exact H].
Qed.

(** X10.  Round trip of a row of the order rejection report: when the
    invoice number, the due date and the amount contain neither a comma nor a
    double quote, reading the row back with the standard CSV rules gives the
    seven values of the rejected order, whatever the customer name, the
    product, the PO number and the reason contain (commas, quotes, line
    feeds). *)
Theorem X10_rejection_row_roundtrip (o : RejectedOrder) :
  plainField (invoiceNumber o) = true ->
  plainField (dueDate o) = true ->
  plainField (amount o) = true ->
  csvFields (rejectionRow o)
  = [ invoiceNumber o; customerName o; productName o; poNumber o; dueDate o;
      amount o; reason o ].
Proof.
  intros H1 H2 H3.
  apply (csvFields_cells
           [ Raw (invoiceNumber o); Quoted (customerName o); Quoted (productName o);
             Quoted (poNumber o); Raw (dueDate o); Raw (amount o); Quoted (reason o) ]).
  - discriminate.
  - cbn [forallb cellSafe]. now rewrite H1, H2, H3.
Qed.

Lemma X10_witness :
  csvFields (rejectionRow
               (mkRejected (L "1001") (L "Unknown, Corp") (L "Widget") [] (L "03/15/2025")
                           (L "12.50") notFoundReason))
  = [ L "1001"; L "Unknown, Corp"; L "Widget"; []; L "03/15/2025"; L "12.50";
      notFoundReason ].
Proof.
  apply (X10_rejection_row_roundtrip
           (mkRejected (L "1001") (L "Unknown, Corp") (L "Widget") [] (L "03/15/2025")
                       (L "12.50") notFoundReason)); reflexivity.
Defined.

(** ** The WIP path: rows kept by the filter *)

Lemma getProp_setProp_same {V} (o : JsObject V) (k : str) (v : V) :
  getProp (setProp o k v) k = Some v.
Proof.
  induction o as [|[k' v'] o IH]; simpl.
  - now rewrite str_eqb_refl.
  - destruct (str_eqb k' k) eqn:E; simpl.
    + now rewrite str_eqb_refl.
    + now rewrite E.
Qed.

Lemma getProp_setProp_other {V} (o : JsObject V) (k k' : str) (v : V) :
  str_eqb k k' = false ->
  getProp (setProp o k v) k' = getProp o k'.
Proof.
  intro Hk. induction o as [|[k1 v1] o IH]; simpl.
  - now rewrite Hk.
  - destruct (str_eqb k1 k) eqn:E; simpl.
    + apply str_eqb_eq in E as ->. now rewrite Hk.
    + now rewrite IH.
Qed.

Lemma findByKey_app (name : str) (a b : JsObject JsVal) :
  findByKey name (a ++ b)
  = match findByKey name a with Some v => Some v | None => findByKey name b end.
Proof.
  induction a as [|[k v] a IH]; simpl; auto.
  now destruct (str_eqb _ _ && hasValue v).
Qed.

Lemma findByKey_setProp (name k : str) (v : JsVal) (o : JsObject JsVal) :
  str_eqb (trim (toLowerCase k)) (trim (toLowerCase name)) = false ->
  findByKey name (setProp o k v) = findByKey name o.
Proof.
  intro Hk. induction o as [|[k1 v1] o IH]; simpl.
  - now rewrite Hk.
  - destruct (str_eqb k1 k) eqn:E; simpl.
    + apply str_eqb_eq in E as ->. now rewrite Hk.
    + now rewrite IH.
Qed.

Lemma filter_setProp_out {V} (f : str -> bool) (o : JsObject V) (k : str) (v : V) :
  f k = false ->
  filter (fun e => f (fst e)) (setProp o k v) = filter (fun e => f (fst e)) o.
Proof.
  intro Hk. induction o as [|[k1 v1] o IH]; simpl.
  - now rewrite Hk.
  - destruct (str_eqb k1 k) eqn:E; simpl.
    + apply str_eqb_eq in E as ->. now rewrite Hk.
    + now rewrite IH.
Qed.

Lemma filter_setProp_in {V} (f : str -> bool) (o : JsObject V) (k : str) (v : V) :
  f k = true ->
  filter (fun e => f (fst e)) (setProp o k v)
  = setProp (filter (fun e => f (fst e)) o) k v.
Proof.
  intro Hk. induction o as [|[k1 v1] o IH]; simpl.
  - now rewrite Hk.
  - destruct (str_eqb k1 k) eqn:E; simpl.
    + apply str_eqb_eq in E as ->. rewrite Hk. simpl. now rewrite str_eqb_refl.
    + destruct (f k1); simpl; rewrite IH; [now rewrite E|reflexivity].
Qed.

Lemma ownEntries_setProp {V} (o : JsObject V) (k : str) (v : V) :
  isArrayIndex k = false ->
  ownEntries (setProp o k v)
  = fold_right insertByIndex [] (filter (fun e => isArrayIndex (fst e)) o)
    ++ setProp (filter (fun e => negb (isArrayIndex (fst e))) o) k v.
Proof.
  intro Hk. unfold ownEntries.
  rewrite (filter_setProp_out isArrayIndex) by exact Hk.
  rewrite (filter_setProp_in (fun k => negb (isArrayIndex k))) by now rewrite Hk.
  reflexivity.
Qed.

Lemma findColumn_setProp (row : WipRow) (k : str) (v : JsVal) (names : list str) :
  isArrayIndex k = false ->
  matchesNone k names = true ->
  findColumn (setProp row k v) names = findColumn row names.
Proof.
  intros Hk. induction names as [|name names IH]; intro Hn; [reflexivity|].
  cbn [matchesNone forallb] in Hn. apply andb_true_iff in Hn as [H1 Hn].
  apply negb_true_iff in H1.
  assert (Hne : str_eqb k name = false).
  { destruct (str_eqb k name) eqn:E; auto. apply str_eqb_eq in E as ->.
    now rewrite str_eqb_refl in H1. }
  cbn [findColumn]. unfold prop. rewrite (getProp_setProp_other _ _ _ _ Hne).
  rewrite ownEntries_setProp by exact Hk.
  rewrite findByKey_app, (findByKey_setProp _ _ _ _ H1), <- findByKey_app.
  fold (ownEntries row). now rewrite (IH Hn).
Qed.

Lemma findColumn_markValid (row : WipRow) (names : list str) :
  matchesNone (L "_orderId") names = true ->
  matchesNone (L "_customerName") names = true ->
  findColumn (markValid row) names = findColumn row names.
Proof.
  intros H1 H2. unfold markValid.
  now rewrite !findColumn_setProp.
Qed.

Lemma prop_markValid_orderId (row : WipRow) :
  prop (markValid row) (L "_orderId") = orderIdOf row.
Proof.
  unfold prop, markValid.
  rewrite getProp_setProp_other by reflexivity.
  now rewrite getProp_setProp_same.
Qed.

Lemma prop_markValid_customerName (row : WipRow) :
  prop (markValid row) (L "_customerName") = findColumn row customerNameColumns.
Proof.
  unfold prop, markValid. now rewrite getProp_setProp_same.
Qed.

Lemma passesPattern_truthy (row : WipRow) :
  passesPattern row = true -> truthy (orderIdOf row) = true.
Proof.
  unfold passesPattern. destruct (orderIdOf row) as [| |[]|n|[|c s]]; try discriminate; auto.
  simpl. destruct (Z.eqb_spec n 0) as [->|]; [discriminate|reflexivity].
Qed.

Lemma In_filteredData (wipData : list WipRow) (row : WipRow) :
  In row (filteredData (filterValidOrders wipData)) <->
  exists row0, In row0 wipData /\ passesPattern row0 = true /\ row = markValid row0.
Proof.
  unfold filterValidOrders. rewrite filterFrom_spec. cbn [filteredData app].
  rewrite in_map_iff. split.
  - intros (row0 & <- & Hin). apply filter_In in Hin as [Hin Hp]. eauto.
  - intros (row0 & Hin & Hp & ->). exists row0. split; auto.
    apply filter_In. auto.
Qed.

Lemma fieldValue_jobRecord (jobId subJob description custId poNumber dueDate shipDate
                            qty contact quotation unitPrice title : str)
      (more : RecordInstance) :
  let job := jobRecord jobId subJob description custId poNumber dueDate shipDate
                       qty contact quotation unitPrice title ++ more in
  fieldValue job (L "job_id") = VStr jobId
  /\ fieldValue job (L "job_description") = VStr description
  /\ fieldValue job (L "cust_ordered_by") = VStr custId
  /\ fieldValue job (L "cust_billed_to") = VStr custId
  /\ fieldValue job (L "date_promised") = VStr dueDate
  /\ fieldValue job (L "quotation_amount") = VStr quotation
  /\ fieldValue job (L "unit_price") = VStr unitPrice
  /\ fieldValue job (L "job_title") = VStr title.
Proof.
  cbv zeta. repeat split; reflexivity.
Qed.

Section KeptRows.
Context {host : Host}.

Lemma processRow_markValid (search : str -> ApiOutcome) (row0 : WipRow) :
  passesPattern row0 = true ->
  processRow search (markValid row0)
  = let customer := jsOr (findColumn row0 customerNameColumns) (VStr []) in
    let projectName := findColumn row0 projectNameColumns in
    let due := wipFormatDate (findColumn row0 dueDateColumns) in
    let orderValue := formatCurrency (findColumn row0 orderValueColumns) in
    match lookupCustomer (search (jsString customer)) with
    | Rejected why =>
        Ok (RowRejected (mkWipRejected (keptOrderId row0) customer projectName due
                                       orderValue why))
    | Found cid =>
        custId <- customerId8 cid ;;
        job <- wipJobOf (keptOrderId row0) custId projectName due orderValue ;;
        Ok (RowJob job)
    end.
Proof.
  intro Hp. unfold processRow, wipQuery. cbv zeta.
  rewrite prop_markValid_orderId, prop_markValid_customerName.
  rewrite !findColumn_markValid by reflexivity.
  assert (Ho : jsOr (orderIdOf row0) (VStr []) = orderIdOf row0)
    by (unfold jsOr; now rewrite (passesPattern_truthy row0 Hp)).
  rewrite Ho. reflexivity.
Qed.

(** X11.  What a spreadsheet row becomes once the filter has kept it: the
    row is a row of the sheet with the two bookkeeping properties added, and
    these never change what the later column lookups find.  If it is mapped to
    a job, the job id is the letter N, the 4 to 7 digits of the order id and
    spaces up to 8 characters; the project name is a text, and description and
    title are its first 254 and 50 characters; date, amounts and customer id
    come from the row's own columns and from the first directory entry found
    for the customer name.  If it is rejected, the rejection carries the same
    digits, and the reason is the not-found text or an API error. *)
Theorem X11_kept_row (search : str -> ApiOutcome) (wipData : list WipRow)
        (row : WipRow) :
  In row (filteredData (filterValidOrders wipData)) ->
  exists row0,
    In row0 wipData /\ row = markValid row0
    /\ orderIdPattern (keptOrderId row0) = true
    /\ (forall job, processRow search row = Ok (RowJob job) ->
        exists title cid custId,
          findColumn row0 projectNameColumns = VStr title
          /\ lookupCustomer
               (search (jsString (jsOr (findColumn row0 customerNameColumns) (VStr []))))
             = Found cid
          /\ customerId8 cid = Ok custId
          /\ fieldValue job (L "job_id")
             = VStr (L "N" ++ keptOrderId row0
                     ++ spaces (7 - List.length (keptOrderId row0)))
          /\ fieldValue job (L "job_description") = VStr (substring0 254 title)
          /\ fieldValue job (L "job_title") = VStr (substring0 50 title)
          /\ fieldValue job (L "cust_ordered_by") = VStr custId
          /\ fieldValue job (L "cust_billed_to") = VStr custId
          /\ fieldValue job (L "date_promised")
             = VStr (wipFormatDate (findColumn row0 dueDateColumns))
          /\ fieldValue job (L "quotation_amount")
             = VStr (formatCurrency (findColumn row0 orderValueColumns))
          /\ fieldValue job (L "unit_price")
             = VStr (formatCurrency (findColumn row0 orderValueColumns)))
    /\ (forall r, processRow search row = Ok (RowRejected r) ->
        wipOrderId r = keptOrderId row0
        /\ wipCustomerName r = jsOr (findColumn row0 customerNameColumns) (VStr [])
        /\ wipProjectName r = findColumn row0 projectNameColumns
        /\ (wipReason r = notFoundReason
            \/ exists message, wipReason r = apiErrorReason message)).
Proof.
  intro Hin. apply In_filteredData in Hin as (row0 & Hin & Hp & ->).
  exists row0. split; [exact Hin|]. split; [reflexivity|].
  split; [exact Hp|].
  rewrite (processRow_markValid search row0 Hp). cbv zeta.
  destruct (lookupCustomer_cases
              (search (jsString (jsOr (findColumn row0 customerNameColumns) (VStr [])))))
    as [(cid & rest & _ & Hl) | [(_ & Hl) | (message & Hl)]]; rewrite Hl.
  - split.
    2:{ intros r Hr. exfalso.
        destruct (customerId8 cid) as [custId|e]; [|discriminate Hr].
        cbn [bind] in Hr.
        destruct (wipJobOf (keptOrderId row0) custId (findColumn row0 projectNameColumns)
                           (wipFormatDate (findColumn row0 dueDateColumns))
                           (formatCurrency (findColumn row0 orderValueColumns)));
          discriminate Hr. }
    intros job Hjob.
    destruct (customerId8 cid) as [custId|e] eqn:Ec; [|discriminate].
    cbn [bind] in Hjob. unfold wipJobOf in Hjob.
    destruct (findColumn row0 projectNameColumns) as [| | | |title] eqn:Et;
      try discriminate.
    cbn [jsSubstring0 bind] in Hjob. injection Hjob as <-.
    exists title, cid, custId.
    split; [reflexivity|]. split; [reflexivity|]. split; [exact Ec|].
    rewrite <- (wipJobId_valid (keptOrderId row0) Hp).
    repeat split; reflexivity.
  - split; [intros job Hjob; discriminate Hjob|].
    intros r Hr. injection Hr as <-.
    cbn [wipOrderId wipCustomerName wipProjectName wipReason]. auto.
  - split; [intros job Hjob; discriminate Hjob|].
    intros r Hr. injection Hr as <-.
    cbn [wipOrderId wipCustomerName wipProjectName wipReason].
    repeat split; auto. right. now exists message.
Qed.
End KeptRows.

Lemma X11_witness :
  exists row0,
    In row0 [textProjectRow; flyerRow]
    /\ markValid textProjectRow = markValid row0
    /\ orderIdPattern (keptOrderId row0) = true.
Proof.
  destruct (@X11_kept_row exampleHost (knownApi (VStr (L "ACME01")) 0%nat)
              [textProjectRow; flyerRow] (markValid textProjectRow)
              ltac:(left; reflexivity)) as (row0 & H1 & H2 & H3 & _).
  exists row0. auto.
Defined.

(** ** The WIP path: counts of a run *)

Lemma length_encodeFile (t : RecordType) (rs : list RecordInstance) (file : str) :
  encodeFile t rs = Ok file ->
  List.length file = (List.length rs * S (lineLength t))%nat.
Proof.
  intro Hf. destruct (encodeFile_lines t rs file Hf) as (lines & H2 & ->).
  clear Hf. induction H2 as [|r l rs' ls' Hrl _ IH]; [reflexivity|].
  cbn [map List.concat List.length]. rewrite !length_app, IH.
  rewrite (length_encode t r l Hrl). cbn [List.length]. lia.
Qed.

Lemma filter_counts (wipData : list WipRow) :
  (List.length (filteredData (filterValidOrders wipData))
   + List.length (skippedRows (filterValidOrders wipData))
   = List.length wipData)%nat.
Proof.
  unfold filterValidOrders. rewrite filterFrom_spec. cbn [filteredData skippedRows app].
  rewrite !length_map.
  rewrite <- (length_map snd (filter _ (numbered 0 wipData))).
  rewrite (filter_numbered (fun row => negb (passesPattern row))).
  apply length_filter_split.
Qed.

Section WipCounts.
Context {host : Host}.

Lemma mapRows_counts (api : Api) (rows : list WipRow) (n : nat) (st : WipRun) :
  (List.length (wipJobs (mapRows api n rows st))
   + List.length (wipRejectedOrders (mapRows api n rows st))
   <= List.length (wipJobs st) + List.length (wipRejectedOrders st) + List.length rows)%nat
  /\ (wipThrown (mapRows api n rows st) = None ->
      (List.length (wipJobs (mapRows api n rows st))
       + List.length (wipRejectedOrders (mapRows api n rows st))
       = List.length (wipJobs st) + List.length (wipRejectedOrders st)
         + List.length rows)%nat).
Proof.
  revert n st; induction rows as [|row rows IH]; intros n st.
  - cbn [mapRows List.length]. lia.
  - cbn [mapRows]. destruct (processRow (api n) row) as [[job|r]|e].
    + destruct (IH (S n) (mkWipRun (wipJobs st ++ [job]) (wipRejectedOrders st)
                                   (wipCalls st ++ [wipQuery row]) None)) as [H1 H2].
      cbn [wipJobs wipRejectedOrders] in H1, H2. rewrite length_app in H1, H2.
      cbn [List.length] in *. split; [lia|]. intro H. specialize (H2 H). lia.
    + destruct (IH (S n) (mkWipRun (wipJobs st) (wipRejectedOrders st ++ [r])
                                   (wipCalls st ++ [wipQuery row]) None)) as [H1 H2].
      cbn [wipJobs wipRejectedOrders] in H1, H2. rewrite length_app in H1, H2.
      cbn [List.length] in *. split; [lia|]. intro H. specialize (H2 H). lia.
    + cbn [wipJobs wipRejectedOrders wipThrown List.length]. split; [lia|discriminate].
Qed.

(** X12.  The numbers a successful WIP run reports add up: the record count
    is the number of jobs written, the stored file has 561 characters for each
    of them, some row passed the filter, and every data row of the sheet is
    counted exactly once as a record, a skipped row or a rejected order. *)
Theorem X12_wip_summary (browser : Browser) (api : Api) (headers : list JsVal)
        (rows : list WipRow) (message : str) (s : WipSummary) :
  wipProcessFile browser api (Ok (headers, rows)) = Ok (Succeeded message s) ->
  exists file,
    generateWIPImportFile api (filteredData (filterValidOrders rows))
    = Ok (file, summaryRejectedOrders s)
    /\ setItem browser (L "wipImportData") file = Ok tt
    /\ summarySkippedRows s = skippedRows (filterValidOrders rows)
    /\ skippedCount s = List.length (summarySkippedRows s)
    /\ rejectedCount s = List.length (summaryRejectedOrders s)
    /\ 0 <= recordCount s
    /\ Z.of_nat (List.length file) = 561 * recordCount s
    /\ recordCount s + Z.of_nat (skippedCount s) + Z.of_nat (rejectedCount s)
       = Z.of_nat (List.length rows)
    /\ 0 < recordCount s + Z.of_nat (rejectedCount s).
Proof.
  unfold wipProcessFile. cbn [bind snd fst].
  pose proof (filter_counts rows) as Hc.
  destruct rows as [|row rows']; [discriminate|].
  set (data := row :: rows') in *.
  destruct (filteredData (filterValidOrders data)) as [|k kept] eqn:Ek; [discriminate|].
  rewrite <- Ek. rewrite <- Ek in Hc.
  unfold generateWIPImportFile, mapToMonarchFormat.
  pose proof (mapRows_counts api (filteredData (filterValidOrders data)) 0
                             (mkWipRun [] [] [] None)) as [_ Hm].
  destruct (wipThrown (mapRows api 0 (filteredData (filterValidOrders data))
                               (mkWipRun [] [] [] None))) as [e|]; [discriminate|].
  specialize (Hm eq_refl). cbn [wipJobs wipRejectedOrders List.length] in Hm.
  cbn [bind fst snd tryCatch].
  set (run := mapRows api 0 (filteredData (filterValidOrders data))
                      (mkWipRun [] [] [] None)) in *.
  destruct (setItem browser (L "wipImportData") (wipGenerateFixedWidthFile (wipJobs run)))
    as [[]|e] eqn:Es; [|discriminate].
  cbn [bind tryCatch]. intro H. injection H as _ <-.
  cbn [recordCount skippedCount summarySkippedRows rejectedCount summaryRejectedOrders].
  exists (wipGenerateFixedWidthFile (wipJobs run)).
  pose proof (length_encodeFile WipType (wipJobs run) _ eq_refl) as Hl.
  change (lineLength WipType) with 560%nat in Hl.
  assert (Hk : (0 < List.length (filteredData (filterValidOrders data)))%nat)
    by (rewrite Ek; cbn [List.length]; lia).
  repeat split; try reflexivity; try exact Es; try lia.
Qed.
End WipCounts.

Lemma X12_witness :
  exists file,
    @generateWIPImportFile exampleHost (knownApi (VStr (L "ACME01")))
       (filteredData (filterValidOrders [textProjectRow; flyerRow]))
    = Ok (file, [])
    /\ Z.of_nat (List.length file) = 561 * 2.
Proof.
  destruct (@X12_wip_summary exampleHost quietBrowser (knownApi (VStr (L "ACME01"))) []
              [textProjectRow; flyerRow]
              (L "WIP import file generated successfully with 2 records")
              (mkWipSummary 2 0 [] 0 [])
              ltac:(vm_compute; reflexivity))
    as (file & H1 & _ & _ & _ & _ & _ & H2 & _).
  exists file. split; [exact H1 | exact H2].
Defined.

(** ** The WIP rejection report *)

Lemma escapeValue_cases (field : str) (v : JsVal) :
  (reportable v = true /\ escapeValue field v = Ok (csvQuote (reportText v)))
  \/ (reportable v = false /\ escapeValue field v = Throw (replaceError field)).
Proof.
  unfold escapeValue, jsOr.
  destruct v as [| |[]|n|[|c s]]; simpl; auto.
  destruct (Z.eqb_spec n 0) as [->|]; simpl; auto.
Qed.

Lemma wipRejectionRow_cases (o : WipRejected) :
  (reportableOrder o = true
   /\ wipRejectionRow o
      = Ok (join comma [ wipOrderId o; csvQuote (reportText (wipCustomerName o));
                         csvQuote (reportText (wipProjectName o)); wipDueDate o;
                         wipOrderValue o; csvQuote (wipReason o) ]))
  \/ (reportableOrder o = false
      /\ exists detail, wipRejectionRow o = Throw (TypeError detail)).
Proof.
  unfold wipRejectionRow, reportableOrder.
  destruct (escapeValue_cases (L "customerName") (wipCustomerName o))
    as [[H1 ->]|[H1 ->]];
    rewrite H1; cbn [bind andb]; [|right; split; [reflexivity|eexists; reflexivity]].
  destruct (escapeValue_cases (L "projectName") (wipProjectName o))
    as [[H2 ->]|[H2 ->]];
    rewrite H2; cbn [bind]; [now left|right; split; [reflexivity|eexists; reflexivity]].
Qed.

Lemma wipRejectionRows_cases (rejected : list WipRejected) :
  (forallb reportableOrder rejected = true
   /\ exists rows, wipRejectionRows rejected = Ok rows)
  \/ (forallb reportableOrder rejected = false
      /\ exists detail, wipRejectionRows rejected = Throw (TypeError detail)).
Proof.
  induction rejected as [|o rest IH]; [left; simpl; eauto|].
  cbn [wipRejectionRows forallb].
  destruct (wipRejectionRow_cases o) as [[H1 ->]|[H1 [d ->]]]; rewrite H1;
    cbn [bind andb]; [|right; eauto].
  destruct IH as [[H2 [rows ->]]|[H2 [d ->]]]; rewrite H2; cbn [bind];
    [left|right; eauto].
  split; eauto.
Qed.

(** X13.  The WIP rejection report is produced exactly when, in every
    rejected order, the customer name and the project name are texts or falsy
    values; a rejected order that carries a number other than zero there (a
    numeric spreadsheet cell) makes [generateRejectionFile] throw a
    [TypeError], and no other error is possible. *)
Theorem X13_wip_report_throws (rejected : list WipRejected) :
  ((exists file, wipGenerateRejectionFile rejected = Ok file)
   <-> forallb reportableOrder rejected = true)
  /\ (forall e, wipGenerateRejectionFile rejected = Throw e ->
      (exists detail, e = TypeError detail)
      /\ exists o, In o rejected
                   /\ (reportable (wipCustomerName o) = false
                       \/ reportable (wipProjectName o) = false)).
Proof.
  unfold wipGenerateRejectionFile.
  destruct rejected as [|o rest]; [split; [split; eauto|discriminate]|].
  set (rejected := o :: rest).
  destruct (wipRejectionRows_cases rejected) as [[H [rows Hr]]|[H [d Hr]]];
    rewrite Hr, H; cbn [bind].
  - split; [split; eauto|discriminate].
  - split; [split; [intros [file Hf]; discriminate Hf|discriminate]|].
    intros e He. injection He as <-. split; [eexists; reflexivity|].
    assert (Hex : existsb (fun o => negb (reportableOrder o)) rejected = true).
    { clear Hr. induction rejected as [|x l IH]; [discriminate|].
      cbn [forallb existsb] in *. destruct (reportableOrder x); simpl; auto. }
    apply existsb_exists in Hex as (x & Hin & Hx).
    exists x. split; [exact Hin|].
    unfold reportableOrder in Hx. apply negb_true_iff, andb_false_iff in Hx. exact Hx.
Qed.

(** X14.  Round trip of a row of the WIP rejection report: when the order
    id, the due date and the order value contain neither a comma nor a double
    quote, the row of a rejected order reads back as its six values, the
    customer and project names being read as the empty text when they are
    falsy. *)
Theorem X14_wip_row_roundtrip (o : WipRejected) (row : str) :
  wipRejectionRow o = Ok row ->
  plainField (wipOrderId o) = true ->
  plainField (wipDueDate o) = true ->
  plainField (wipOrderValue o) = true ->
  csvFields row
  = [ wipOrderId o; reportText (wipCustomerName o); reportText (wipProjectName o);
      wipDueDate o; wipOrderValue o; wipReason o ].
Proof.
  intros Hrow H1 H2 H3.
  destruct (wipRejectionRow_cases o) as [[_ E]|[_ [d E]]]; rewrite E in Hrow;
    [|discriminate].
  injection Hrow as <-.
  apply (csvFields_cells
           [ Raw (wipOrderId o); Quoted (reportText (wipCustomerName o));
             Quoted (reportText (wipProjectName o)); Raw (wipDueDate o);
             Raw (wipOrderValue o); Quoted (wipReason o) ]).
  - discriminate.
  - cbn [forallb cellSafe]. now rewrite H1, H2, H3.
Qed.

Lemma X14_witness :
  csvFields (L "12345," ++ csvQuote (L "Acme, Inc") ++ L "," ++ csvQuote []
             ++ L ",03/15/2025,10.00," ++ csvQuote notFoundReason)
  = [ L "12345"; L "Acme, Inc"; []; L "03/15/2025"; L "10.00"; notFoundReason ].
Proof.
  apply (X14_wip_row_roundtrip
           (mkWipRejected (L "12345") (VStr (L "Acme, Inc")) VNull (L "03/15/2025")
                          (L "10.00") notFoundReason));
    reflexivity.
Defined.

(** ** Column lookup ([findColumn]) *)






(** ** The order in which invoice groups are processed *)

Lemma keys_appendOrder (g : JsObject (list CsvRow)) (o : CsvRow) :
  map fst (appendOrder g o)
  = if existsb (fun k' => str_eqb k' (invoiceOf o)) (map fst g) then map fst g
    else map fst g ++ [invoiceOf o].
Proof.
  unfold appendOrder. destruct (getProp g (invoiceOf o)); apply keys_setProp.
Qed.

Lemma keys_fold_appendOrder (orderData : list CsvRow) (g : JsObject (list CsvRow)) :
  map fst (fold_left appendOrder orderData g)
  = map fst g ++ firstSeenFrom (map fst g) (map invoiceOf orderData).
Proof.
  revert g; induction orderData as [|o data IH]; intro g.
  - simpl. now rewrite app_nil_r.
  - cbn [fold_left map firstSeenFrom]. rewrite IH, keys_appendOrder.
    destruct (existsb _ _); [reflexivity|]. now rewrite <- app_assoc.
Qed.

Lemma keys_ordersByInvoice (orderData : list CsvRow) (groups : JsObject (list CsvRow)) :
  ordersByInvoice orderData = Ok groups ->
  map fst groups = firstSeen (map invoiceOf orderData).
Proof.
  intro H. rewrite (ordersByInvoice_appendOrders _ _ H).
  exact (keys_fold_appendOrder orderData []).
Qed.

Lemma Forall2_nth_error {A B} (P : A -> B -> Prop) (l1 : list A) (l2 : list B) :
  List.length l2 = List.length l1 ->
  (forall i a, nth_error l1 i = Some a ->
               exists b, nth_error l2 i = Some b /\ P a b) ->
  Forall2 P l1 l2.
Proof.
  revert l2; induction l1 as [|a l1 IH]; intros [|b l2] Hlen Hn;
    try discriminate Hlen; constructor.
  - destruct (Hn 0%nat a eq_refl) as (b' & Hb & Hp).
    injection Hb as <-. exact Hp.
  - apply IH; [now injection Hlen|].
    intros i x Hi. exact (Hn (S i) x Hi).
Qed.

Lemma sorted_insertByIndex {V} (e : str * V) (l : JsObject V) :
  Sorted.StronglySorted indexLe (map fst l) ->
  Sorted.StronglySorted indexLe (map fst (insertByIndex e l)).
Proof.
  induction l as [|x l IH]; intro Hs.
  - simpl. constructor; constructor.
  - cbn [insertByIndex]. inversion Hs as [|? ? Hs' Hall]; subst.
    destruct (Z.ltb_spec (indexValue (fst e)) (indexValue (fst x))) as [Hlt|Hge].
    + cbn [map]. constructor; [exact Hs|].
      constructor; [unfold indexLe; lia|].
      eapply Forall_impl; [|exact Hall]. unfold indexLe. intros a Ha. lia.
    + cbn [map]. constructor; [exact (IH Hs')|].
      apply Forall_forall. intros k Hk. apply in_map_iff in Hk as (y & <- & Hy).
      apply In_insertByIndex in Hy as [->|Hy]; [exact Hge|].
      rewrite Forall_forall in Hall. apply Hall. now apply in_map.
Qed.

Lemma sorted_fold_insertByIndex {V} (l : JsObject V) :
  Sorted.StronglySorted indexLe (map fst (fold_right insertByIndex [] l))
  /\ Permutation.Permutation (fold_right insertByIndex [] l) l.
Proof.
  induction l as [|x l [IH1 IH2]]; simpl.
  - split; constructor.
  - split; [now apply sorted_insertByIndex|].
    eapply Permutation.perm_trans; [apply Permutation_insertByIndex|].
    now apply Permutation.perm_skip.
Qed.

Lemma map_fst_filter {V} (f : str -> bool) (o : JsObject V) :
  map fst (filter (fun e => f (fst e)) o) = filter f (map fst o).
Proof.
  induction o as [|[k v] o IH]; simpl; auto.
  destruct (f k); simpl; now rewrite IH.
Qed.

Section GroupOrder.
Context {host : Host}.

(** X16.  When the order mapping returns, its groups were not processed in
    file order: the invoice numbers that are array indices (canonical decimal
    numerals) came first, in ascending numeric order, and the other invoice
    numbers followed in the order in which they first occur in the order
    file.  The main jobs and the rejected orders of the result are those of
    the groups in this order: the outcome of each group is a main job with the
    job id of the invoice, or a rejected order with its invoice number. *)
Theorem X16_group_order (api : Api) (customerData orderData : list CsvRow)
        (m : MapResult) :
  mapOrdersToMonarch api customerData orderData = Ok m ->
  exists groups outcomes numeric others,
    ordersByInvoice orderData = Ok groups
    /\ map fst (ownEntries groups) = numeric ++ others
    /\ Permutation.Permutation
         numeric (filter isArrayIndex (firstSeen (map invoiceOf orderData)))
    /\ Sorted.StronglySorted indexLe numeric
    /\ others
       = filter (fun k => negb (isArrayIndex k)) (firstSeen (map invoiceOf orderData))
    /\ mainJobs m = mainsOf outcomes
    /\ rejectedOrders m = rejectedOf outcomes
    /\ Forall2 outcomeOf (numeric ++ others) outcomes.
Proof.
  intro Hm.
  destruct (mapOrdersToMonarch_groups api customerData orderData m Hm)
    as (groups & outcomes & Hg & Hlen & Hmain & _ & Hrej & Hall).
  pose proof (keys_ordersByInvoice orderData groups Hg) as Hk.
  destruct (sorted_fold_insertByIndex
              (filter (fun e => isArrayIndex (fst e)) groups)) as [Hs Hp].
  exists groups, outcomes,
    (map fst (fold_right insertByIndex []
                (filter (fun e => isArrayIndex (fst e)) groups))),
    (map fst (filter (fun e => negb (isArrayIndex (fst e))) groups)).
  split; [exact Hg|].
  assert (He : map fst (ownEntries groups)
               = map fst (fold_right insertByIndex []
                            (filter (fun e => isArrayIndex (fst e)) groups))
                 ++ map fst (filter (fun e => negb (isArrayIndex (fst e))) groups)).
  { unfold ownEntries. now rewrite map_app. }
  split; [exact He|].
  split; [rewrite <- Hk, <- map_fst_filter; now apply Permutation.Permutation_map|].
  split; [exact Hs|].
  split; [rewrite <- Hk; apply (map_fst_filter (fun k => negb (isArrayIndex k)))|].
  split; [exact Hmain|]. split; [exact Hrej|].
  rewrite <- He.
  apply Forall2_nth_error; [now rewrite length_map|].
  intros i invoice Hi.
  rewrite nth_error_map in Hi.
  destruct (nth_error (ownEntries groups) i) as [[invoice' orders]|] eqn:Ei;
    [|discriminate Hi].
  cbn in Hi. injection Hi as <-.
  destruct (Hall i invoice' orders Ei) as (_ & _ & Hmapped).
  destruct (lookupCustomer _) as [cid|why].
  - destruct Hmapped as (_ & main & subs & Ho & _ & Hid & _).
    exists (GroupJobs main subs). split; [exact Ho|exact Hid].
  - destruct Hmapped as (r & Ho & _ & Hinv).
    exists (GroupRejected r). split; [exact Ho|exact Hinv].
Qed.
End GroupOrder.

Lemma X16_witness :
  exists m,
    @mapOrdersToMonarch exampleHost (knownApi (VStr (L "ACME01"))) [] unorderedInvoices
    = Ok m
    /\ exists numeric others,
         [ L "9"; L "10"; L "A" ] = numeric ++ others
         /\ Sorted.StronglySorted indexLe numeric
         /\ others = [ L "A" ].
Proof.
  eexists. split; [reflexivity|].
  destruct (@X16_group_order exampleHost (knownApi (VStr (L "ACME01"))) []
              unorderedInvoices _ eq_refl)
    as (groups & outcomes & numeric & others & Hg & He & _ & Hs & Ho & _).
  injection Hg as <-.
  exists numeric, others. split; [exact He|]. split; [exact Hs|exact Ho].
Defined.

(** The groups of the invoices 10, 9, A, 9 are processed in the order 9, 10,
    A, and a main job is made for each in that order. *)
Example group_order_example :
  match @mapOrdersToMonarch exampleHost (knownApi (VStr (L "ACME01"))) []
          unorderedInvoices with
  | Ok m => map (fun j => fieldValue j (L "job_id")) (mainJobs m)
            = [ VStr (orderJobId (L "9")); VStr (orderJobId (L "10"));
                VStr (orderJobId (L "A")) ]
  | Throw _ => False
  end.
Proof. vm_compute. reflexivity. Qed.

(** ** Job identifiers across the two revisions of the order mapping *)

Lemma blankLeadingZeros_zeros (k : nat) (s : str) :
  blankLeadingZeros (repeat "0"%char k ++ s) = spaces k ++ blankLeadingZeros s.
Proof.
  induction k as [|k IH]; [reflexivity|].
  cbn [repeat app blankLeadingZeros].
  destruct (ascii_dec "0" "0") as [_|N]; [|now elim N].
  now rewrite IH.
Qed.

Lemma blankLeadingZeros_app_spaces (s : str) (k : nat) :
  blankLeadingZeros (s ++ spaces k) = blankLeadingZeros s ++ spaces k.
Proof.
  induction s as [|c s IH].
  - destruct k; [reflexivity|]. cbn [app spaces repeat blankLeadingZeros].
    destruct (ascii_dec space "0") as [E|_]; [discriminate E|reflexivity].
  - cbn [app blankLeadingZeros]. destruct (ascii_dec c "0"); [|reflexivity].
    now rewrite IH.
Qed.

(** X17.  The two revisions of the order mapping derive the job id from the
    same characters but align them differently.  For an invoice number of at
    most 8 characters the earlier revision puts the spaces of the padding
    first and the current one puts them last, around the invoice number with
    its leading zeros blanked; for 8 characters or more both give the same
    id. *)
Theorem X17_job_id_revisions (inv : str) (jobsSoFar : nat) :
  inv <> [] ->
  List.length (legacyJobId inv jobsSoFar) = 8%nat
  /\ ((List.length inv <= 8)%nat ->
      legacyJobId inv jobsSoFar
      = spaces (8 - List.length inv) ++ blankLeadingZeros inv
      /\ orderJobId inv = blankLeadingZeros inv ++ spaces (8 - List.length inv))
  /\ ((8 <= List.length inv)%nat -> legacyJobId inv jobsSoFar = orderJobId inv).
Proof.
  intro Hne. unfold legacyJobId, orderJobId, substring0, padStart, padEnd.
  destruct inv as [|c inv]; [contradiction|]. cbv zeta.
  set (s := c :: inv). split; [|split].
  - rewrite length_blankLeadingZeros, length_firstn, length_app, repeat_length. lia.
  - intro Hle. split.
    + rewrite firstn_all2 by (rewrite length_app, repeat_length; lia).
      apply blankLeadingZeros_zeros.
    + rewrite firstn_all2 by (rewrite length_app, length_spaces; lia).
      apply blankLeadingZeros_app_spaces.
  - intro Hge.
    replace (8 - List.length s)%nat with 0%nat by lia.
    cbn [repeat spaces app]. now rewrite app_nil_r.
Qed.

Lemma X17_witness :
  legacyJobId (L "00520") 0 = L "     520" /\ orderJobId (L "00520") = L "  520   ".
Proof.
  destruct (X17_job_id_revisions (L "00520") 0 ltac:(discriminate)) as (_ & H & _).
  exact (H ltac:(simpl; lia)).
Defined.

(** ** Description clean-up *)

Lemma startsWith_spec (p s : str) :
  startsWith p s = true -> s = p ++ skipn (List.length p) s.
Proof.
  revert s; induction p as [|a p IH]; intros s H; [reflexivity|].
  destruct s as [|b s]; [discriminate|]. cbn [startsWith] in H.
  destruct (ascii_dec a b) as [->|]; [|discriminate].
  cbn [List.length skipn app]. f_equal. now apply IH.
Qed.

Lemma splitGo_nonempty (fuel : nat) (sep cur s : str) : splitGo fuel sep cur s <> [].
Proof.
  revert cur s; induction fuel as [|fuel IH]; intros cur s; [discriminate|].
  cbn [splitGo]. destruct s as [|c s]; [discriminate|].
  destruct (startsWith sep (c :: s)); [discriminate|apply IH].
Qed.

Lemma join_cons (sep x : str) (l : list str) :
  l <> [] -> join sep (x :: l) = x ++ sep ++ join sep l.
Proof. destruct l; [contradiction|reflexivity]. Qed.

Lemma join_splitGo (fuel : nat) (sep cur s : str) :
  sep <> [] ->
  (List.length s < fuel)%nat ->
  join sep (splitGo fuel sep cur s) = rev cur ++ s.
Proof.
  intro Hsep. revert cur s; induction fuel as [|fuel IH]; intros cur s Hf; [lia|].
  cbn [splitGo]. destruct s as [|c s]; [cbn [join]; now rewrite app_nil_r|].
  destruct (startsWith sep (c :: s)) eqn:E.
  - rewrite join_cons by apply splitGo_nonempty.
    rewrite IH.
    + cbn [rev app]. now rewrite <- (startsWith_spec sep (c :: s) E).
    + rewrite length_skipn. destruct sep; [contradiction|].
      cbn [List.length] in *. lia.
  - rewrite IH by (cbn [List.length] in Hf; lia).
    cbn [rev]. now rewrite <- app_assoc.
Qed.

(** Splitting and joining with the same separator gives the text back. *)
Lemma join_split (sep s : str) : sep <> [] -> join sep (split sep s) = s.
Proof.
  intro Hsep. unfold split. now rewrite join_splitGo by (auto; lia).
Qed.

Lemma length_join_first (sep : str) (l : list str) :
  (List.length (nth 0 l []) <= List.length (join sep l))%nat.
Proof.
  destruct l as [|x [|y l]]; simpl; try lia.
  rewrite !length_app. lia.
Qed.

Lemma length_join_two (sep : str) (l : list str) :
  nth 1 l [] <> [] ->
  (List.length (nth 0 l []) + List.length sep + List.length (nth 1 l [])
   <= List.length (join sep l))%nat.
Proof.
  destruct l as [|x [|y l]]; cbn [nth]; try contradiction. intros _.
  pose proof (length_join_first sep (y :: l)) as H. cbn [nth] in H.
  change (join sep (x :: y :: l)) with (x ++ sep ++ join sep (y :: l)).
  rewrite !length_app. lia.
Qed.

Lemma length_trimStart (s : str) : (List.length (trimStart s) <= List.length s)%nat.
Proof.
  induction s as [|c s IH]; simpl; auto. destruct (isWhite c); simpl; lia.
Qed.

Lemma length_trim (s : str) : (List.length (trim s) <= List.length s)%nat.
Proof.
  unfold trim. rewrite length_rev.
  pose proof (length_trimStart (rev (trimStart s))) as H1.
  pose proof (length_trimStart s) as H2. rewrite length_rev in H1. lia.
Qed.

Lemma includes_nil (sep : str) : sep <> [] -> includes sep [] = false.
Proof. destruct sep; [contradiction|reflexivity]. Qed.

Lemma length_detail (sep second : str) :
  sep <> [] ->
  (List.length (trim (nth 0 (split sep second) [])) <= List.length second)%nat.
Proof.
  intro Hsep. pose proof (length_trim (nth 0 (split sep second) [])) as H1.
  pose proof (length_join_first sep (split sep second)) as H2.
  rewrite (join_split sep second Hsep) in H2. lia.
Qed.

(** X18.  [cleanProductDescription] never lengthens a description, and it
    returns the description unchanged when it holds no [ : ] separator or is
    the word Shipping (in any letter case, with any surrounding blanks). *)
Theorem X18_clean_description (description : str) :
  (List.length (cleanProductDescription description) <= List.length description)%nat
  /\ (includes (L " : ") description = false ->
      cleanProductDescription description = description)
  /\ (str_eqb (toLowerCase (trim description)) (L "shipping") = true ->
      cleanProductDescription description = description).
Proof.
  unfold cleanProductDescription.
  destruct description as [|c d]; [repeat split; auto|].
  set (s := c :: d).
  destruct (str_eqb (toLowerCase (trim s)) (L "shipping")); [repeat split; auto|].
  destruct (includes (L " : ") s) eqn:Ei; [|repeat split; auto; discriminate].
  cbv zeta.
  set (parts := split (L " : ") s).
  assert (Hj : join (L " : ") parts = s) by (apply join_split; discriminate).
  split; [|split; discriminate].
  destruct (list_eq_dec ascii_dec (nth 1 parts []) []) as [E|Hne].
  - rewrite E. rewrite !includes_nil by discriminate. lia.
  - pose proof (length_join_two (L " : ") parts Hne) as H2. rewrite Hj in H2.
    pose proof (length_trim (nth 0 parts [])) as H0.
    change (List.length (L " : ")) with 3%nat in H2.
    destruct (includes (L " - Sample") (nth 1 parts [])).
    + pose proof (length_detail (L " - Sample") (nth 1 parts []) ltac:(discriminate)).
      rewrite !length_app. change (List.length (L " : ")) with 3%nat. lia.
    + destruct (includes (L " - ") (nth 1 parts [])); [|lia].
      pose proof (length_detail (L " - ") (nth 1 parts []) ltac:(discriminate)).
      rewrite !length_app. change (List.length (L " : ")) with 3%nat. lia.
Qed.

(** The description of the specification's example. *)
Example clean_description_example :
  cleanProductDescription (L "Booklet - 6.5in : mailing - Sample")
  = L "Booklet - 6.5in : mailing".
Proof. reflexivity. Qed.

(** ** Defaults for customer rows *)

Lemma cellOr_bound (row : CsvRow) (k v d : str) :
  getProp row k = Some v -> cellOr row k d = match v with [] => d | _ => v end.
Proof. unfold cellOr. intros ->. now destruct v. Qed.

Lemma cellOr_nil (row : CsvRow) (k d : str) : cellOr row k d = [] -> d = [].
Proof. unfold cellOr. destruct (getProp row k) as [[|c s]|]; auto; discriminate. Qed.

Lemma setProp_same {V} (o : JsObject V) (k : str) (v : V) :
  getProp o k = Some v -> setProp o k v = o.
Proof.
  induction o as [|[k' v'] o IH]; simpl; [discriminate|].
  destruct (str_eqb k' k) eqn:E.
  - apply str_eqb_eq in E as ->. now intros [= ->].
  - intro H. now rewrite IH.
Qed.

Lemma str_eqb_neq (a b : str) : str_eqb a b = false <-> a <> b.
Proof.
  destruct (str_eqb a b) eqn:E.
  - apply str_eqb_eq in E. split; [discriminate|contradiction].
  - split; auto. intros _ ->. now rewrite str_eqb_refl in E.
Qed.

Lemma getProp_applyRule_same (defaults : CsvRow) (r : DefaultRule) :
  getProp (applyRule defaults r) (ruleKey r) = Some (ruleValue defaults r).
Proof. apply getProp_setProp_same. Qed.

Lemma getProp_applyRule_other (defaults : CsvRow) (r : DefaultRule) (k : str) :
  ruleKey r <> k -> getProp (applyRule defaults r) k = getProp defaults k.
Proof. intro H. apply getProp_setProp_other. now apply str_eqb_neq. Qed.

Lemma getProp_rules_other (rules : list DefaultRule) (defaults : CsvRow) (k : str) :
  ~ In k (map ruleKey rules) ->
  getProp (fold_left applyRule rules defaults) k = getProp defaults k.
Proof.
  revert defaults; induction rules as [|r rules IH]; intros defaults Hk; [reflexivity|].
  cbn [fold_left]. rewrite IH by (intro; apply Hk; now right).
  apply getProp_applyRule_other. intro E. apply Hk. now left.
Qed.

Lemma getProp_rules_plain (rules : list DefaultRule) (defaults : CsvRow)
      (r : DefaultRule) :
  NoDup (map ruleKey rules) ->
  In r rules ->
  ruleFallback r = None ->
  getProp (fold_left applyRule rules defaults) (ruleKey r)
  = Some (cellOr defaults (ruleKey r) (ruleDefault r)).
Proof.
  revert defaults; induction rules as [|r0 rules IH]; intros defaults Hn Hin Hf;
    [destruct Hin|].
  inversion Hn as [|? ? Hk Hn']; subst. cbn [fold_left].
  destruct Hin as [->|Hin].
  - rewrite getProp_rules_other by exact Hk.
    rewrite getProp_applyRule_same. unfold ruleValue. now rewrite Hf.
  - rewrite (IH _ Hn' Hin Hf). f_equal. unfold cellOr.
    rewrite getProp_applyRule_other; [reflexivity|].
    intro E. apply Hk. rewrite E. now apply in_map.
Qed.

Lemma notIn_by_check (k : str) (l : list str) :
  existsb (fun x => str_eqb x k) l = false -> ~ In k l.
Proof.
  intros H Hin. assert (E : existsb (fun x => str_eqb x k) l = true).
  { apply existsb_exists. exists k. split; [exact Hin|apply str_eqb_refl]. }
  congruence.
Qed.

Lemma NoDup_defaultRules : NoDup (map ruleKey defaultRules).
Proof.
  assert (H : nodup (list_eq_dec ascii_dec) (map ruleKey defaultRules)
              = map ruleKey defaultRules) by (vm_compute; reflexivity).
  rewrite <- H. apply NoDup_nodup.
Qed.

Lemma fold_left_step {A B} (f : A -> B -> A) (x : B) (l : list B) (a : A) :
  fold_left f (x :: l) a = fold_left f l (f a x).
Proof. reflexivity. Qed.

Lemma defaults_unfold (customer : CsvRow) :
  initializeCustomerDefaults customer = fold_left applyRule defaultRules customer.
Proof. reflexivity. Qed.

Lemma getProp_defaults_plain (customer : CsvRow) (r : DefaultRule) :
  In r defaultRules ->
  ruleFallback r = None ->
  getProp (initializeCustomerDefaults customer) (ruleKey r)
  = Some (cellOr customer (ruleKey r) (ruleDefault r)).
Proof.
  intros Hr Hf. rewrite defaults_unfold.
  exact (getProp_rules_plain defaultRules customer r NoDup_defaultRules Hr Hf).
Qed.

Lemma getProp_defaults_customerId (customer : CsvRow) :
  getProp (initializeCustomerDefaults customer) (L "Customer ID")
  = Some (cellOr customer (L "Customer ID") []).
Proof.
  apply (getProp_defaults_plain customer customerIdRule); [now left|reflexivity].
Qed.

Lemma getProp_defaults_mis (customer : CsvRow) :
  getProp (initializeCustomerDefaults customer) (L "MIS Account ID")
  = Some (cellOr customer (L "MIS Account ID") (cellOr customer (L "Customer ID") [])).
Proof.
  rewrite defaults_unfold. unfold defaultRules. rewrite !fold_left_step.
  rewrite getProp_rules_other by (apply notIn_by_check; vm_compute; reflexivity).
  set (first := applyRule customer customerIdRule).
  change (L "MIS Account ID") with (ruleKey misAccountRule) at 1.
  rewrite getProp_applyRule_same. unfold ruleValue, misAccountRule.
  cbn [ruleKey ruleFallback ruleDefault].
  assert (Hc : cellOr first (L "Customer ID") [] = cellOr customer (L "Customer ID") []).
  { rewrite (cellOr_bound first (L "Customer ID") _ _
                          (getProp_applyRule_same customer customerIdRule)).
    unfold ruleValue, customerIdRule. cbn [ruleKey ruleFallback ruleDefault].
    now destruct (cellOr customer (L "Customer ID") []). }
  assert (Hm : forall d, cellOr first (L "MIS Account ID") d
                         = cellOr customer (L "MIS Account ID") d).
  { intro d. unfold cellOr, first.
    now rewrite (getProp_applyRule_other customer customerIdRule (L "MIS Account ID"))
      by discriminate. }
  now rewrite Hm, Hc.
Qed.

Lemma plain_or_mis (r : DefaultRule) :
  In r defaultRules -> ruleFallback r = None \/ r = misAccountRule.
Proof.
  assert (H : Forall (fun r => ruleFallback r = None \/ r = misAccountRule) defaultRules).
  { unfold defaultRules, laterRules.
    repeat (apply Forall_cons; [first [left; reflexivity | right; reflexivity]|]).
    apply Forall_nil. }
  rewrite Forall_forall in H. exact (H r).
Qed.

Lemma getProp_defaults_filled (customer : CsvRow) (k : str) (c : ascii) (s : str) :
  getProp customer k = Some (c :: s) ->
  getProp (initializeCustomerDefaults customer) k = Some (c :: s).
Proof.
  intro H.
  destruct (in_dec (list_eq_dec ascii_dec) k (map ruleKey defaultRules)) as [Hin|Hout].
  - apply in_map_iff in Hin as (r & <- & Hr).
    destruct (plain_or_mis r Hr) as [Hf| ->].
    + rewrite (getProp_defaults_plain customer r Hr Hf).
      now rewrite (cellOr_bound _ _ _ _ H).
    + change (ruleKey misAccountRule) with (L "MIS Account ID") in *.
      rewrite getProp_defaults_mis.
      now rewrite (cellOr_bound _ _ _ _ H).
  - rewrite defaults_unfold. now rewrite getProp_rules_other.
Qed.

Lemma applyRule_stable (customer : CsvRow) (r : DefaultRule) :
  In r defaultRules ->
  applyRule (initializeCustomerDefaults customer) r = initializeCustomerDefaults customer.
Proof.
  intro Hr. unfold applyRule. apply setProp_same.
  destruct (plain_or_mis r Hr) as [Hf| ->].
  - pose proof (getProp_defaults_plain customer r Hr Hf) as Hg.
    rewrite Hg. f_equal.
    unfold ruleValue. rewrite Hf, (cellOr_bound _ _ _ _ Hg).
    destruct (cellOr customer (ruleKey r) (ruleDefault r)) eqn:E; [|reflexivity].
    now apply cellOr_nil in E.
  - change (ruleKey misAccountRule) with (L "MIS Account ID").
    rewrite getProp_defaults_mis. f_equal.
    unfold ruleValue, misAccountRule. cbn [ruleKey ruleFallback ruleDefault].
    rewrite (cellOr_bound _ _ _ _ (getProp_defaults_mis customer)).
    rewrite (cellOr_bound _ _ _ _ (getProp_defaults_customerId customer)).
    destruct (cellOr customer (L "MIS Account ID") (cellOr customer (L "Customer ID") []))
      eqn:E; [|reflexivity].
    apply cellOr_nil in E. now rewrite E.
Qed.

(** X19.  What [initializeCustomerDefaults] leaves in a customer row: every
    property of its list holds the row's own value when that is a non-empty
    text and the default otherwise ([MIS Account ID] falls back on
    [Customer ID] first); a non-empty cell is never changed, a property outside
    the list is never touched, and applying the function a second time changes
    nothing. *)
Theorem X19_customer_defaults (customer : CsvRow) :
  (forall r, In r defaultRules -> ruleFallback r = None ->
     getProp (initializeCustomerDefaults customer) (ruleKey r)
     = Some (cellOr customer (ruleKey r) (ruleDefault r)))
  /\ getProp (initializeCustomerDefaults customer) (L "MIS Account ID")
     = Some (cellOr customer (L "MIS Account ID") (cellOr customer (L "Customer ID") []))
  /\ (forall k c s, getProp customer k = Some (c :: s) ->
        getProp (initializeCustomerDefaults customer) k = Some (c :: s))
  /\ (forall k, ~ In k (map ruleKey defaultRules) ->
        getProp (initializeCustomerDefaults customer) k = getProp customer k)
  /\ initializeCustomerDefaults (initializeCustomerDefaults customer)
     = initializeCustomerDefaults customer.
Proof.
  split; [|split; [|split; [|split]]].
  - intros r Hr Hf. exact (getProp_defaults_plain customer r Hr Hf).
  - apply getProp_defaults_mis.
  - apply getProp_defaults_filled.
  - intros k Hk. rewrite defaults_unfold. now apply getProp_rules_other.
  - rewrite (defaults_unfold (initializeCustomerDefaults customer)).
    assert (H : forall rules, incl rules defaultRules ->
                fold_left applyRule rules (initializeCustomerDefaults customer)
                = initializeCustomerDefaults customer).
    { induction rules as [|r rules IH]; intro Hi; [reflexivity|].
      rewrite fold_left_step, applyRule_stable by (apply Hi; now left).
      apply IH. intros x Hx. apply Hi. now right. }
    apply H. apply incl_refl.
Qed.

Lemma cellOr_defaults_blank (customer : CsvRow) (r : DefaultRule) :
  In r defaultRules -> ruleFallback r = None -> ruleDefault r = [] ->
  cellOr (initializeCustomerDefaults customer) (ruleKey r) []
  = cellOr customer (ruleKey r) [].
Proof.
  intros Hr Hf Hd.
  pose proof (getProp_defaults_plain customer r Hr Hf) as Hg.
  rewrite (cellOr_bound _ _ _ _ Hg), Hd.
  now destruct (cellOr customer (ruleKey r) []).
Qed.

Lemma contactNameOf_find (customerData : list CsvRow) (name : str) :
  contactNameOf customerData name
  = match find (idMatches name) customerData with
    | Some c => trim (cellOr c (L "Bill to Contact First Name") [] ++ L " "
                      ++ cellOr c (L "Bill to Contact Last Name") [])
    | None => []
    end.
Proof. reflexivity. Qed.

Lemma idMatches_defaults (name : str) (c : CsvRow) :
  name <> [] -> idMatches name (initializeCustomerDefaults c) = idMatches name c.
Proof.
  intro Hne. unfold idMatches. rewrite getProp_defaults_customerId. unfold cellOr.
  destruct (getProp c (L "Customer ID")) as [[|x s]|]; try reflexivity.
  apply str_eqb_neq. congruence.
Qed.

Lemma find_defaults (name : str) (customerData : list CsvRow) :
  name <> [] ->
  find (idMatches name) (map initializeCustomerDefaults customerData)
  = option_map initializeCustomerDefaults (find (idMatches name) customerData).
Proof.
  intro Hne. induction customerData as [|c cd IH]; [reflexivity|].
  cbn [map find]. rewrite idMatches_defaults by exact Hne.
  destruct (idMatches name c); [reflexivity|exact IH].
Qed.

(** X20.  The defaults do not change which contact an order gets: for an
    order that names its customer, the contact name looked up in the customer
    rows after [initializeCustomerDefaults] is the one looked up in the rows as
    parsed. *)
Theorem X20_defaults_keep_contact (customerData : list CsvRow) (name : str) :
  name <> [] ->
  contactNameOf (map initializeCustomerDefaults customerData) name
  = contactNameOf customerData name.
Proof.
  intro Hne. rewrite !contactNameOf_find, find_defaults by exact Hne.
  destruct (find (idMatches name) customerData) as [c|]; [|reflexivity].
  cbn [option_map].
  change (L "Bill to Contact First Name")
    with (ruleKey (mkRule (L "Bill to Contact First Name") None [])).
  change (L "Bill to Contact Last Name")
    with (ruleKey (mkRule (L "Bill to Contact Last Name") None [])).
  rewrite !cellOr_defaults_blank;
    first [reflexivity
          | apply (nth_error_In defaultRules 9); reflexivity
          | apply (nth_error_In defaultRules 10); reflexivity].
Qed.

Lemma X20_witness :
  contactNameOf (map initializeCustomerDefaults [anonymousCustomer]) (L "Acme Co")
  = contactNameOf [anonymousCustomer] (L "Acme Co").
Proof.
  apply (X20_defaults_keep_contact [anonymousCustomer] (L "Acme Co")). discriminate.
Defined.

(** For an order without a customer name the defaults do matter: a customer
    row without an id now matches the empty name. *)
Example contact_of_unnamed_order :
  contactNameOf [anonymousCustomer] [] = []
  /\ contactNameOf (map initializeCustomerDefaults [anonymousCustomer]) [] = L "Pat Doe".
Proof. split; reflexivity. Qed.

(** ** The viewer on the files of the order importer *)









Section ViewerOnJobs.
Context {host : Host}.

End ViewerOnJobs.


(** ** Rows of the sheet *)

Lemma getProp_assignCell_other (obj : WipRow) (name k : str) (cell : JsVal) :
  str_eqb name k = false ->
  getProp (assignCell obj name cell) k = getProp obj k.
Proof.
  intro H. unfold assignCell. destruct (str_eqb name protoName); [reflexivity|].
  now apply getProp_setProp_other.
Qed.

Lemma getProp_rowObjectFrom (headers cells : list JsVal) (index : nat) (obj : WipRow)
      (k : str) :
  getProp (rowObjectFrom index headers cells obj) k
  = if str_eqb k protoName then getProp obj k
    else match lastColumn k index headers with
         | Some j => Some (cellAt cells j)
         | None => getProp obj k
         end.
Proof.
  revert index obj; induction headers as [|header headers IH]; intros index obj.
  - cbn [rowObjectFrom lastColumn]. now destruct (str_eqb k protoName).
  - cbn [rowObjectFrom lastColumn]. rewrite IH.
    destruct (str_eqb k protoName) eqn:Ep.
    + unfold assignCell.
      destruct (str_eqb (headerName index header) protoName) eqn:Eh; [reflexivity|].
      apply getProp_setProp_other. apply str_eqb_neq. intro Hx.
      rewrite Hx in Eh. congruence.
    + destruct (lastColumn k (S index) headers); [reflexivity|].
      destruct (str_eqb (headerName index header) k) eqn:E.
      * apply str_eqb_eq in E as <-. unfold assignCell. rewrite Ep.
        apply getProp_setProp_same.
      * now apply getProp_assignCell_other.
Qed.

Lemma keys_rowObjectFrom (headers cells : list JsVal) (index : nat) (obj : WipRow) :
  map fst (rowObjectFrom index headers cells obj)
  = map fst obj
    ++ firstSeenFrom (map fst obj)
         (filter (fun k => negb (str_eqb k protoName)) (headerNames index headers)).
Proof.
  revert index obj; induction headers as [|header headers IH]; intros index obj.
  - simpl. now rewrite app_nil_r.
  - cbn [rowObjectFrom headerNames filter]. rewrite IH. unfold assignCell.
    destruct (str_eqb (headerName index header) protoName); cbn [negb];
      [reflexivity|].
    cbn [firstSeenFrom]. rewrite keys_setProp.
    destruct (existsb _ _); [reflexivity|]. now rewrite <- app_assoc.
Qed.

Lemma cellAt_defined (cells : list JsVal) (index : nat) : cellAt cells index <> VUndefined.
Proof.
  unfold cellAt. destruct (nth_error cells index) as [[]|]; discriminate.
Qed.

Lemma Forall_setProp {V} (P : str * V -> Prop) (o : JsObject V) (k : str) (v : V) :
  Forall P o -> P (k, v) -> Forall P (setProp o k v).
Proof.
  intros Ho Hk. induction Ho as [|[k' v'] o Hx Ho IH]; simpl.
  - now constructor.
  - destruct (str_eqb k' k); constructor; auto.
Qed.

Lemma rowObjectFrom_defined (headers cells : list JsVal) (index : nat) (obj : WipRow) :
  Forall (fun e => snd e <> VUndefined) obj ->
  Forall (fun e => snd e <> VUndefined) (rowObjectFrom index headers cells obj).
Proof.
  revert index obj; induction headers as [|header headers IH]; intros index obj H;
    [exact H|].
  cbn [rowObjectFrom]. apply IH. unfold assignCell.
  destruct (str_eqb (headerName index header) protoName); [exact H|].
  apply Forall_setProp; [exact H|]. apply cellAt_defined.
Qed.

Lemma lastColumn_None (k : str) (headers : list JsVal) (index : nat) :
  lastColumn k index headers = None ->
  forall i, (index <= i < index + List.length headers)%nat ->
            headerName i (nth (i - index) headers VUndefined) <> k.
Proof.
  revert index; induction headers as [|header headers IH]; intros index H i Hi;
    [cbn [List.length] in Hi; lia|].
  cbn [lastColumn] in H. cbn [List.length] in Hi.
  destruct (lastColumn k (S index) headers) eqn:E; [discriminate|].
  destruct (str_eqb (headerName index header) k) eqn:Ek; [discriminate|].
  destruct (Nat.eq_dec i index) as [->|Hne].
  - rewrite Nat.sub_diag. now apply str_eqb_neq.
  - replace (i - index)%nat with (S (i - S index)) by lia.
    apply (IH (S index) E). lia.
Qed.

Lemma lastColumn_Some (k : str) (headers : list JsVal) (index j : nat) :
  lastColumn k index headers = Some j ->
  (index <= j < index + List.length headers)%nat
  /\ headerName j (nth (j - index) headers VUndefined) = k
  /\ forall i, (j < i < index + List.length headers)%nat ->
               headerName i (nth (i - index) headers VUndefined) <> k.
Proof.
  revert index; induction headers as [|header headers IH]; intros index; [discriminate|].
  cbn [lastColumn List.length].
  destruct (lastColumn k (S index) headers) as [j'|] eqn:E.
  - intro H. injection H as ->. destruct (IH _ E) as (H1 & H2 & H3).
    split; [lia|]. split.
    + replace (j - index)%nat with (S (j - S index)) by lia. exact H2.
    + intros i Hi. replace (i - index)%nat with (S (i - S index)) by lia.
      apply H3. lia.
  - destruct (str_eqb (headerName index header) k) eqn:Ek; [|discriminate].
    intro H. injection H as <-. split; [lia|]. split.
    + rewrite Nat.sub_diag. now apply str_eqb_eq.
    + intros i Hi. replace (i - index)%nat with (S (i - S index)) by lia.
      apply (lastColumn_None k headers (S index) E). lia.
Qed.

(** X22.  The row objects [parseXLSFile] builds from the sheet.  A header
    names a property after trimming, a falsy header as Column and its index;
    the header [__proto__] gives the row no property.  [Object.keys] of a row
    lists the names that are array indices (a numeric header such as 2024)
    first, in ascending numeric order, and then the other names in the order
    of their first column.  An own property holds the cell of the last column
    that carries its name, and the empty text when the row has no cell there;
    no property is ever [undefined]; a name that no column carries and that
    the row does not inherit from [Object.prototype] reads as [undefined]. *)
Theorem X22_sheet_rows (headers cells : list JsVal) :
  (exists numeric others,
     map fst (ownEntries (rowObject headers cells)) = numeric ++ others
     /\ Permutation.Permutation numeric (filter isArrayIndex (propertyNames headers))
     /\ Sorted.StronglySorted indexLe numeric
     /\ others = filter (fun k => negb (isArrayIndex k)) (propertyNames headers))
  /\ Forall (fun e => snd e <> VUndefined) (rowObject headers cells)
  /\ (forall k,
        getProp (rowObject headers cells) k
        = if str_eqb k protoName then None
          else match lastColumn k 0 headers with
               | Some j => Some (cellAt cells j)
               | None => None
               end)
  /\ (forall k j, inheritedName k = false -> lastColumn k 0 headers = Some j ->
        prop (rowObject headers cells) k = cellAt cells j)
  /\ (forall k, inheritedName k = false -> lastColumn k 0 headers = None ->
        prop (rowObject headers cells) k = VUndefined)
  /\ (forall k j, lastColumn k 0 headers = Some j ->
        (j < List.length headers)%nat
        /\ headerName j (nth j headers VUndefined) = k
        /\ forall i, (j < i < List.length headers)%nat ->
                     headerName i (nth i headers VUndefined) <> k)
  /\ (forall k, lastColumn k 0 headers = None ->
        forall i, (i < List.length headers)%nat ->
                  headerName i (nth i headers VUndefined) <> k).
Proof.
  assert (Hproto : forall k, inheritedName k = false -> str_eqb k protoName = false).
  { intros k Hk. destruct (str_eqb k protoName) eqn:E; [|reflexivity].
    apply str_eqb_eq in E. subst k. discriminate Hk. }
  assert (Hget : forall k,
            getProp (rowObject headers cells) k
            = if str_eqb k protoName then None
              else match lastColumn k 0 headers with
                   | Some j => Some (cellAt cells j)
                   | None => None
                   end).
  { intro k. unfold rowObject. rewrite getProp_rowObjectFrom.
    destruct (str_eqb k protoName); [reflexivity|].
    now destruct (lastColumn k 0 headers). }
  split; [|split; [|split; [|split; [|split; [|split]]]]].
  - pose proof (keys_rowObjectFrom headers cells 0 []) as Hk.
    cbn [map app] in Hk. fold (rowObject headers cells) in Hk.
    change (map fst (rowObject headers cells) = propertyNames headers) in Hk.
    destruct (sorted_fold_insertByIndex
                (filter (fun e => isArrayIndex (fst e)) (rowObject headers cells)))
      as [Hs Hp].
    exists (map fst (fold_right insertByIndex []
                       (filter (fun e => isArrayIndex (fst e))
                               (rowObject headers cells)))),
      (map fst (filter (fun e => negb (isArrayIndex (fst e)))
                       (rowObject headers cells))).
    split; [unfold ownEntries; now rewrite map_app|].
    split; [rewrite <- Hk, <- map_fst_filter; now apply Permutation.Permutation_map|].
    split; [exact Hs|].
    rewrite <- Hk. apply (map_fst_filter (fun k => negb (isArrayIndex k))).
  - apply rowObjectFrom_defined. constructor.
  - exact Hget.
  - intros k j Hk Hj. unfold prop. now rewrite Hget, (Hproto k Hk), Hj.
  - intros k Hk Hj. unfold prop. now rewrite Hget, (Hproto k Hk), Hj.
  - intros k j H. destruct (lastColumn_Some k headers 0 j H) as (H1 & H2 & H3).
    rewrite Nat.sub_0_r in H2. split; [lia|]. split; [exact H2|].
    intros i Hi. specialize (H3 i ltac:(lia)). now rewrite Nat.sub_0_r in H3.
  - intros k H i Hi. pose proof (lastColumn_None k headers 0 H i ltac:(lia)) as H3.
    now rewrite Nat.sub_0_r in H3.
Qed.

(** Two columns named Order ID (one with blanks around the name), a blank
    header, a numeric header and a short row: the second column wins, the
    blank header becomes Column2, the missing cells read as the empty text,
    and [Object.entries] lists the property 2024 first. *)
Example sheet_rows_example :
  map (@ownEntries JsVal) (sheetRows repeatedHeaderSheet)
  = [ [ (L "2024", VStr []); (L "Order ID", VStr (L "99999"));
        (L "Column2", VStr []); (L "Customer Name", VStr []) ] ].
Proof. reflexivity. Qed.

(** A column headed [__proto__] leaves no property in the row. *)
Example proto_header_example :
  rowObject [ VStr (L "__proto__"); VStr (L "Order ID") ] [ VNum 7; VNum 12345 ]
  = [ (L "Order ID", VNum 12345) ].
Proof. reflexivity. Qed.
